(** * Resource reconcilers of the TencentCloud Terraform provider

    A shallow embedding of the Create / Read / Update / Delete handlers of
    [tencentcloud_cfs_snapshot], [tencentcloud_mariadb_security_groups],
    [tencentcloud_tsf_application_config], [tencentcloud_eip],
    [tencentcloud_vpn_gateway] and of the data source
    [tencentcloud_dbbrain_security_audit_log_export_tasks].

    The handlers are straight-line Go code that talks to the vendor through
    SDK and service calls.  Here a handler is a computation that threads the
    [schema.ResourceData] it was given and the state of the remote world and
    that records, in order, every vendor call with its reply and every
    [d.SetId].  The vendor is a parameter: every theorem holds whatever the
    remote side answers. *)

From Stdlib Require Import ZArith Lia Ascii String.
From stdpp Require Import base option strings gmap list.

Local Open Scope Z_scope.
Local Open Scope string_scope.

(** ** Errors and outcomes *)

(** Go [error] values.  [SDKError] is [*errors.TencentCloudSDKError], the only
    dynamic type a handler looks into; everything else ([fmt.Errorf], wrapped
    errors) is a [PlainError]. *)
Inductive error : Type :=
| SDKError (code message : string)
| PlainError (message : string).

(** Outcome of a handler: it returns [nil], returns an error, or panics on a
    nil pointer dereference. *)
Inductive Result (A : Type) : Type :=
| Ok (a : A)
| Fail (e : error)
| Panic.
Arguments Ok {A} a.
Arguments Fail {A} e.
Arguments Panic {A}.

Definition is_Fail {A} (r : Result A) : Prop :=
  match r with Fail _ => True | _ => False end.

(** ** Attribute values and [schema.ResourceData] *)

(** The fields of a nested block, as a data source lists them. *)
Inductive Scalar : Type :=
| SString (s : string)
| SInt (n : Z)
| SInts (l : list Z).

#[global] Instance Scalar_eq_dec : EqDecision Scalar.
Proof. solve_decision. Defined.

Inductive Value : Type :=
| VString (s : string)
| VInt (n : Z)
| VBool (b : bool)
| VMap (m : gmap string string)
| VSet (l : list string)
| VInts (l : list Z)
| VList (l : list (gmap string Scalar))
| VNil.

#[global] Instance Value_eq_dec : EqDecision Value.
Proof. solve_decision. Defined.

(** The zero value of the attribute's type: [GetOk] reports such a value as
    not set. *)
Definition is_zero (v : Value) : bool :=
  match v with
  | VString s => bool_decide (s = "")
  | VInt n => bool_decide (n = 0)
  | VBool b => negb b
  | VMap m => bool_decide (m = ∅)
  | VSet l => bool_decide (l = [])
  | VInts l => bool_decide (l = [])
  | VList l => bool_decide (l = [])
  | VNil => true
  end.

(** [rd_state] is the state the engine handed in, [rd_plan] that state with
    the planned diff applied, [rd_set] what the handler wrote with [d.Set]. *)
Record ResourceData : Type := mkRD {
  rd_id : string;
  rd_state : gmap string Value;
  rd_plan : gmap string Value;
  rd_set : gmap string Value;
  rd_partial : bool;
  rd_partial_keys : list string
}.

Definition Id (d : ResourceData) : string := rd_id d.

Definition SetId (v : string) (d : ResourceData) : ResourceData :=
  mkRD v (rd_state d) (rd_plan d) (rd_set d) (rd_partial d) (rd_partial_keys d).

Definition Set_ (key : string) (v : Value) (d : ResourceData) : ResourceData :=
  mkRD (rd_id d) (rd_state d) (rd_plan d) (<[key := v]> (rd_set d))
       (rd_partial d) (rd_partial_keys d).

Definition Partial (on : bool) (d : ResourceData) : ResourceData :=
  mkRD (rd_id d) (rd_state d) (rd_plan d) (rd_set d) on (rd_partial_keys d).

Definition SetPartial (key : string) (d : ResourceData) : ResourceData :=
  mkRD (rd_id d) (rd_state d) (rd_plan d) (rd_set d) (rd_partial d)
       (rd_partial_keys d ++ [key]).

(** [d.Get]: the written level shadows the planned one. *)
Definition Get (d : ResourceData) (key : string) : option Value :=
  match rd_set d !! key with
  | Some v => Some v
  | None => rd_plan d !! key
  end.

(** The attribute values a handler leaves behind, as the engine stores them. *)
Definition attributes (d : ResourceData) : gmap string Value :=
  rd_set d ∪ rd_plan d.

Definition GetOk (d : ResourceData) (key : string) : option Value :=
  match Get d key with
  | Some v => if is_zero v then None else Some v
  | None => None
  end.

Definition GetChange (d : ResourceData) (key : string) : option Value * option Value :=
  (rd_state d !! key, rd_plan d !! key).

Definition HasChange (d : ResourceData) (key : string) : bool :=
  negb (bool_decide (rd_state d !! key = rd_plan d !! key)).

(** Typed reads, [d.Get(key).(string)] and the like: an unset attribute reads
    as the zero value of its type. *)
Definition as_string (o : option Value) : string :=
  match o with Some (VString s) => s | _ => "" end.
Definition as_int (o : option Value) : Z :=
  match o with Some (VInt n) => n | _ => 0 end.
Definition as_bool (o : option Value) : bool :=
  match o with Some (VBool b) => b | _ => false end.
Definition as_map (o : option Value) : gmap string string :=
  match o with Some (VMap m) => m | _ => ∅ end.
Definition as_set (o : option Value) : list string :=
  match o with Some (VSet l) => l | _ => [] end.
Definition as_ints (o : option Value) : list Z :=
  match o with Some (VInts l) => l | _ => [] end.

Definition GetOkString (d : ResourceData) (key : string) : option string :=
  match GetOk d key with Some v => Some (as_string (Some v)) | None => None end.
Definition GetOkInt (d : ResourceData) (key : string) : option Z :=
  match GetOk d key with Some v => Some (as_int (Some v)) | None => None end.

(** [helper.GetTags(d, key)]. *)
Definition GetTags (d : ResourceData) (key : string) : gmap string string :=
  as_map (Get d key).

(** [d.Set(key, p)] for a pointer [p]: a nil pointer writes the null value. *)
Definition of_str (p : option string) : Value :=
  match p with Some s => VString s | None => VNil end.
Definition of_int (p : option Z) : Value :=
  match p with Some n => VInt n | None => VNil end.
Definition of_bool (p : option bool) : Value :=
  match p with Some b => VBool b | None => VNil end.

(** Modelled from the spec: [diffTags] is a helper of this repository that is
    not among the sources; "tag changes diffed and applied as add/remove
    sets": the tags to write are the new entries that differ from the old
    ones, the tags to delete are the old keys that are gone. *)
Definition diffTags (oldTags newTags : gmap string string)
  : gmap string string * list string :=
  (filter (fun kv => oldTags !! kv.1 ≠ Some kv.2) newTags,
   filter (fun k => newTags !! k = None) (map fst (map_to_list oldTags))).

(** [strings.Split(s, sep)] for a separator of one character: the pieces
    between the separators, so always at least one piece. *)
Fixpoint Split (s : string) (sep : ascii) : list string :=
  match s with
  | EmptyString => [EmptyString]
  | String c rest =>
      if Ascii.eqb c sep then EmptyString :: Split rest sep
      else match Split rest sep with
           | piece :: pieces => String c piece :: pieces
           | [] => [String c EmptyString]
           end
  end.

(** The separator of composite identifiers, as in the import example
    [tdsql-4pzs5b67#sg-7kpsbxdb#mariadb]. *)
Definition FILED_SP_char : ascii := "#"%char.
Definition FILED_SP : string := String FILED_SP_char EmptyString.

(** ** The vendor SDK: requests and replies

    Only the fields a handler reads or writes.  A Go pointer field is an
    [option]: [None] is the nil pointer. *)

Module cfs.
Record CreateCfsSnapshotRequest : Type := {
  FileSystemId : option string;
  SnapshotName : option string
}.
Record UpdateCfsSnapshotAttributeRequest : Type := {
  USnapshotId : option string;
  USnapshotName : option string
}.
Record SnapshotInfo : Type := {
  SFileSystemId : option string;
  SSnapshotName : option string;
  Status : option string
}.
End cfs.

Module mariadb.
Record AssociateSecurityGroupsRequest : Type := {
  InstanceIds : list string;
  SecurityGroupId : option string;
  Product : option string
}.
Record ModifyDBInstanceSecurityGroupsRequest : Type := {
  MInstanceId : option string;
  MSecurityGroupIds : list string;
  MProduct : option string
}.
Record SecurityGroup : Type := { GSecurityGroupId : option string }.
End mariadb.

Module tsf.
Record CreateConfigRequest : Type := {
  ConfigName : option string;
  ConfigVersion : option string;
  ConfigValue : option string;
  ApplicationId : option string;
  ConfigVersionDesc : option string;
  ConfigType : option string;
  EncodeWithBase64 : option bool;
  ProgramIdList : list string
}.
Record Config : Type := {
  CConfigId : option string;
  CConfigName : option string;
  CConfigVersion : option string;
  CConfigValue : option string;
  CApplicationId : option string;
  CConfigVersionDesc : option string;
  CConfigType : option string
}.
End tsf.

Module vpc.
Record AllocateAddressesRequest : Type := {
  AddressType : option string;
  AnycastZone : option string;
  InternetServiceProvider : option string;
  InternetChargeType : option string;
  AInternetMaxBandwidthOut : option Z;
  Tags : list (string * string);
  ABandwidthPackageId : option string
}.
Record Address : Type := {
  AddressName : option string;
  AAddressType : option string;
  AddressIp : option string;
  AddressStatus : option string;
  AInternetChargeType : option string
}.
Record BandwidthPackage : Type := { BandwidthPackageId : option string }.
Record InstanceChargePrepaid : Type := {
  Period : option Z;
  PRenewFlag : option string
}.
Record CreateVpnGatewayRequest : Type := {
  CVpnGatewayName : option string;
  CInternetMaxBandwidthOut : option Z;
  CZone : option string;
  CInstanceChargePrepaid : option InstanceChargePrepaid;
  CInstanceChargeType : option string;
  CType : option string;
  CVpcId : option string;
  CCdcId : option string;
  CMaxConnection : option Z
}.
Record VpnGateway : Type := {
  VpnGatewayId : option string;
  VpnGatewayName : option string;
  PublicIpAddress : option string;
  InternetMaxBandwidthOut : option Z;
  Type_ : option string;
  CreatedTime : option string;
  State : option string;
  RenewFlag : option string;
  InstanceChargeType : option string;
  ExpiredTime : option string;
  IsAddressBlocked : option bool;
  NewPurchasePlan : option string;
  RestrictState : option string;
  Zone : option string;
  CdcId : option string;
  MaxConnection : option Z;
  NetworkInstanceId : option string
}.
Record SetVpnGatewaysRenewFlagRequest : Type := {
  RVpnGatewayIds : list string;
  AutoRenewFlag : option Z
}.
Record ModifyVpnGatewayAttributeRequest : Type := {
  MVpnGatewayId : option string;
  MVpnGatewayName : option string;
  MInstanceChargeType : option string
}.
Record ResetVpnGatewayInternetMaxBandwidthRequest : Type := {
  BVpnGatewayId : option string;
  BInternetMaxBandwidthOut : option Z
}.
Record Filter : Type := { Name : option string; Values : list string }.
Record DescribeVpnConnectionsRequest : Type := {
  Filters : list Filter;
  Offset : option Z
}.
Record VpnConnection : Type := { VpnConnectionId : option string }.
End vpc.

Module dbbrain.
Record SecLogExportTaskInfo : Type := {
  AsyncRequestId : option Z;
  StartTime : option string;
  EndTime : option string;
  CreateTime : option string;
  TStatus : option string;
  Progress : option Z;
  LogStartTime : option string;
  LogEndTime : option string;
  TotalSize : option Z;
  DangerLevels : option (list Z)
}.
End dbbrain.

(** ** Vendor calls

    One name per SDK call or service-layer call a handler issues, with the
    type of what it is given and of what it answers next to the [error]. *)
Inductive api : Type :=
| CreateCfsSnapshot | CfsSnapshotStateRefresh | DescribeCfsSnapshotById
| UpdateCfsSnapshotAttribute | DeleteCfsSnapshotById
| ModifyTags | DescribeResourceTags
| AssociateSecurityGroups | DescribeMariadbSecurityGroup
| ModifyDBInstanceSecurityGroups | DeleteMariadbSecurityGroupsById
| CreateConfig | DescribeTsfApplicationConfigById | DeleteTsfApplicationConfigById
| AllocateAddresses | DescribeEipById | ModifyEipName | ModifyEipBandwidthOut
| DescribeVpcBandwidthPackageByEip | UnattachEip | DeleteEip
| CreateVpnGateway | DescribeVpnGateways | DescribeVpngwById
| SetVpnGatewaysRenewFlag | ModifyVpnGatewayAttribute
| ResetVpnGatewayInternetMaxBandwidth | DescribeVpnConnections | DeleteVpnGateway
| DescribeDbbrainSecurityAuditLogExportTasksByFilter | writeToFile.

#[global] Instance api_eq_dec : EqDecision api.
Proof. solve_decision. Defined.

Definition request (a : api) : Type :=
  match a with
  | CreateCfsSnapshot => cfs.CreateCfsSnapshotRequest
  | CfsSnapshotStateRefresh => string
  | DescribeCfsSnapshotById => string
  | UpdateCfsSnapshotAttribute => cfs.UpdateCfsSnapshotAttributeRequest
  | DeleteCfsSnapshotById => string
  | ModifyTags => string * gmap string string * list string
  | DescribeResourceTags => string * string * string * string
  | AssociateSecurityGroups => mariadb.AssociateSecurityGroupsRequest
  | DescribeMariadbSecurityGroup => string * string * string
  | ModifyDBInstanceSecurityGroups => mariadb.ModifyDBInstanceSecurityGroupsRequest
  | DeleteMariadbSecurityGroupsById => string * string * string
  | CreateConfig => tsf.CreateConfigRequest
  | DescribeTsfApplicationConfigById => string * string
  | DeleteTsfApplicationConfigById => string
  | AllocateAddresses => vpc.AllocateAddressesRequest
  | DescribeEipById => string
  | ModifyEipName => string * string
  | ModifyEipBandwidthOut => string * Z
  | DescribeVpcBandwidthPackageByEip => string
  | UnattachEip => string
  | DeleteEip => string
  | CreateVpnGateway => vpc.CreateVpnGatewayRequest
  | DescribeVpnGateways => list string
  | DescribeVpngwById => string
  | SetVpnGatewaysRenewFlag => vpc.SetVpnGatewaysRenewFlagRequest
  | ModifyVpnGatewayAttribute => vpc.ModifyVpnGatewayAttributeRequest
  | ResetVpnGatewayInternetMaxBandwidth => vpc.ResetVpnGatewayInternetMaxBandwidthRequest
  | DescribeVpnConnections => vpc.DescribeVpnConnectionsRequest
  | DeleteVpnGateway => string
  | DescribeDbbrainSecurityAuditLogExportTasksByFilter =>
      string * string * option (list Z)
  | writeToFile => string * list (gmap string Scalar)
  end.

Definition response (a : api) : Type :=
  match a with
  | CreateCfsSnapshot => option string
  | CfsSnapshotStateRefresh => option string
  | DescribeCfsSnapshotById => option cfs.SnapshotInfo
  | DescribeResourceTags => gmap string string
  | DescribeMariadbSecurityGroup => option mariadb.SecurityGroup
  | CreateConfig => option bool
  | DescribeTsfApplicationConfigById => option tsf.Config
  | AllocateAddresses => list (option string)
  | DescribeEipById => option vpc.Address
  | DescribeVpcBandwidthPackageByEip => option vpc.BandwidthPackage
  | CreateVpnGateway => option vpc.VpnGateway
  | DescribeVpnGateways => list vpc.VpnGateway
  | DescribeVpngwById => option vpc.VpnGateway
  | DescribeVpnConnections => list vpc.VpnConnection
  | DescribeDbbrainSecurityAuditLogExportTasksByFilter =>
      option (list dbbrain.SecLogExportTaskInfo)
  | _ => unit
  end.

(** What a handler leaves in the log: vendor calls with their replies, and
    the identifier writes. *)
Inductive Event : Type :=
| EvSetId (id : string)
| EvRead
| EvCall (a : api) (q : request a) (r : error + response a).

Definition called (a : api) (e : Event) : bool :=
  match e with
  | EvCall b _ _ => bool_decide (a = b)
  | _ => false
  end.

Definition succeeded (e : Event) : bool :=
  match e with
  | EvCall _ _ (inr _) => true
  | _ => false
  end.

Definition is_call (e : Event) : bool :=
  match e with EvCall _ _ _ => true | _ => false end.

(** ** The remote side and the provider's configuration *)

(** The vendor: the answer to every call in a given state of the remote
    world, and the wall clock ([time.Now], in seconds). *)
Record Vendor (W : Type) : Type := {
  serve : forall a : api, request a -> W -> (error + response a) * W;
  clock : W -> Z
}.
Arguments serve {W} _ a _ _.
Arguments clock {W} _ _.

(** Constants and helpers of the provider that the handlers use and that are
    not among the sources.  A timeout is the number of attempts that fit in
    it. *)
Record Env : Type := {
  readRetryTimeout : nat;
  writeRetryTimeout : nat;
  retryable : error -> list string -> bool;
  Region : string;
  BuildTagResourceName : string -> string -> string -> string -> string;
  time_Parse : string -> option Z;
  UInt64ToStr : Z -> string;
  DataResourceIdsHash : list string -> string;
  InternalError : string;
  VPCNotFound : string;
  EIP_STATUS_CREATING : string;
  VPC_SERVICE_TYPE : string;
  EIP_RESOURCE_TYPE : string
}.

(** Named in the schema descriptions of the VPN gateway. *)
Definition VPN_CHARGE_TYPE_PREPAID : string := "PREPAID".
Definition VPN_CHARGE_TYPE_POSTPAID_BY_HOUR : string := "POSTPAID_BY_HOUR".
Definition VPN_STATE_AVAILABLE : string := "AVAILABLE".
Definition GATE_WAY_TYPE_CCN : string := "CCN".

(** ** Handlers as computations *)

Record Run (W A : Type) : Type := mkRun {
  res : Result A;
  rd : ResourceData;
  world : W;
  trace : list Event
}.
Arguments mkRun {W A} _ _ _ _.
Arguments res {W A} _.
Arguments rd {W A} _.
Arguments world {W A} _.
Arguments trace {W A} _.

Definition M (W A : Type) : Type := ResourceData -> W -> Run W A.

Definition ret {W A} (a : A) : M W A := fun d w => mkRun (Ok a) d w [].
Definition fail {W A} (e : error) : M W A := fun d w => mkRun (Fail e) d w [].
Definition panic {W A} : M W A := fun d w => mkRun Panic d w [].

Definition bind {W A B} (m : M W A) (k : A -> M W B) : M W B := fun d w =>
  let r := m d w in
  match res r with
  | Ok a =>
      let r' := k a (rd r) (world r) in
      mkRun (res r') (rd r') (world r') (trace r ++ trace r')
  | Fail e => mkRun (Fail e) (rd r) (world r) (trace r)
  | Panic => mkRun Panic (rd r) (world r) (trace r)
  end.

Notation "x <- m ;; k" := (bind m (fun x => k))
  (at level 100, m at next level, right associativity).
Notation "m ;;; k" := (bind m (fun _ => k))
  (at level 100, right associativity).

Definition get_d {W} : M W ResourceData := fun d w => mkRun (Ok d) d w [].
Definition upd {W} (f : ResourceData -> ResourceData) : M W unit :=
  fun d w => mkRun (Ok tt) (f d) w [].
Definition emit {W} (e : Event) : M W unit := fun d w => mkRun (Ok tt) d w [e].

(** [d.SetId(v)], logged. *)
Definition setId {W} (v : string) : M W unit :=
  fun d w => mkRun (Ok tt) (SetId v d) w [EvSetId v].

(** [*p]. *)
Definition deref {W A} (p : option A) : M W A :=
  match p with Some a => ret a | None => panic end.

(** [fmt.Errorf]. *)
Definition Errorf (msg : string) : error := PlainError msg.

Definition when {W} (b : bool) (m : M W unit) : M W unit :=
  if b then m else ret tt.

(** What the function passed to [resource.Retry] returns: [nil] (with what it
    assigned to the variables it captured), a retryable error or a final
    one. *)
Inductive Attempt (A : Type) : Type :=
| Done (a : A)
| RetryableError (e : error)
| NonRetryableError (e : error).
Arguments Done {A} a.
Arguments RetryableError {A} e.
Arguments NonRetryableError {A} e.

(** [resource.Retry(timeout, f)]: call [f] until it returns nil or a final
    error; when the time is up, give back the last error. *)
Fixpoint Retry_loop {W A} (timeout : nat) (last : error) (f : M W (Attempt A)) : M W A :=
  match timeout with
  | O => fail last
  | S n =>
      r <- f ;;
      match r with
      | Done a => ret a
      | NonRetryableError e => fail e
      | RetryableError e => Retry_loop n e f
      end
  end.

Definition timeoutError : error := PlainError "timeout while waiting for state".

Definition Retry {W A} (timeout : nat) (f : M W (Attempt A)) : M W A :=
  Retry_loop timeout timeoutError f.

Section Handlers.
Context {W : Type} (V : Vendor W) (E : Env).

Local Abbreviation M := (M W).

(** A vendor call: the remote world moves, the call and its reply are
    logged. *)
Definition call (a : api) (q : request a) : M (error + response a) :=
  fun d w =>
    let '(r, w') := serve V a q w in
    mkRun (Ok r) d w' [EvCall a q r].

(** [x, err := call(...); if err != nil { return err }]. *)
Definition callE (a : api) (q : request a) : M (response a) :=
  r <- call a q ;;
  match r with inl e => fail e | inr x => ret x end.

Definition now : M Z := fun d w => mkRun (Ok (clock V w)) d w [].

(** [retryError(err, codes...)]. *)
Definition retryError {A} (e : error) (codes : list string) : Attempt A :=
  if retryable E e codes then RetryableError e else NonRetryableError e.

(** Modelled from the spec: [BuildStateChangeConf] and the refresh function
    it is given are helpers of this repository that are not among the
    sources; "poll status until it reaches an "available" terminal state or
    timeout".  An error of the refresh call ends the wait. *)
Definition WaitForState (timeout : nat) (target : list string)
           (refresh : M (error + option string)) : M unit :=
  Retry timeout
    (r <- refresh ;;
     match r with
     | inl e => ret (NonRetryableError e)
     | inr (Some st) =>
         if bool_decide (st ∈ target) then ret (Done tt)
         else ret (RetryableError timeoutError)
     | inr None => ret (RetryableError timeoutError)
     end).

(** *** tencentcloud_cfs_snapshot *)

Definition resourceTencentCloudCfsSnapshotRead : M unit :=
  emit EvRead ;;;
  d <- get_d ;;
  let snapshotId := Id d in
  r <- call DescribeCfsSnapshotById snapshotId ;;
  match r with
  | inl err => fail err
  | inr None => setId ""
  | inr (Some snapshot) =>
      when (bool_decide (cfs.SFileSystemId snapshot ≠ None))
           (upd (Set_ "file_system_id" (of_str (cfs.SFileSystemId snapshot)))) ;;;
      when (bool_decide (cfs.SSnapshotName snapshot ≠ None))
           (upd (Set_ "snapshot_name" (of_str (cfs.SSnapshotName snapshot)))) ;;;
      d <- get_d ;;
      tags <- callE DescribeResourceTags ("cfs", "snap", Region E, Id d) ;;
      upd (Set_ "tags" (VMap tags))
  end.

Definition resourceTencentCloudCfsSnapshotCreate : M unit :=
  d <- get_d ;;
  let request := {| cfs.FileSystemId := GetOkString d "file_system_id";
                    cfs.SnapshotName := GetOkString d "snapshot_name" |} in
  response <- Retry (writeRetryTimeout E)
    (r <- call CreateCfsSnapshot request ;;
     match r with
     | inl e => ret (retryError e [])
     | inr result => ret (Done result)
     end) ;;
  snapshotId <- deref response ;;
  setId snapshotId ;;;
  d <- get_d ;;
  WaitForState (2 * readRetryTimeout E) ["available"]
               (call CfsSnapshotStateRefresh (Id d)) ;;;
  d <- get_d ;;
  let tags := GetTags d "tags" in
  when (bool_decide (tags ≠ ∅))
       (let resourceName := "qcs::cfs:" +:+ Region E +:+ ":uin/:snap/" +:+ Id d in
        _ <- callE ModifyTags (resourceName, tags, []) ;; ret tt) ;;;
  resourceTencentCloudCfsSnapshotRead.

Definition resourceTencentCloudCfsSnapshotUpdate : M unit :=
  d <- get_d ;;
  let snapshotId := Id d in
  let needChange := HasChange d "snapshot_name" in
  let request :=
    {| cfs.USnapshotId := Some snapshotId;
       cfs.USnapshotName :=
         if HasChange d "snapshot_name" then GetOkString d "snapshot_name"
         else None |} in
  when needChange
       (Retry (writeRetryTimeout E)
          (r <- call UpdateCfsSnapshotAttribute request ;;
           match r with
           | inl e => ret (retryError e [])
           | inr _ => ret (Done tt)
           end)) ;;;
  when (HasChange d "tags")
       (let '(oldTags, newTags) := GetChange d "tags" in
        let '(replaceTags, deleteTags) := diffTags (as_map oldTags) (as_map newTags) in
        let resourceName := BuildTagResourceName E "cfs" "snap" (Region E) (Id d) in
        _ <- callE ModifyTags (resourceName, replaceTags, deleteTags) ;; ret tt) ;;;
  resourceTencentCloudCfsSnapshotRead.

Definition resourceTencentCloudCfsSnapshotDelete : M unit :=
  d <- get_d ;;
  let snapshotId := Id d in
  _ <- callE DeleteCfsSnapshotById snapshotId ;;
  Retry (2 * readRetryTimeout E)
    (r <- call DescribeCfsSnapshotById snapshotId ;;
     match r with
     | inl errRet => ret (retryError errRet [InternalError E])
     | inr None => ret (Done tt)
     | inr (Some instance) =>
         status <- deref (cfs.Status instance) ;;
         ret (RetryableError
                (Errorf ("cfs snapshot status is " +:+ status +:+ ", retry...")))
     end).

(** *** tencentcloud_mariadb_security_groups *)

Definition resourceTencentCloudMariadbSecurityGroupsRead : M unit :=
  emit EvRead ;;;
  d <- get_d ;;
  let idSplit := Split (Id d) FILED_SP_char in
  match idSplit with
  | [instanceId; securityGroupId; product] =>
      securityGroup <-
        callE DescribeMariadbSecurityGroup (instanceId, securityGroupId, product) ;;
      match securityGroup with
      | None =>
          setId "" ;;;
          fail (Errorf ("resource `securityGroups` " +:+ securityGroupId
                        +:+ " does not exist"))
      | Some _ =>
          upd (Set_ "instance_id" (VString instanceId)) ;;;
          upd (Set_ "security_group_id" (VString securityGroupId)) ;;;
          upd (Set_ "product" (VString product))
      end
  | _ => fail (Errorf ("id is broken," +:+ Id d))
  end.

Definition resourceTencentCloudMariadbSecurityGroupsCreate : M unit :=
  d <- get_d ;;
  let instanceId := default "" (GetOkString d "instance_id") in
  let securityGroupId := default "" (GetOkString d "security_group_id") in
  let product := default "" (GetOkString d "product") in
  let request :=
    {| mariadb.InstanceIds :=
         match GetOkString d "instance_id" with Some v => [v] | None => [] end;
       mariadb.SecurityGroupId := GetOkString d "security_group_id";
       mariadb.Product := GetOkString d "product" |} in
  Retry (writeRetryTimeout E)
    (r <- call AssociateSecurityGroups request ;;
     match r with
     | inl e => ret (retryError e [])
     | inr _ => ret (Done tt)
     end) ;;;
  setId (instanceId +:+ FILED_SP +:+ securityGroupId +:+ FILED_SP +:+ product) ;;;
  resourceTencentCloudMariadbSecurityGroupsRead.

Definition resourceTencentCloudMariadbSecurityGroupsUpdate : M unit :=
  d <- get_d ;;
  let idSplit := Split (Id d) FILED_SP_char in
  match idSplit with
  | [instanceId; securityGroupId; product] =>
      let request :=
        {| mariadb.MInstanceId := Some instanceId;
           mariadb.MSecurityGroupIds := [securityGroupId];
           mariadb.MProduct := Some product |} in
      if HasChange d "instance_id" then
        fail (Errorf "`instance_id` do not support change now.")
      else if HasChange d "security_group_id" then
        fail (Errorf "`security_group_id` do not support change now.")
      else if HasChange d "product" then
        fail (Errorf "`product` do not support change now.")
      else
        Retry (writeRetryTimeout E)
          (r <- call ModifyDBInstanceSecurityGroups request ;;
           match r with
           | inl e => ret (retryError e [])
           | inr _ => ret (Done tt)
           end) ;;;
        resourceTencentCloudMariadbSecurityGroupsRead
  | _ => fail (Errorf ("id is broken," +:+ Id d))
  end.

Definition resourceTencentCloudMariadbSecurityGroupsDelete : M unit :=
  d <- get_d ;;
  let idSplit := Split (Id d) FILED_SP_char in
  match idSplit with
  | [instanceId; securityGroupId; product] =>
      _ <- callE DeleteMariadbSecurityGroupsById (instanceId, securityGroupId, product) ;;
      ret tt
  | _ => fail (Errorf ("id is broken," +:+ Id d))
  end.

(** *** tencentcloud_tsf_application_config *)

Definition resourceTencentCloudTsfApplicationConfigRead : M unit :=
  emit EvRead ;;;
  d <- get_d ;;
  let configId := Id d in
  r <- callE DescribeTsfApplicationConfigById (configId, "") ;;
  match r with
  | None => setId ""
  | Some applicationConfig =>
      when (bool_decide (tsf.CConfigName applicationConfig ≠ None))
           (upd (Set_ "config_name" (of_str (tsf.CConfigName applicationConfig)))) ;;;
      when (bool_decide (tsf.CConfigVersion applicationConfig ≠ None))
           (upd (Set_ "config_version" (of_str (tsf.CConfigVersion applicationConfig)))) ;;;
      when (bool_decide (tsf.CConfigValue applicationConfig ≠ None))
           (upd (Set_ "config_value" (of_str (tsf.CConfigValue applicationConfig)))) ;;;
      when (bool_decide (tsf.CApplicationId applicationConfig ≠ None))
           (upd (Set_ "application_id" (of_str (tsf.CApplicationId applicationConfig)))) ;;;
      when (bool_decide (tsf.CConfigVersionDesc applicationConfig ≠ None))
           (upd (Set_ "config_version_desc"
                      (of_str (tsf.CConfigVersionDesc applicationConfig)))) ;;;
      when (bool_decide (tsf.CConfigType applicationConfig ≠ None))
           (upd (Set_ "config_type" (of_str (tsf.CConfigType applicationConfig))))
  end.

Definition resourceTencentCloudTsfApplicationConfigCreate : M unit :=
  d <- get_d ;;
  let configName := default "" (GetOkString d "config_name") in
  let request :=
    {| tsf.ConfigName := GetOkString d "config_name";
       tsf.ConfigVersion := GetOkString d "config_version";
       tsf.ConfigValue := GetOkString d "config_value";
       tsf.ApplicationId := GetOkString d "application_id";
       tsf.ConfigVersionDesc := GetOkString d "config_version_desc";
       tsf.ConfigType := GetOkString d "config_type";
       tsf.EncodeWithBase64 := Some (as_bool (Get d "encode_with_base64"));
       tsf.ProgramIdList :=
         match GetOk d "program_id_list" with
         | Some v => as_set (Some v)
         | None => []
         end |} in
  response <- Retry (writeRetryTimeout E)
    (r <- call CreateConfig request ;;
     match r with
     | inl e => ret (retryError e [])
     | inr result => ret (Done result)
     end) ;;
  result <- deref response ;;
  (if (result : bool) then
     r <- callE DescribeTsfApplicationConfigById ("", configName) ;;
     applicationConfig <- deref r ;;
     configId <- deref (tsf.CConfigId applicationConfig) ;;
     setId configId
   else
     fail (Errorf "api[CreateConfig] Creation failed, and the return result of interface creation is false")) ;;;
  resourceTencentCloudTsfApplicationConfigRead.

Definition tsf_immutableArgs : list string :=
  ["config_name"; "config_version"; "config_value"; "application_id";
   "config_version_desc"; "config_type"; "encode_with_base64"; "program_id_list"].

(** [for _, v := range args { if d.HasChange(v) { return fmt.Errorf(...) } }]. *)
Fixpoint check_immutable (msg : string -> string) (args : list string) : M unit :=
  match args with
  | [] => ret tt
  | v :: rest =>
      d <- get_d ;;
      if HasChange d v then fail (Errorf (msg v))
      else check_immutable msg rest
  end.

Definition resourceTencentCloudTsfApplicationConfigUpdate : M unit :=
  check_immutable (fun v => "argument `" +:+ v +:+ "` cannot be changed")
                  tsf_immutableArgs ;;;
  resourceTencentCloudTsfApplicationConfigRead.

Definition resourceTencentCloudTsfApplicationConfigDelete : M unit :=
  d <- get_d ;;
  let configId := Id d in
  _ <- callE DeleteTsfApplicationConfigById configId ;;
  ret tt.

(** *** tencentcloud_eip *)

Definition resourceTencentCloudEipRead : M unit :=
  emit EvRead ;;;
  d <- get_d ;;
  let eipId := Id d in
  eip <- Retry (readRetryTimeout E)
    (r <- call DescribeEipById eipId ;;
     match r with
     | inl errRet => ret (retryError errRet [])
     | inr instance => ret (Done instance)
     end) ;;
  match eip with
  | None => setId ""
  | Some eip =>
      tags <- callE DescribeResourceTags
                (VPC_SERVICE_TYPE E, EIP_RESOURCE_TYPE E, Region E, eipId) ;;
      bgp <- callE DescribeVpcBandwidthPackageByEip eipId ;;
      upd (Set_ "name" (of_str (vpc.AddressName eip))) ;;;
      upd (Set_ "type" (of_str (vpc.AAddressType eip))) ;;;
      upd (Set_ "public_ip" (of_str (vpc.AddressIp eip))) ;;;
      upd (Set_ "status" (of_str (vpc.AddressStatus eip))) ;;;
      upd (Set_ "internet_charge_type" (of_str (vpc.AInternetChargeType eip))) ;;;
      upd (Set_ "tags" (VMap tags)) ;;;
      match bgp with
      | Some bgp => upd (Set_ "bandwidth_package_id" (of_str (vpc.BandwidthPackageId bgp)))
      | None => ret tt
      end
  end.

Definition resourceTencentCloudEipCreate : M unit :=
  d <- get_d ;;
  let request :=
    {| vpc.AddressType := GetOkString d "type";
       vpc.AnycastZone := GetOkString d "anycast_zone";
       vpc.InternetServiceProvider := GetOkString d "internet_service_provider";
       vpc.InternetChargeType := GetOkString d "internet_charge_type";
       vpc.AInternetMaxBandwidthOut := GetOkInt d "internet_max_bandwidth_out";
       vpc.Tags := map_to_list (GetTags d "tags");
       vpc.ABandwidthPackageId := GetOkString d "bandwidth_package_id" |} in
  eipId <- Retry (writeRetryTimeout E)
    (r <- call AllocateAddresses request ;;
     match r with
     | inl err => ret (retryError err [])
     | inr [] => ret (RetryableError (Errorf "eip id is nil"))
     | inr (p :: _) => eipId <- deref p ;; ret (Done eipId)
     end) ;;
  setId eipId ;;;
  d <- get_d ;;
  let tags := GetTags d "tags" in
  when (bool_decide (tags ≠ ∅))
       (let resourceName :=
          BuildTagResourceName E (VPC_SERVICE_TYPE E) (EIP_RESOURCE_TYPE E) (Region E) eipId in
        _ <- callE ModifyTags (resourceName, tags, []) ;; ret tt) ;;;
  Retry (readRetryTimeout E)
    (r <- call DescribeEipById eipId ;;
     match r with
     | inl errRet => ret (retryError errRet [])
     | inr None => ret (Done tt)
     | inr (Some eip) =>
         status <- deref (vpc.AddressStatus eip) ;;
         if bool_decide (status = EIP_STATUS_CREATING E)
         then ret (RetryableError (Errorf "eip is still creating"))
         else ret (Done tt)
     end) ;;;
  d <- get_d ;;
  match GetOkString d "name" with
  | Some name =>
      Retry (writeRetryTimeout E)
        (r <- call ModifyEipName (eipId, name) ;;
         match r with
         | inl errRet => ret (retryError errRet [])
         | inr _ => ret (Done tt)
         end)
  | None => ret tt
  end ;;;
  resourceTencentCloudEipRead.

Definition resourceTencentCloudEipUpdate : M unit :=
  d <- get_d ;;
  let eipId := Id d in
  upd (Partial true) ;;;
  check_immutable
    (fun field => "tencentcloud_eip update on " +:+ field +:+ " is not support yet")
    ["bandwidth_package_id"] ;;;
  when (HasChange d "name")
       (let name := as_string (Get d "name") in
        _ <- callE ModifyEipName (eipId, name) ;;
        upd (SetPartial "name")) ;;;
  when (HasChange d "internet_max_bandwidth_out")
       (match GetOkInt d "internet_max_bandwidth_out" with
        | Some bandwidthOut =>
            _ <- callE ModifyEipBandwidthOut (eipId, bandwidthOut) ;;
            upd (SetPartial "internet_max_bandwidth_out")
        | None => ret tt
        end) ;;;
  when (HasChange d "tags")
       (let '(oldTags, newTags) := GetChange d "tags" in
        let '(replaceTags, deleteTags) := diffTags (as_map oldTags) (as_map newTags) in
        let resourceName :=
          BuildTagResourceName E (VPC_SERVICE_TYPE E) (EIP_RESOURCE_TYPE E) (Region E) eipId in
        _ <- callE ModifyTags (resourceName, replaceTags, deleteTags) ;;
        upd (SetPartial "tags")) ;;;
  upd (Partial false) ;;;
  resourceTencentCloudEipRead.

Definition resourceTencentCloudEipDelete : M unit :=
  d <- get_d ;;
  let eipId := Id d in
  Retry (writeRetryTimeout E)
    (r <- call UnattachEip eipId ;;
     match r with
     | inl errRet => ret (retryError errRet ["DesOperation.MutexTaskRunning"])
     | inr _ => ret (Done tt)
     end) ;;;
  Retry (writeRetryTimeout E)
    (r <- call DeleteEip eipId ;;
     match r with
     | inl errRet => ret (retryError errRet ["DesOperation.MutexTaskRunning"])
     | inr _ => ret (Done tt)
     end) ;;;
  Retry (readRetryTimeout E)
    (r <- call DescribeEipById eipId ;;
     match r with
     | inl errRet => ret (retryError errRet [])
     | inr (Some _) => ret (RetryableError (Errorf "eip is still deleting"))
     | inr None => ret (Done tt)
     end).

(** *** tencentcloud_vpn_gateway *)

Definition resourceTencentCloudVpnGatewayRead : M unit :=
  emit EvRead ;;;
  d <- get_d ;;
  let gatewayId := Id d in
  r <- callE DescribeVpngwById gatewayId ;;
  match r with
  | None => setId ""
  | Some gateway =>
      upd (Set_ "name" (of_str (vpc.VpnGatewayName gateway))) ;;;
      upd (Set_ "public_ip_address" (of_str (vpc.PublicIpAddress gateway))) ;;;
      bandwidth <- deref (vpc.InternetMaxBandwidthOut gateway) ;;
      upd (Set_ "bandwidth" (VInt bandwidth)) ;;;
      upd (Set_ "type" (of_str (vpc.Type_ gateway))) ;;;
      upd (Set_ "create_time" (of_str (vpc.CreatedTime gateway))) ;;;
      upd (Set_ "state" (of_str (vpc.State gateway))) ;;;
      upd (Set_ "prepaid_renew_flag" (of_str (vpc.RenewFlag gateway))) ;;;
      upd (Set_ "charge_type" (of_str (vpc.InstanceChargeType gateway))) ;;;
      upd (Set_ "expired_time" (of_str (vpc.ExpiredTime gateway))) ;;;
      upd (Set_ "is_address_blocked" (of_bool (vpc.IsAddressBlocked gateway))) ;;;
      upd (Set_ "new_purchase_plan" (of_str (vpc.NewPurchasePlan gateway))) ;;;
      upd (Set_ "restrict_state" (of_str (vpc.RestrictState gateway))) ;;;
      upd (Set_ "zone" (of_str (vpc.Zone gateway))) ;;;
      upd (Set_ "cdc_id" (of_str (vpc.CdcId gateway))) ;;;
      upd (Set_ "max_connection" (of_int (vpc.MaxConnection gateway))) ;;;
      tags <- callE DescribeResourceTags ("vpc", "vpngw", Region E, gatewayId) ;;
      upd (Set_ "tags" (VMap tags))
  end.

(** The request of Create, or the error of its checks on [type] and
    [vpc_id]. *)
Definition vpnGatewayCreateRequest (d : ResourceData)
  : error + vpc.CreateVpnGatewayRequest :=
  let chargeType := as_string (Get d "charge_type") in
  let preChargePara :=
    if bool_decide (chargeType = VPN_CHARGE_TYPE_PREPAID) then
      Some {| vpc.Period := Some (as_int (Get d "prepaid_period"));
              vpc.PRenewFlag := Some (as_string (Get d "prepaid_renew_flag")) |}
    else None in
  let mk (ty vpcId : option string) :=
    {| vpc.CVpnGatewayName := Some (as_string (Get d "name"));
       vpc.CInternetMaxBandwidthOut := Some (as_int (Get d "bandwidth"));
       vpc.CZone := Some (as_string (Get d "zone"));
       vpc.CInstanceChargePrepaid := preChargePara;
       vpc.CInstanceChargeType := Some chargeType;
       vpc.CType := ty;
       vpc.CVpcId := vpcId;
       vpc.CCdcId := GetOkString d "cdc_id";
       vpc.CMaxConnection := GetOkInt d "max_connection" |} in
  match GetOkString d "type" with
  | Some v =>
      if bool_decide (v ≠ "CCN") then
        match GetOk d "vpc_id" with
        | None => inl (Errorf ("[CRITAL] vpc_id is required for vpn gateway in "
                               +:+ v +:+ " type"))
        | Some _ => inr (mk (Some v) (Some (as_string (Get d "vpc_id"))))
        end
      else
        match GetOk d "vpc_id" with
        | Some _ => inl (Errorf "[CRITAL] vpc_id doesn't make sense when vpn gateway is in CCN type")
        | None => inr (mk (Some v) (Some ""))
        end
  | None =>
      match GetOk d "vpc_id" with
      | None => inl (Errorf "[CRITAL] vpc_id is required for vpn gateway in  type")
      | Some _ => inr (mk None (Some (as_string (Get d "vpc_id"))))
      end
  end.

Definition resourceTencentCloudVpnGatewayCreate : M unit :=
  d <- get_d ;;
  match vpnGatewayCreateRequest d with
  | inl err => fail err
  | inr request =>
      response <- Retry (readRetryTimeout E)
        (r <- call CreateVpnGateway request ;;
         match r with
         | inl e => ret (retryError e [])
         | inr result => ret (Done result)
         end) ;;
      match response with
      | None => fail (Errorf "VPN gateway id is nil")
      | Some gateway =>
          gatewayId <- deref (vpc.VpnGatewayId gateway) ;;
          setId gatewayId ;;;
          Retry (2 * readRetryTimeout E)
            (r <- call DescribeVpnGateways [gatewayId] ;;
             match r with
             | inl e => ret (retryError e [])
             | inr [g] =>
                 state <- deref (vpc.State g) ;;
                 if bool_decide (state = VPN_STATE_AVAILABLE) then ret (Done tt)
                 else ret (RetryableError
                             (Errorf ("State is not available: " +:+ state
                                      +:+ ", wait for state to be AVAILABLE.")))
             | inr _ => ret (NonRetryableError (Errorf "creating error"))
             end) ;;;
          d <- get_d ;;
          let tags := GetTags d "tags" in
          when (bool_decide (tags ≠ ∅))
               (let resourceName :=
                  BuildTagResourceName E "vpc" "vpngw" (Region E) gatewayId in
                _ <- callE ModifyTags (resourceName, tags, []) ;; ret tt) ;;;
          resourceTencentCloudVpnGatewayRead
      end
  end.

Definition resourceTencentCloudVpnGatewayUpdate : M unit :=
  d <- get_d ;;
  upd (Partial true) ;;;
  let gatewayId := Id d in
  check_immutable
    (fun field => "Template resource_tc_vpn_gateway update on " +:+ field
                  +:+ " is not supportted yet. Please renew it on controller web page.")
    ["prepaid_period"; "type"] ;;;
  when (HasChange d "prepaid_renew_flag")
       (let chargeType := as_string (Get d "charge_type") in
        let renewFlag := as_string (Get d "prepaid_renew_flag") in
        if bool_decide (chargeType ≠ VPN_CHARGE_TYPE_PREPAID) then
          fail (Errorf "Invalid renew flag change. Only support pre-paid vpn.")
        else
          let request :=
            {| vpc.RVpnGatewayIds := [gatewayId];
               vpc.AutoRenewFlag :=
                 if bool_decide (renewFlag = "NOTIFY_AND_AUTO_RENEW")
                 then Some 1 else Some 0 |} in
          Retry (readRetryTimeout E)
            (r <- call SetVpnGatewaysRenewFlag request ;;
             match r with
             | inl e => ret (retryError e [])
             | inr _ => ret (Done tt)
             end)) ;;;
  when (HasChange d "name" || HasChange d "charge_type")
       (let '(oldInterface, newInterface) := GetChange d "charge_type" in
        let oldChargeType := as_string oldInterface in
        let newChargeType := as_string newInterface in
        let toPostpaid :=
          bool_decide (oldChargeType = VPN_CHARGE_TYPE_PREPAID)
          && bool_decide (newChargeType = VPN_CHARGE_TYPE_POSTPAID_BY_HOUR) in
        let toPrepaid :=
          bool_decide (oldChargeType = VPN_CHARGE_TYPE_POSTPAID_BY_HOUR)
          && bool_decide (newChargeType = VPN_CHARGE_TYPE_PREPAID) in
        let request :=
          {| vpc.MVpnGatewayId := Some gatewayId;
             vpc.MVpnGatewayName := Some (as_string (Get d "name"));
             vpc.MInstanceChargeType :=
               if toPostpaid then Some newChargeType else None |} in
        if negb toPostpaid && toPrepaid then
          fail (Errorf "Invalid charge type change. Only support pre-paid to post-paid way.")
        else
          Retry (readRetryTimeout E)
            (r <- call ModifyVpnGatewayAttribute request ;;
             match r with
             | inl e => ret (retryError e [])
             | inr _ => ret (Done tt)
             end) ;;;
          when (HasChange d "name") (upd (SetPartial "name")) ;;;
          when (HasChange d "charge_type") (upd (SetPartial "charge_type"))) ;;;
  when (HasChange d "bandwidth")
       (let request :=
          {| vpc.BVpnGatewayId := Some gatewayId;
             vpc.BInternetMaxBandwidthOut := Some (as_int (Get d "bandwidth")) |} in
        Retry (readRetryTimeout E)
          (r <- call ResetVpnGatewayInternetMaxBandwidth request ;;
           match r with
           | inl e => ret (retryError e [])
           | inr _ => ret (Done tt)
           end) ;;;
        upd (SetPartial "bandwidth")) ;;;
  when (HasChange d "tags")
       (let '(oldInterface, newInterface) := GetChange d "tags" in
        let '(replaceTags, deleteTags) :=
          diffTags (as_map oldInterface) (as_map newInterface) in
        let resourceName := BuildTagResourceName E "vpc" "vpngw" (Region E) gatewayId in
        _ <- callE ModifyTags (resourceName, replaceTags, deleteTags) ;;
        upd (SetPartial "tags")) ;;;
  (if HasChange d "cdc_id" || HasChange d "max_connection" then
     fail (Errorf "cdc_id and max_connection do not support change now.")
   else ret tt) ;;;
  upd (Partial false) ;;;
  resourceTencentCloudVpnGatewayRead.

(** The second half of the first check of Delete: a CCN gateway attached to
    a network instance is not deleted. *)
Definition vpnDeleteCcnCheck (g : vpc.VpnGateway) : M (Attempt unit) :=
  ty <- deref (vpc.Type_ g) ;;
  if bool_decide (ty = GATE_WAY_TYPE_CCN) then
    nid <- deref (vpc.NetworkInstanceId g) ;;
    if bool_decide (nid ≠ "") then
      ret (NonRetryableError
             (Errorf "Delete operation is unsupported when VPN gateway is attached to CCN instance."))
    else ret (Done tt)
  else ret (Done tt).

Definition vpnDeleteGatewayCheck (g : vpc.VpnGateway) : M (Attempt unit) :=
  match vpc.ExpiredTime g with
  | Some expiredTime =>
      chargeType <- deref (vpc.InstanceChargeType g) ;;
      if bool_decide (chargeType = VPN_CHARGE_TYPE_PREPAID) then
        if bool_decide (expiredTime ≠ "0000-00-00 00:00:00") then
          match time_Parse E expiredTime with
          | None =>
              ret (NonRetryableError (Errorf ("Error format expired time." +:+ expiredTime)))
          | Some t =>
              n <- now ;;
              if bool_decide (0 < t - n) then
                ret (NonRetryableError
                       (Errorf "Delete operation is unsupport when VPN gateway is not expired."))
              else vpnDeleteCcnCheck g
          end
        else vpnDeleteCcnCheck g
      else vpnDeleteCcnCheck g
  | None => vpnDeleteCcnCheck g
  end.

(** The function retried first: describe the gateway and check it. *)
Definition vpnDeleteFirstCheck (gatewayId : string) : M (Attempt unit) :=
  r <- call DescribeVpnGateways [gatewayId] ;;
  match r with
  | inl e => ret (retryError e [])
  | inr [] => ret (Done tt)
  | inr (g :: _) => vpnDeleteGatewayCheck g
  end.

(** The function retried second: no tunnel may be left. *)
Definition vpnDeleteTunnelCheck (tRequest : vpc.DescribeVpnConnectionsRequest)
  : M (Attempt unit) :=
  r <- call DescribeVpnConnections tRequest ;;
  match r with
  | inl e => ret (retryError e [])
  | inr [] => ret (Done tt)
  | inr (_ :: _) =>
      ret (NonRetryableError
             (Errorf "There is associated tunnel exists, please delete associated tunnels first."))
  end.

Definition resourceTencentCloudVpnGatewayDelete : M unit :=
  d <- get_d ;;
  let gatewayId := Id d in
  Retry (readRetryTimeout E) (vpnDeleteFirstCheck gatewayId) ;;;
  let params :=
    {| vpc.Name := Some "vpn-gateway-id"; vpc.Values := [gatewayId] |}
    :: match GetOkString d "vpc_id" with
       | Some v => [{| vpc.Name := Some "vpc-id"; vpc.Values := [v] |}]
       | None => []
       end in
  let tRequest := {| vpc.Filters := params; vpc.Offset := Some 0 |} in
  Retry (readRetryTimeout E) (vpnDeleteTunnelCheck tRequest) ;;;
  Retry (writeRetryTimeout E)
    (r <- call DeleteVpnGateway gatewayId ;;
     match r with
     | inl e => ret (retryError e [])
     | inr _ => ret (Done tt)
     end) ;;;
  Retry (readRetryTimeout E)
    (r <- call DescribeVpnGateways [gatewayId] ;;
     match r with
     | inl (SDKError code msg) =>
         if bool_decide (code = VPCNotFound E) then ret (Done tt)
         else ret (retryError (SDKError code msg) [])
     | inl e => ret (retryError e [])
     | inr [] => ret (Done tt)
     | inr (_ :: _) => ret (RetryableError (Errorf "deleting retry"))
     end).

(** *** data source tencentcloud_dbbrain_security_audit_log_export_tasks *)

Definition put_str (key : string) (p : option string) (m : gmap string Scalar)
  : gmap string Scalar :=
  match p with Some s => <[key := SString s]> m | None => m end.
Definition put_int (key : string) (p : option Z) (m : gmap string Scalar)
  : gmap string Scalar :=
  match p with Some n => <[key := SInt n]> m | None => m end.
Definition put_ints (key : string) (p : option (list Z)) (m : gmap string Scalar)
  : gmap string Scalar :=
  match p with Some l => <[key := SInts l]> m | None => m end.

(** The guarded part of the loop body: one [if task.X != nil] per field. *)
Definition taskMap_of (task : dbbrain.SecLogExportTaskInfo) : gmap string Scalar :=
  put_ints "danger_levels" (dbbrain.DangerLevels task)
  (put_int "total_size" (dbbrain.TotalSize task)
  (put_str "log_end_time" (dbbrain.LogEndTime task)
  (put_str "log_start_time" (dbbrain.LogStartTime task)
  (put_int "progress" (dbbrain.Progress task)
  (put_str "status" (dbbrain.TStatus task)
  (put_str "create_time" (dbbrain.CreateTime task)
  (put_str "end_time" (dbbrain.EndTime task)
  (put_str "start_time" (dbbrain.StartTime task)
  (put_int "async_request_id" (dbbrain.AsyncRequestId task) ∅))))))))).

(** [for _, task := range tasks { ... }]. *)
Fixpoint collectTasks (sag_id : string) (tasks : list dbbrain.SecLogExportTaskInfo)
         (ids : list string) (taskList : list (gmap string Scalar))
  : M (list string * list (gmap string Scalar)) :=
  match tasks with
  | [] => ret (ids, taskList)
  | task :: rest =>
      let taskMap := taskMap_of task in
      asyncRequestId <- deref (dbbrain.AsyncRequestId task) ;;
      collectTasks sag_id rest
        (ids ++ [sag_id +:+ FILED_SP +:+ UInt64ToStr E asyncRequestId])
        (taskList ++ [taskMap])
  end.

(** The filter of the query, from the configuration. *)
Definition dbbrainParamMap (d : ResourceData)
  : request DescribeDbbrainSecurityAuditLogExportTasksByFilter :=
  (default "" (GetOkString d "sec_audit_group_id"),
   default "" (GetOkString d "product"),
   match GetOk d "async_request_ids" with
   | Some v => Some (as_ints (Some v))
   | None => None
   end).

Definition dataSourceTencentCloudDbbrainSecurityAuditLogExportTasksRead : M unit :=
  d <- get_d ;;
  let sag_id := default "" (GetOkString d "sec_audit_group_id") in
  let paramMap := dbbrainParamMap d in
  tasks <- Retry (readRetryTimeout E)
    (r <- call DescribeDbbrainSecurityAuditLogExportTasksByFilter paramMap ;;
     match r with
     | inl e => ret (retryError e [])
     | inr results => ret (Done results)
     end) ;;
  taskList <-
    match tasks with
    | Some tasks =>
        collected <- collectTasks sag_id tasks [] [] ;;
        let '(ids, taskList) := collected in
        setId (DataResourceIdsHash E ids) ;;;
        upd (Set_ "list" (VList taskList)) ;;;
        ret taskList
    | None => ret []
    end ;;
  d <- get_d ;;
  match GetOkString d "result_output_file" with
  | Some output => _ <- callE writeToFile (output, taskList) ;; ret tt
  | None => ret tt
  end.

(** *** The five resources *)

Inductive resource : Type :=
| CfsSnapshot | MariadbSecurityGroups | TsfApplicationConfig | Eip | VpnGateway.

#[global] Instance resource_eq_dec : EqDecision resource.
Proof. solve_decision. Defined.

Definition Create (r : resource) : M unit :=
  match r with
  | CfsSnapshot => resourceTencentCloudCfsSnapshotCreate
  | MariadbSecurityGroups => resourceTencentCloudMariadbSecurityGroupsCreate
  | TsfApplicationConfig => resourceTencentCloudTsfApplicationConfigCreate
  | Eip => resourceTencentCloudEipCreate
  | VpnGateway => resourceTencentCloudVpnGatewayCreate
  end.

Definition Read (r : resource) : M unit :=
  match r with
  | CfsSnapshot => resourceTencentCloudCfsSnapshotRead
  | MariadbSecurityGroups => resourceTencentCloudMariadbSecurityGroupsRead
  | TsfApplicationConfig => resourceTencentCloudTsfApplicationConfigRead
  | Eip => resourceTencentCloudEipRead
  | VpnGateway => resourceTencentCloudVpnGatewayRead
  end.

Definition Update (r : resource) : M unit :=
  match r with
  | CfsSnapshot => resourceTencentCloudCfsSnapshotUpdate
  | MariadbSecurityGroups => resourceTencentCloudMariadbSecurityGroupsUpdate
  | TsfApplicationConfig => resourceTencentCloudTsfApplicationConfigUpdate
  | Eip => resourceTencentCloudEipUpdate
  | VpnGateway => resourceTencentCloudVpnGatewayUpdate
  end.

Definition Delete (r : resource) : M unit :=
  match r with
  | CfsSnapshot => resourceTencentCloudCfsSnapshotDelete
  | MariadbSecurityGroups => resourceTencentCloudMariadbSecurityGroupsDelete
  | TsfApplicationConfig => resourceTencentCloudTsfApplicationConfigDelete
  | Eip => resourceTencentCloudEipDelete
  | VpnGateway => resourceTencentCloudVpnGatewayDelete
  end.

End Handlers.

(** The attributes each schema declares. *)
Definition schema (r : resource) : list string :=
  match r with
  | CfsSnapshot => ["file_system_id"; "snapshot_name"; "tags"]
  | MariadbSecurityGroups => ["instance_id"; "security_group_id"; "product"]
  | TsfApplicationConfig =>
      ["config_name"; "config_version"; "config_value"; "application_id";
       "config_version_desc"; "config_type"; "encode_with_base64"; "program_id_list"]
  | Eip =>
      ["name"; "type"; "anycast_zone"; "applicable_for_clb";
       "internet_service_provider"; "internet_charge_type";
       "internet_max_bandwidth_out"; "tags"; "bandwidth_package_id";
       "public_ip"; "status"]
  | VpnGateway =>
      ["name"; "vpc_id"; "bandwidth"; "public_ip_address"; "type"; "state";
       "prepaid_renew_flag"; "prepaid_period"; "charge_type"; "cdc_id";
       "max_connection"; "expired_time"; "is_address_blocked";
       "new_purchase_plan"; "restrict_state"; "zone"; "tags"; "create_time"]
  end.

(** ** A concrete remote side

    A small vendor to run the handlers on: the world is a counter of the
    calls served so far; every call succeeds, a describe call finds an object
    with every field present, a create call hands out the identifier
    [res-1]. *)
Module Demo.

Definition snapshot : cfs.SnapshotInfo :=
  {| cfs.SFileSystemId := Some "cfs-iobiaxtj";
     cfs.SSnapshotName := Some "test";
     cfs.Status := Some "available" |}.

Definition config : tsf.Config :=
  {| tsf.CConfigId := Some "res-1";
     tsf.CConfigName := Some "test-2";
     tsf.CConfigVersion := Some "1.0";
     tsf.CConfigValue := Some "name: name";
     tsf.CApplicationId := Some "application-ym9mxmza";
     tsf.CConfigVersionDesc := Some "test2";
     tsf.CConfigType := Some "yaml" |}.

Definition address : vpc.Address :=
  {| vpc.AddressName := Some "awesome_gateway_ip";
     vpc.AAddressType := Some "EIP";
     vpc.AddressIp := Some "1.2.3.4";
     vpc.AddressStatus := Some "UNBIND";
     vpc.AInternetChargeType := Some "BANDWIDTH_PACKAGE" |}.

Definition gateway : vpc.VpnGateway :=
  {| vpc.VpnGatewayId := Some "res-1";
     vpc.VpnGatewayName := Some "test";
     vpc.PublicIpAddress := Some "1.2.3.4";
     vpc.InternetMaxBandwidthOut := Some 5;
     vpc.Type_ := Some "IPSEC";
     vpc.CreatedTime := Some "2020-01-01 00:00:00";
     vpc.State := Some "AVAILABLE";
     vpc.RenewFlag := Some "NOTIFY_AND_AUTO_RENEW";
     vpc.InstanceChargeType := Some "POSTPAID_BY_HOUR";
     vpc.ExpiredTime := None;
     vpc.IsAddressBlocked := Some false;
     vpc.NewPurchasePlan := Some "";
     vpc.RestrictState := Some "NORMAL";
     vpc.Zone := Some "ap-guangzhou-3";
     vpc.CdcId := Some "";
     vpc.MaxConnection := Some 0;
     vpc.NetworkInstanceId := Some "" |}.

Definition task : dbbrain.SecLogExportTaskInfo :=
  {| dbbrain.AsyncRequestId := Some 7;
     dbbrain.StartTime := Some "s"; dbbrain.EndTime := Some "e";
     dbbrain.CreateTime := Some "c"; dbbrain.TStatus := Some "ok";
     dbbrain.Progress := Some 100; dbbrain.LogStartTime := Some "ls";
     dbbrain.LogEndTime := Some "le"; dbbrain.TotalSize := Some 1;
     dbbrain.DangerLevels := Some [0; 1] |}.

Definition found (a : api) : response a :=
  match a with
  | CreateCfsSnapshot => Some "res-1"
  | CfsSnapshotStateRefresh => Some "available"
  | DescribeCfsSnapshotById => Some snapshot
  | DescribeResourceTags => {[ "createdBy" := "terraform" ]}
  | DescribeMariadbSecurityGroup =>
      Some {| mariadb.GSecurityGroupId := Some "sg-7kpsbxdb" |}
  | CreateConfig => Some true
  | DescribeTsfApplicationConfigById => Some config
  | AllocateAddresses => [Some "res-1"]
  | DescribeEipById => Some address
  | DescribeVpcBandwidthPackageByEip =>
      Some {| vpc.BandwidthPackageId := Some "bwp-jtvzuky6" |}
  | CreateVpnGateway => Some gateway
  | DescribeVpnGateways => [gateway]
  | DescribeVpngwById => Some gateway
  | DescribeVpnConnections => []
  | DescribeDbbrainSecurityAuditLogExportTasksByFilter => Some [task]
  | _ => tt
  end.

(** What a describe call answers once the object is gone. *)
Definition gone (a : api) : response a :=
  match a with
  | CfsSnapshotStateRefresh => None
  | DescribeCfsSnapshotById => None
  | DescribeMariadbSecurityGroup => None
  | DescribeTsfApplicationConfigById => None
  | DescribeEipById => None
  | DescribeVpnGateways => []
  | DescribeVpngwById => None
  | a => found a
  end.

(** A vendor that answers the [n]-th call as the script says. *)
Definition scripted (script : nat -> forall a : api, error + response a) : Vendor nat :=
  {| serve := fun a _ w => (script w a, S w);
     clock := fun w => Z.of_nat w |}.

Definition vendor : Vendor nat := scripted (fun _ a => inr (found a)).

Definition vendor_gone : Vendor nat := scripted (fun _ a => inr (gone a)).

(** Every call succeeds, but a deleted object stays visible. *)
Definition vendor_lagging : Vendor nat := vendor.

Definition with_gateway (g : vpc.VpnGateway) (a : api) : error + response a :=
  match a with
  | DescribeVpnGateways => inr [g]
  | a => inr (found a)
  end.

(** A prepaid gateway that expires in 2030. *)
Definition gateway_prepaid : vpc.VpnGateway :=
  {| vpc.VpnGatewayId := Some "vpngw-8ccsnclt";
     vpc.VpnGatewayName := Some "test";
     vpc.PublicIpAddress := Some "1.2.3.4";
     vpc.InternetMaxBandwidthOut := Some 5;
     vpc.Type_ := Some "IPSEC";
     vpc.CreatedTime := Some "2020-01-01 00:00:00";
     vpc.State := Some "AVAILABLE";
     vpc.RenewFlag := Some "NOTIFY_AND_AUTO_RENEW";
     vpc.InstanceChargeType := Some "PREPAID";
     vpc.ExpiredTime := Some "2030-01-01 00:00:00";
     vpc.IsAddressBlocked := Some false;
     vpc.NewPurchasePlan := Some "";
     vpc.RestrictState := Some "NORMAL";
     vpc.Zone := Some "ap-guangzhou-3";
     vpc.CdcId := Some "";
     vpc.MaxConnection := Some 0;
     vpc.NetworkInstanceId := Some "" |}.

(** A CCN gateway attached to a network instance. *)
Definition gateway_ccn : vpc.VpnGateway :=
  {| vpc.VpnGatewayId := Some "vpngw-8ccsnclt";
     vpc.VpnGatewayName := Some "test";
     vpc.PublicIpAddress := Some "1.2.3.4";
     vpc.InternetMaxBandwidthOut := Some 5;
     vpc.Type_ := Some "CCN";
     vpc.CreatedTime := Some "2020-01-01 00:00:00";
     vpc.State := Some "AVAILABLE";
     vpc.RenewFlag := Some "NOTIFY_AND_AUTO_RENEW";
     vpc.InstanceChargeType := Some "POSTPAID_BY_HOUR";
     vpc.ExpiredTime := None;
     vpc.IsAddressBlocked := Some false;
     vpc.NewPurchasePlan := Some "";
     vpc.RestrictState := Some "NORMAL";
     vpc.Zone := Some "ap-guangzhou-3";
     vpc.CdcId := Some "";
     vpc.MaxConnection := Some 0;
     vpc.NetworkInstanceId := Some "ccn-afp6kltc" |}.

Definition vendor_prepaid : Vendor nat := scripted (fun _ => with_gateway gateway_prepaid).

Definition vendor_ccn : Vendor nat := scripted (fun _ => with_gateway gateway_ccn).

(** A tunnel is still associated with the gateway. *)
Definition vendor_tunnel : Vendor nat :=
  scripted (fun _ a =>
    match a with
    | DescribeVpnConnections => inr [{| vpc.VpnConnectionId := Some "vpnx-1" |}]
    | a => inr (found a)
    end).

(** Every call succeeds except the tag assignment. *)
Definition vendor_tags_fail : Vendor nat :=
  scripted (fun _ a =>
    match a with
    | ModifyTags => inl (SDKError "InternalError" "tag service is down")
    | a => inr (found a)
    end).

Definition env : Env :=
  {| readRetryTimeout := 3;
     writeRetryTimeout := 3;
     retryable := fun _ _ => false;
     Region := "ap-guangzhou";
     BuildTagResourceName := fun s t region id =>
       "qcs::" +:+ s +:+ ":" +:+ region +:+ ":uin/:" +:+ t +:+ "/" +:+ id;
     time_Parse := fun _ => Some 1000;
     UInt64ToStr := fun n => if bool_decide (n = 7) then "7" else "0";
     DataResourceIdsHash := fun ids => String.concat "," ids;
     InternalError := "InternalError";
     VPCNotFound := "ResourceNotFound";
     EIP_STATUS_CREATING := "CREATING";
     VPC_SERVICE_TYPE := "vpc";
     EIP_RESOURCE_TYPE := "eip" |}.

(** A resource the engine is about to create or has imported: only the
    identifier and the planned values are there. *)
Definition planned (id : string) (plan : gmap string Value) : ResourceData :=
  mkRD id ∅ plan ∅ false [].

(** A resource in the state, with a planned change. *)
Definition changing (id : string) (state plan : gmap string Value) : ResourceData :=
  mkRD id state plan ∅ false [].

End Demo.

(** * Properties of runs *)

Section Properties.
Context {W : Type}.
Implicit Types (d : ResourceData) (w : W) (t : list Event).

Local Abbreviation M := (M W).

(** The run of [k] that follows a run of [m] that returned [a]. *)
Definition after {A B} (r : Run W A) (a : A) (k : A -> M B) : Run W B :=
  k a (rd r) (world r).

(** Every event a computation logs satisfies [P]. *)
Definition emits {A} (P : Event -> Prop) (m : M A) : Prop :=
  forall d w, Forall P (trace (m d w)).

(** A computation keeps the property [I] of the resource data. *)
Definition keeps {A} (I : ResourceData -> Prop) (m : M A) : Prop :=
  forall d w, I d -> I (rd (m d w)).

(** [attempts f d w t d' w']: from [d], [w], a number of calls of [f] that
    each asked for a retry logged [t] and led to [d'], [w']. *)
Inductive attempts {A} (f : M (Attempt A))
  : ResourceData -> W -> list Event -> ResourceData -> W -> Prop :=
| attempts_none d w : attempts f d w [] d w
| attempts_again d w e t d' w' :
    res (f d w) = Ok (RetryableError e) ->
    attempts f (rd (f d w)) (world (f d w)) t d' w' ->
    attempts f d w (trace (f d w) ++ t) d' w'.

(** How the last call of [f] in a retry loop decides the loop's result. *)
Definition concludes {A} (r : Result (Attempt A)) : Result A :=
  match r with
  | Ok (Done a) => Ok a
  | Ok (NonRetryableError e) => Fail e
  | Ok (RetryableError e) => Fail e
  | Fail e => Fail e
  | Panic => Panic
  end.

(** [wp m d w Q]: the run of [m] from [d] and [w] satisfies [Q]. *)
Definition wp {A} (m : M A) d w (Q : Run W A -> Prop) : Prop := Q (m d w).

(** The run of a sequence, from the run [r1] of its first part and the run
    [r2] of the rest. *)
Definition seq_run {A B} (r1 : Run W A) (r2 : Run W B) : Run W B :=
  mkRun (res r2) (rd r2) (world r2) (trace r1 ++ trace r2).

Definition stopped {A B} (r1 : Run W A) (x : Result B) : Run W B :=
  mkRun x (rd r1) (world r1) (trace r1).

End Properties.

(** * What the specification says, as properties of runs *)

(** The vendor calls in a log. *)
Definition calls (t : list Event) : list Event := List.filter is_call t.

(** ** Composite identifiers *)

(** The identifier [instanceId#securityGroupId#product] of the configuration
    [d]. *)
Definition composite_id (d : ResourceData) : string :=
  default "" (GetOkString d "instance_id") +:+ FILED_SP
  +:+ default "" (GetOkString d "security_group_id") +:+ FILED_SP
  +:+ default "" (GetOkString d "product").

(** The handler fails with "id is broken" and has called nothing. *)
Definition rejects_broken_id {W} (m : M W unit) (d : ResourceData) (w : W) : Prop :=
  res (m d w) = Fail (Errorf ("id is broken," +:+ Id d))
  /\ calls (trace (m d w)) = [].

(** ** Read of an object that is gone *)

(** The describe call that Read issues for [d] finds no object. *)
Definition remote_absent {W} (V : Vendor W) (E : Env) (r : resource)
           (d : ResourceData) (w : W) : Prop :=
  match r with
  | CfsSnapshot => (serve V DescribeCfsSnapshotById (Id d) w).1 = inr None
  | MariadbSecurityGroups =>
      match Split (Id d) FILED_SP_char with
      | [instanceId; securityGroupId; product] =>
          (serve V DescribeMariadbSecurityGroup
                 (instanceId, securityGroupId, product) w).1 = inr None
      | _ => False
      end
  | TsfApplicationConfig =>
      (serve V DescribeTsfApplicationConfigById (Id d, "") w).1 = inr None
  | Eip =>
      (0 < readRetryTimeout E)%nat
      /\ (serve V DescribeEipById (Id d) w).1 = inr None
  | VpnGateway => (serve V DescribeVpngwById (Id d) w).1 = inr None
  end.

(** The run cleared the identifier and returned [nil]. *)
Definition cleared_without_error {W} (run : Run W unit) : Prop :=
  res run = Ok tt /\ Id (rd run) = "".

(** The run cleared the identifier and returned the error of the mariadb
    security groups. *)
Definition cleared_with_error {W} (run : Run W unit) : Prop :=
  Id (rd run) = ""
  /\ exists securityGroupId,
       res run = Fail (Errorf ("resource `securityGroups` " +:+ securityGroupId
                               +:+ " does not exist")).

(** ** Update of an immutable attribute *)

(** The attributes an Update refuses to change. *)
Definition immutable (r : resource) : list string :=
  match r with
  | CfsSnapshot => []
  | MariadbSecurityGroups => ["instance_id"; "security_group_id"; "product"]
  | TsfApplicationConfig => tsf_immutableArgs
  | Eip => ["bandwidth_package_id"]
  | VpnGateway => ["prepaid_period"; "type"; "cdc_id"; "max_connection"]
  end.

(** Those it checks before anything else. *)
Definition checked_first (r : resource) : list string :=
  match r with
  | VpnGateway => ["prepaid_period"; "type"]
  | r => immutable r
  end.

(** The run failed and has called nothing. *)
Definition failed_without_call {W} (run : Run W unit) : Prop :=
  is_Fail (res run) /\ calls (trace run) = [].

(** ** Delete of a vpn gateway *)

(** [answered V E a q w x w']: the call [a q], issued in [w] and issued again
    as long as it fails with an error that [retryError] lets retry, is
    answered with [x] and leaves the world in [w']. *)
Inductive answered {W} (V : Vendor W) (E : Env) (a : api) (q : request a)
  : W -> response a -> W -> Prop :=
| answered_now w x w' :
    serve V a q w = (inr x, w') -> answered V E a q w x w'
| answered_later w e w1 x w' :
    serve V a q w = (inl e, w1) -> retryable E e [] = true ->
    answered V E a q w1 x w' -> answered V E a q w x w'.

(** A prepaid gateway whose expiry time lies after [today]. *)
Definition prepaid_unexpired (E : Env) (today : Z) (g : vpc.VpnGateway) : Prop :=
  vpc.InstanceChargeType g = Some VPN_CHARGE_TYPE_PREPAID
  /\ exists expiredTime t,
       vpc.ExpiredTime g = Some expiredTime
       /\ expiredTime <> "0000-00-00 00:00:00"
       /\ time_Parse E expiredTime = Some t
       /\ today < t.

(** A gateway of CCN type attached to a network instance (and, as every
    gateway the vendor describes, with a charge type next to its expiry
    time). *)
Definition ccn_attached (g : vpc.VpnGateway) : Prop :=
  vpc.Type_ g = Some GATE_WAY_TYPE_CCN
  /\ (exists nid, vpc.NetworkInstanceId g = Some nid /\ nid <> "")
  /\ (vpc.ExpiredTime g = None \/ vpc.InstanceChargeType g <> None).

(** The query of the tunnels of the gateway was answered with a tunnel. *)
Definition tunnel_found (e : Event) : bool :=
  match e with
  | EvCall a _ r =>
      match a as a' return error + response a' -> bool with
      | DescribeVpnConnections =>
          fun r => match r with inr (_ :: _) => true | _ => false end
      | _ => fun _ => false
      end r
  | _ => false
  end.

(** No call of [a] in the log. *)
Definition never_called (a : api) (t : list Event) : Prop :=
  Forall (fun e => called a e = false) t.

(** The run failed and [DeleteVpnGateway] was not issued. *)
Definition refused_to_delete {W} (run : Run W unit) : Prop :=
  is_Fail (res run) /\ never_called DeleteVpnGateway (trace run).

(** ** Delete and the absence of the remote object *)

Definition delete_api (r : resource) : api :=
  match r with
  | CfsSnapshot => DeleteCfsSnapshotById
  | MariadbSecurityGroups => DeleteMariadbSecurityGroupsById
  | TsfApplicationConfig => DeleteTsfApplicationConfigById
  | Eip => DeleteEip
  | VpnGateway => DeleteVpnGateway
  end.

Definition describe_api (r : resource) : api :=
  match r with
  | CfsSnapshot => DescribeCfsSnapshotById
  | MariadbSecurityGroups => DescribeMariadbSecurityGroup
  | TsfApplicationConfig => DescribeTsfApplicationConfigById
  | Eip => DescribeEipById
  | VpnGateway => DescribeVpnGateways
  end.

(** The event is a describe call of the resource that found nothing (for
    the vpn gateway also: that failed with the not-found code). *)
Definition observed_absent (E : Env) (r : resource) (e : Event) : bool :=
  match e with
  | EvCall a _ reply =>
      match a as a' return error + response a' -> bool with
      | DescribeCfsSnapshotById => fun reply =>
          bool_decide (r = CfsSnapshot)
          && match reply with inr None => true | _ => false end
      | DescribeMariadbSecurityGroup => fun reply =>
          bool_decide (r = MariadbSecurityGroups)
          && match reply with inr None => true | _ => false end
      | DescribeTsfApplicationConfigById => fun reply =>
          bool_decide (r = TsfApplicationConfig)
          && match reply with inr None => true | _ => false end
      | DescribeEipById => fun reply =>
          bool_decide (r = Eip)
          && match reply with inr None => true | _ => false end
      | DescribeVpnGateways => fun reply =>
          bool_decide (r = VpnGateway)
          && match reply with
             | inr [] => true
             | inl (SDKError code _) => bool_decide (code = VPCNotFound E)
             | _ => false
             end
      | _ => fun _ => false
      end reply
  | _ => false
  end.

(** The last thing the run did was to see that the object is gone. *)
Definition confirmed_absent {W} (E : Env) (r : resource) (run : Run W unit) : Prop :=
  exists e, last (trace run) = Some e /\ observed_absent E r e = true.

(** The delete call of the resource was issued and succeeded. *)
Definition delete_issued {W} (r : resource) (run : Run W unit) : Prop :=
  existsb (fun e => called (delete_api r) e && succeeded e) (trace run) = true.

(** The resources whose Delete polls after the delete call. *)
Definition polls_after_delete (r : resource) : bool :=
  match r with
  | CfsSnapshot | Eip | VpnGateway => true
  | MariadbSecurityGroups | TsfApplicationConfig => false
  end.

(** What Delete does, resource by resource. *)
Definition deleted_as_coded {W} (E : Env) (r : resource) (run : Run W unit) : Prop :=
  (res run = Ok tt -> delete_issued r run)
  /\ if polls_after_delete r
     then res run = Ok tt -> confirmed_absent E r run
     else never_called (describe_api r) (trace run).

(** ** Create and the tags *)

(** The tag assignment failed. *)
Definition tag_failed (e : Event) : bool :=
  match e with
  | EvCall a _ reply =>
      match a as a' return error + response a' -> bool with
      | ModifyTags => fun reply => match reply with inl _ => true | inr _ => false end
      | _ => fun _ => false
      end reply
  | _ => false
  end.

(** The identifier a create call handed out. *)
Definition allocated_id (e : Event) : option string :=
  match e with
  | EvCall a _ reply =>
      match a as a' return error + response a' -> option string with
      | CreateCfsSnapshot => fun reply =>
          match reply with inr (Some id) => Some id | _ => None end
      | CreateVpnGateway => fun reply =>
          match reply with inr (Some g) => vpc.VpnGatewayId g | _ => None end
      | AllocateAddresses => fun reply =>
          match reply with inr (Some id :: _) => Some id | _ => None end
      | _ => fun _ => None
      end reply
  | _ => None
  end.

(** The run ended with the error of a tag assignment, and the identifier it
    leaves in the resource data is the one a create call handed out. *)
Definition failed_at_tags_with_id {W} (run : Run W unit) : Prop :=
  (exists q e, last (trace run) = Some (EvCall ModifyTags q (inl e))
               /\ res run = Fail e)
  /\ Exists (fun ev => allocated_id ev = Some (Id (rd run))) (trace run).

(** ** What Read writes *)

(** The attributes Read may write. *)
Definition read_attributes (r : resource) : list string :=
  match r with
  | CfsSnapshot => ["file_system_id"; "snapshot_name"; "tags"]
  | MariadbSecurityGroups => ["instance_id"; "security_group_id"; "product"]
  | TsfApplicationConfig =>
      ["config_name"; "config_version"; "config_value"; "application_id";
       "config_version_desc"; "config_type"]
  | Eip =>
      ["name"; "type"; "public_ip"; "status"; "internet_charge_type"; "tags";
       "bandwidth_package_id"]
  | VpnGateway =>
      ["name"; "public_ip_address"; "bandwidth"; "type"; "create_time"; "state";
       "prepaid_renew_flag"; "charge_type"; "expired_time"; "is_address_blocked";
       "new_purchase_plan"; "restrict_state"; "zone"; "cdc_id"; "max_connection";
       "tags"]
  end.

(** Those it writes whatever the remote object looks like: the others are
    written under [!= nil]. *)
Definition always_read (r : resource) : list string :=
  match r with
  | CfsSnapshot => ["tags"]
  | MariadbSecurityGroups => ["instance_id"; "security_group_id"; "product"]
  | TsfApplicationConfig => []
  | Eip => ["name"; "type"; "public_ip"; "status"; "internet_charge_type"; "tags"]
  | VpnGateway => read_attributes VpnGateway
  end.

(** The attributes of the schema that Read never writes. *)
Definition never_read (r : resource) : list string :=
  match r with
  | CfsSnapshot | MariadbSecurityGroups => []
  | TsfApplicationConfig => ["encode_with_base64"; "program_id_list"]
  | Eip =>
      ["anycast_zone"; "applicable_for_clb"; "internet_service_provider";
       "internet_max_bandwidth_out"]
  | VpnGateway => ["vpc_id"; "prepaid_period"]
  end.

(** Read cleared the identifier: the object was not found. *)
Definition cleared (e : Event) : bool :=
  match e with
  | EvSetId v => bool_decide (v = "")
  | _ => false
  end.

(** Every attribute of the schema has been written. *)
Definition populated {W} (r : resource) (run : Run W unit) : Prop :=
  forall key, In key (schema r) -> is_Some (rd_set (rd run) !! key).

(** What a Read that finds the object has been shown: the replies of its
    describe calls, and for the mariadb security groups the parts of the
    identifier. *)
Inductive Remote : Type :=
| SeenCfs (snapshot : cfs.SnapshotInfo) (tags : gmap string string)
| SeenMariadb (instanceId securityGroupId product : string)
| SeenTsf (config : tsf.Config)
| SeenEip (eip : vpc.Address) (tags : gmap string string)
          (bgp : option vpc.BandwidthPackage)
| SeenVpn (gateway : vpc.VpnGateway) (tags : gmap string string).

Definition remote_of (o : Remote) : resource :=
  match o with
  | SeenCfs _ _ => CfsSnapshot
  | SeenMariadb _ _ _ => MariadbSecurityGroups
  | SeenTsf _ => TsfApplicationConfig
  | SeenEip _ _ _ => Eip
  | SeenVpn _ _ => VpnGateway
  end.

(** [if p != nil { _ = d.Set(key, p) }]. *)
Definition guarded (key : string) (p : option string) : list (string * Value) :=
  if bool_decide (p ≠ None) then [(key, of_str p)] else [].

(** The attributes Read writes for what it has been shown, with their
    values, in the order of the [d.Set] calls. *)
Definition writes (o : Remote) : list (string * Value) :=
  match o with
  | SeenCfs snapshot tags =>
      guarded "file_system_id" (cfs.SFileSystemId snapshot)
      ++ guarded "snapshot_name" (cfs.SSnapshotName snapshot)
      ++ [("tags", VMap tags)]
  | SeenMariadb instanceId securityGroupId product =>
      [("instance_id", VString instanceId);
       ("security_group_id", VString securityGroupId);
       ("product", VString product)]
  | SeenTsf config =>
      guarded "config_name" (tsf.CConfigName config)
      ++ guarded "config_version" (tsf.CConfigVersion config)
      ++ guarded "config_value" (tsf.CConfigValue config)
      ++ guarded "application_id" (tsf.CApplicationId config)
      ++ guarded "config_version_desc" (tsf.CConfigVersionDesc config)
      ++ guarded "config_type" (tsf.CConfigType config)
  | SeenEip eip tags bgp =>
      [("name", of_str (vpc.AddressName eip));
       ("type", of_str (vpc.AAddressType eip));
       ("public_ip", of_str (vpc.AddressIp eip));
       ("status", of_str (vpc.AddressStatus eip));
       ("internet_charge_type", of_str (vpc.AInternetChargeType eip));
       ("tags", VMap tags)]
      ++ match bgp with
         | Some bgp => [("bandwidth_package_id", of_str (vpc.BandwidthPackageId bgp))]
         | None => []
         end
  | SeenVpn gateway tags =>
      [("name", of_str (vpc.VpnGatewayName gateway));
       ("public_ip_address", of_str (vpc.PublicIpAddress gateway));
       ("bandwidth", of_int (vpc.InternetMaxBandwidthOut gateway));
       ("type", of_str (vpc.Type_ gateway));
       ("create_time", of_str (vpc.CreatedTime gateway));
       ("state", of_str (vpc.State gateway));
       ("prepaid_renew_flag", of_str (vpc.RenewFlag gateway));
       ("charge_type", of_str (vpc.InstanceChargeType gateway));
       ("expired_time", of_str (vpc.ExpiredTime gateway));
       ("is_address_blocked", of_bool (vpc.IsAddressBlocked gateway));
       ("new_purchase_plan", of_str (vpc.NewPurchasePlan gateway));
       ("restrict_state", of_str (vpc.RestrictState gateway));
       ("zone", of_str (vpc.Zone gateway));
       ("cdc_id", of_str (vpc.CdcId gateway));
       ("max_connection", of_int (vpc.MaxConnection gateway));
       ("tags", VMap tags)]
  end.

(** The written level after the writes, one after the other. *)
Definition store (kvs : list (string * Value)) (m : gmap string Value)
  : gmap string Value :=
  foldl (fun m kv => <[kv.1 := kv.2]> m) m kvs.

(** The log shows that the vendor answered the describe calls for the
    identifier of [d] with [o]; the parts of a mariadb identifier are those
    of the identifier of [d], and the vendor knows their association. *)
Definition shown (E : Env) (d : ResourceData) (o : Remote) (t : list Event) : Prop :=
  match o with
  | SeenCfs snapshot tags =>
      In (EvCall DescribeCfsSnapshotById (Id d) (inr (Some snapshot))) t
      /\ In (EvCall DescribeResourceTags ("cfs", "snap", Region E, Id d) (inr tags)) t
  | SeenMariadb instanceId securityGroupId product =>
      Split (Id d) FILED_SP_char = [instanceId; securityGroupId; product]
      /\ exists securityGroup,
           In (EvCall DescribeMariadbSecurityGroup (instanceId, securityGroupId, product)
                      (inr (Some securityGroup))) t
  | SeenTsf config =>
      In (EvCall DescribeTsfApplicationConfigById (Id d, "") (inr (Some config))) t
  | SeenEip eip tags bgp =>
      In (EvCall DescribeEipById (Id d) (inr (Some eip))) t
      /\ In (EvCall DescribeResourceTags
                    (VPC_SERVICE_TYPE E, EIP_RESOURCE_TYPE E, Region E, Id d) (inr tags)) t
      /\ In (EvCall DescribeVpcBandwidthPackageByEip (Id d) (inr bgp)) t
  | SeenVpn gateway tags =>
      In (EvCall DescribeVpngwById (Id d) (inr (Some gateway))) t
      /\ vpc.InternetMaxBandwidthOut gateway <> None
      /\ In (EvCall DescribeResourceTags ("vpc", "vpngw", Region E, Id d) (inr tags)) t
  end.

(** What Read has done to the attributes: it was shown [o], has written
    what [o] holds and nothing else; the attributes it always writes are
    among them, all of them are attributes Read may write, and none is one
    of those it never writes. *)
Definition read_what_shown {W} (E : Env) (r : resource) (d : ResourceData)
           (run : Run W unit) : Prop :=
  exists o,
    remote_of o = r
    /\ shown E d o (trace run)
    /\ rd_set (rd run) = store (writes o) (rd_set d)
    /\ incl (always_read r) (map fst (writes o))
    /\ incl (map fst (writes o)) (read_attributes r)
    /\ (forall key, In key (never_read r) ->
          In key (schema r) /\ ~ In key (map fst (writes o))).

(** * Further properties of the handlers *)

(** ** Pieces of an identifier *)

(** How often the character occurs in the string. *)
Fixpoint count_char (c : ascii) (s : string) : nat :=
  match s with
  | EmptyString => O
  | String x rest => (if Ascii.eqb x c then 1 else 0) + count_char c rest
  end.

(** The configured [instance_id], [security_group_id] and [product]. *)
Definition configured_parts (d : ResourceData) : string * string * string :=
  (default "" (GetOkString d "instance_id"),
   default "" (GetOkString d "security_group_id"),
   default "" (GetOkString d "product")).

(** Every describe call of the mariadb security groups in the log asks for
    [parts]. *)
Definition describes_only (parts : string * string * string) (e : Event) : Prop :=
  match e with
  | EvCall a q _ =>
      match a as a' return request a' -> Prop with
      | DescribeMariadbSecurityGroup => fun q => q = parts
      | _ => fun _ => True
      end q
  | _ => True
  end.

(** ** Create of the mariadb security groups *)

(** The run describes the configured parts only and, when it succeeds, has
    them as identifier and as attributes. *)
Definition reads_back {W} (d : ResourceData) (run : Run W unit) : Prop :=
  Forall (describes_only (configured_parts d)) (trace run)
  /\ (res run = Ok tt ->
      Id (rd run) = composite_id d
      /\ rd_set (rd run) !! "instance_id" = Some (VString (configured_parts d).1.1)
      /\ rd_set (rd run) !! "security_group_id" = Some (VString (configured_parts d).1.2)
      /\ rd_set (rd run) !! "product" = Some (VString (configured_parts d).2)).

(** The run failed without a describe call; after a successful associate
    call the failure is the broken identifier. *)
Definition rejected_after_associate {W} (d : ResourceData) (run : Run W unit) : Prop :=
  is_Fail (res run)
  /\ never_called DescribeMariadbSecurityGroup (trace run)
  /\ (existsb (fun e => called AssociateSecurityGroups e && succeeded e) (trace run) = true ->
      res run = Fail (Errorf ("id is broken," +:+ composite_id d))).

(** ** How a run begins *)

(** The first event of the run satisfies [P]. *)
Definition begins {W A} (P : Event -> Prop) (run : Run W A) : Prop :=
  match trace run with
  | e :: _ => P e
  | [] => False
  end.

(** The run stopped with an error before anything was called or written. *)
Definition rejected_at_once {W} (d : ResourceData) (w : W) (run : Run W unit) : Prop :=
  is_Fail (res run) /\ trace run = [] /\ rd run = d /\ world run = w.

(** ** Create of a vpn gateway *)

(** The configuration asks for a gateway of the CCN type. *)
Definition ccn_typed (d : ResourceData) : bool :=
  bool_decide (GetOkString d "type" = Some "CCN").

(** [vpc_id] is given for a CCN gateway, or missing for any other. *)
Definition vpc_id_misused (d : ResourceData) : bool :=
  if ccn_typed d then bool_decide (GetOk d "vpc_id" ≠ None)
  else bool_decide (GetOk d "vpc_id" = None).

(** A [CreateVpnGateway] call for the configured type, in the configured
    network, or in none for the CCN type. *)
Definition creates_gateway_for (d : ResourceData) (e : Event) : Prop :=
  match e with
  | EvCall a q _ =>
      match a as a' return request a' -> Prop with
      | CreateVpnGateway => fun q =>
          vpc.CType q = GetOkString d "type"
          /\ vpc.CVpcId q = Some (if ccn_typed d then "" else as_string (Get d "vpc_id"))
      | _ => fun _ => False
      end q
  | _ => False
  end.

(** ** Update of a vpn gateway *)

(** The run failed in partial mode, having issued at most calls of [a]. *)
Definition rejected_after_only {W} (a : api) (run : Run W unit) : Prop :=
  is_Fail (res run)
  /\ Forall (fun e => called a e = true) (trace run)
  /\ rd_partial (rd run) = true.

(** ** The calls of Read and of Update *)

(** The calls the Read of a resource issues. *)
Definition read_call (r : resource) (a : api) : bool :=
  match r, a with
  | CfsSnapshot, (DescribeCfsSnapshotById | DescribeResourceTags)
  | MariadbSecurityGroups, DescribeMariadbSecurityGroup
  | TsfApplicationConfig, DescribeTsfApplicationConfigById
  | Eip, (DescribeEipById | DescribeResourceTags | DescribeVpcBandwidthPackageByEip)
  | VpnGateway, (DescribeVpngwById | DescribeResourceTags) => true
  | _, _ => false
  end.

(** What a Read of [r] may log: its mark, its calls, the clearing of the
    identifier. *)
Definition read_event (r : resource) (e : Event) : Prop :=
  match e with
  | EvCall a _ _ => read_call r a = true
  | EvRead => True
  | EvSetId id => id = ""
  end.

(** The planned changes that make the Update of a resource issue the
    modifying call [a]; the mariadb security groups are modified whatever
    the plan. *)
Definition update_cause (r : resource) (d : ResourceData) (a : api) : bool :=
  match r, a with
  | CfsSnapshot, UpdateCfsSnapshotAttribute => HasChange d "snapshot_name"
  | CfsSnapshot, ModifyTags => HasChange d "tags"
  | MariadbSecurityGroups, ModifyDBInstanceSecurityGroups => true
  | Eip, ModifyEipName => HasChange d "name"
  | Eip, ModifyEipBandwidthOut => HasChange d "internet_max_bandwidth_out"
  | Eip, ModifyTags => HasChange d "tags"
  | VpnGateway, SetVpnGatewaysRenewFlag => HasChange d "prepaid_renew_flag"
  | VpnGateway, ModifyVpnGatewayAttribute => HasChange d "name" || HasChange d "charge_type"
  | VpnGateway, ResetVpnGatewayInternetMaxBandwidth => HasChange d "bandwidth"
  | VpnGateway, ModifyTags => HasChange d "tags"
  | _, _ => false
  end.

(** None of the attributes is to change. *)
Definition unchanged (d : ResourceData) (keys : list string) : bool :=
  forallb (fun k => negb (HasChange d k)) keys.

(** What an Update of [r] with the plan of [d] may log: a modifying call
    that the plan causes, or, when no immutable attribute is to change,
    what the Read logs. *)
Definition update_event (r : resource) (d : ResourceData) (e : Event) : Prop :=
  match e with
  | EvCall a _ _ => update_cause r d a = true
  | _ => False
  end
  \/ (unchanged d (immutable r) = true /\ read_event r e).

(** ** An Update that has nothing to change *)

(** What Update hands to the Read at its end when it wrote nothing: the eip
    and the vpn gateway have left the partial mode. *)
Definition handed_to_read (r : resource) (d : ResourceData) : ResourceData :=
  match r with
  | Eip | VpnGateway => Partial false d
  | _ => d
  end.

(** A [ModifyDBInstanceSecurityGroups] call for the instance, the security
    group and the product of [parts]. *)
Definition modifies_parts (parts : string * string * string) (e : Event) : Prop :=
  match e with
  | EvCall a q _ =>
      match a as a' return request a' -> Prop with
      | ModifyDBInstanceSecurityGroups => fun q =>
          q = {| mariadb.MInstanceId := Some parts.1.1;
                 mariadb.MSecurityGroupIds := [parts.1.2];
                 mariadb.MProduct := Some parts.2 |}
      | _ => fun _ => False
      end q
  | _ => False
  end.

(** ** The order of the steps of Create *)

(** The step of Create an event belongs to, for the events before the Read
    at its end: the create call, the identifier, and then, resource by
    resource, the lookup, the wait, the tags and the name. *)
Definition create_step (r : resource) (e : Event) : option nat :=
  match e with
  | EvRead => None
  | EvSetId _ =>
      match r with TsfApplicationConfig => Some 3%nat | _ => Some 2%nat end
  | EvCall a _ _ =>
      match r, a with
      | CfsSnapshot, CreateCfsSnapshot => Some 1%nat
      | CfsSnapshot, CfsSnapshotStateRefresh => Some 3%nat
      | CfsSnapshot, ModifyTags => Some 4%nat
      | MariadbSecurityGroups, AssociateSecurityGroups => Some 1%nat
      | TsfApplicationConfig, CreateConfig => Some 1%nat
      | TsfApplicationConfig, DescribeTsfApplicationConfigById => Some 2%nat
      | Eip, AllocateAddresses => Some 1%nat
      | Eip, ModifyTags => Some 3%nat
      | Eip, DescribeEipById => Some 4%nat
      | Eip, ModifyEipName => Some 5%nat
      | VpnGateway, CreateVpnGateway => Some 1%nat
      | VpnGateway, DescribeVpnGateways => Some 3%nat
      | VpnGateway, ModifyTags => Some 4%nat
      | _, _ => None
      end
  end.

(** A log of Create that has reached step [k]: the steps never go back, and
    from its mark on the log is that of the Read. *)
Fixpoint create_log (r : resource) (k : nat) (t : list Event) : Prop :=
  match t with
  | [] => True
  | EvRead :: rest => Forall (read_event r) rest
  | e :: rest =>
      match create_step r e with
      | Some j => (k <= j)%nat /\ create_log r j rest
      | None => False
      end
  end.

(** ** Handlers that cannot panic *)

Inductive operation : Type := OpCreate | OpRead | OpUpdate | OpDelete.

Definition handler {W} (V : Vendor W) (E : Env) (op : operation) (r : resource)
  : M W unit :=
  match op with
  | OpCreate => Create V E r
  | OpRead => Read V E r
  | OpUpdate => Update V E r
  | OpDelete => Delete V E r
  end.

(** The handlers that dereference a pointer of a vendor reply without a
    check for nil. *)
Definition dereferences (op : operation) (r : resource) : bool :=
  match op, r with
  | OpCreate, (CfsSnapshot | TsfApplicationConfig | Eip | VpnGateway) => true
  | OpDelete, (CfsSnapshot | VpnGateway) => true
  | (OpRead | OpUpdate), VpnGateway => true
  | _, _ => false
  end.

(** No run of the computation panics. *)
Definition safe {W A} (m : M W A) : Prop :=
  forall d w, res (m d w) <> Panic.

(** ** Create of a tsf application config *)

(** [CreateConfig] answered that nothing was created. *)
Definition create_refused (e : Event) : bool :=
  match e with
  | EvCall a _ reply =>
      match a as a' return error + response a' -> bool with
      | CreateConfig => fun reply =>
          match reply with inr (Some false) => true | _ => false end
      | _ => fun _ => false
      end reply
  | _ => false
  end.

(** The lookup of the config named [name] found the config [id]. *)
Definition looked_up (name id : string) (e : Event) : Prop :=
  match e with
  | EvCall a q reply =>
      match a as a' return request a' -> error + response a' -> Prop with
      | DescribeTsfApplicationConfigById => fun q reply =>
          q = ("", name)
          /\ exists config, reply = inr (Some config) /\ tsf.CConfigId config = Some id
      | _ => fun _ _ => False
      end q reply
  | _ => False
  end.

(** The run failed without a lookup and left the resource data alone. *)
Definition failed_before_lookup {W} (d : ResourceData) (run : Run W unit) : Prop :=
  is_Fail (res run)
  /\ never_called DescribeTsfApplicationConfigById (trace run)
  /\ rd run = d.

(** ** More remote sides *)

Module Cases.

(** [CreateConfig] answers that nothing was created. *)
Definition vendor_refusing : Vendor nat :=
  Demo.scripted (fun _ a =>
    match a with
    | CreateConfig => inr (Some false)
    | a => inr (Demo.found a)
    end).

(** A gateway of which the vendor tells nothing but an expiry time. *)
Definition gateway_nil : vpc.VpnGateway :=
  {| vpc.VpnGatewayId := None;
     vpc.VpnGatewayName := None;
     vpc.PublicIpAddress := None;
     vpc.InternetMaxBandwidthOut := None;
     vpc.Type_ := None;
     vpc.CreatedTime := None;
     vpc.State := None;
     vpc.RenewFlag := None;
     vpc.InstanceChargeType := None;
     vpc.ExpiredTime := Some "2030-01-01 00:00:00";
     vpc.IsAddressBlocked := None;
     vpc.NewPurchasePlan := None;
     vpc.RestrictState := None;
     vpc.Zone := None;
     vpc.CdcId := None;
     vpc.MaxConnection := None;
     vpc.NetworkInstanceId := None |}.

(** A remote side whose replies leave out what they can. *)
Definition vendor_nil : Vendor nat :=
  Demo.scripted (fun _ a =>
    match a with
    | CreateCfsSnapshot => inr None
    | DescribeCfsSnapshotById =>
        inr (Some {| cfs.SFileSystemId := None; cfs.SSnapshotName := None;
                     cfs.Status := None |})
    | CreateConfig => inr None
    | AllocateAddresses => inr [None]
    | CreateVpnGateway => inr (Some gateway_nil)
    | DescribeVpngwById => inr (Some gateway_nil)
    | DescribeVpnGateways => inr [gateway_nil]
    | a => inr (Demo.found a)
    end).

End Cases.

(** ** The order of the calls of Delete *)

(** Where a Delete of the resource [id] stands after the event [e], from
    where it stood: for the cfs snapshot 0 before the delete call and 1
    after it; for the eip 0 while it unattaches, 1 while it deletes, 2 while
    it waits; for the vpn gateway 0 while it checks the gateway and its
    tunnels, 2 while it deletes, 3 while it waits; 9 when nothing may
    follow.  [None]: the event has no place there. *)
Definition delete_next (r : resource) (id : string) (k : nat) (e : Event) : option nat :=
  match e with
  | EvCall a q reply =>
      match a as a' return request a' -> error + response a' -> option nat with
      | DeleteCfsSnapshotById => fun q reply =>
          if bool_decide (r = CfsSnapshot) && bool_decide (q = id) && bool_decide (k = 0%nat)
          then match reply with inr _ => Some 1%nat | inl _ => Some 9%nat end
          else None
      | DescribeCfsSnapshotById => fun q _ =>
          if bool_decide (r = CfsSnapshot) && bool_decide (q = id) && bool_decide (k = 1%nat)
          then Some 1%nat else None
      | DeleteMariadbSecurityGroupsById => fun q _ =>
          if bool_decide (r = MariadbSecurityGroups)
             && bool_decide (Split id FILED_SP_char = [q.1.1; q.1.2; q.2])
             && bool_decide (k = 0%nat)
          then Some 9%nat else None
      | DeleteTsfApplicationConfigById => fun q _ =>
          if bool_decide (r = TsfApplicationConfig) && bool_decide (q = id)
             && bool_decide (k = 0%nat)
          then Some 9%nat else None
      | UnattachEip => fun q reply =>
          if bool_decide (r = Eip) && bool_decide (q = id) && bool_decide (k = 0%nat)
          then match reply with inr _ => Some 1%nat | inl _ => Some 0%nat end
          else None
      | DeleteEip => fun q reply =>
          if bool_decide (r = Eip) && bool_decide (q = id) && bool_decide (k = 1%nat)
          then match reply with inr _ => Some 2%nat | inl _ => Some 1%nat end
          else None
      | DescribeEipById => fun q _ =>
          if bool_decide (r = Eip) && bool_decide (q = id) && bool_decide (k = 2%nat)
          then Some 2%nat else None
      | DescribeVpnGateways => fun q _ =>
          if bool_decide (r = VpnGateway) && bool_decide (q = [id])
             && (bool_decide (k = 0%nat) || bool_decide (k = 3%nat))
          then Some k else None
      | DescribeVpnConnections => fun q reply =>
          if bool_decide (r = VpnGateway) && bool_decide (k = 0%nat)
          then match reply with
               | inl _ => Some 0%nat
               | inr [] => Some 2%nat
               | inr (_ :: _) => Some 9%nat
               end
          else None
      | DeleteVpnGateway => fun q reply =>
          if bool_decide (r = VpnGateway) && bool_decide (q = id) && bool_decide (k = 2%nat)
          then match reply with inr _ => Some 3%nat | inl _ => Some 2%nat end
          else None
      | _ => fun _ _ => None
      end q reply
  | _ => None
  end.

(** Every event of the log has its place. *)
Fixpoint delete_log (r : resource) (id : string) (k : nat) (t : list Event) : Prop :=
  match t with
  | [] => True
  | e :: rest =>
      match delete_next r id k e with
      | Some j => delete_log r id j rest
      | None => False
      end
  end.

(** ** What the dbbrain data source writes *)

(** The identifier of a task in the audit group [sag_id]. *)
Definition task_id (E : Env) (sag_id : string) (task : dbbrain.SecLogExportTaskInfo)
  : string :=
  sag_id +:+ FILED_SP +:+ UInt64ToStr E (default 0 (dbbrain.AsyncRequestId task)).

(** The run left the hash of the task identifiers as identifier and the
    tasks, in the order of the reply, as [list]; it wrote them to the
    configured file, if any, as its last step. *)
Definition exported {W} (E : Env) (d : ResourceData)
           (tasks : list dbbrain.SecLogExportTaskInfo) (run : Run W unit) : Prop :=
  Id (rd run)
  = DataResourceIdsHash E
      (map (task_id E (default "" (GetOkString d "sec_audit_group_id"))) tasks)
  /\ rd_set (rd run) !! "list" = Some (VList (map taskMap_of tasks))
  /\ match GetOkString d "result_output_file" with
     | Some output =>
         exists reply,
           last (trace run) = Some (EvCall writeToFile (output, map taskMap_of tasks) reply)
           /\ res run = match reply with inl e => Fail e | inr _ => Ok tt end
     | None => res run = Ok tt /\ never_called writeToFile (trace run)
     end.

(** The keys of a task in [list]. *)
Definition task_keys : list string :=
  ["async_request_id"; "start_time"; "end_time"; "create_time"; "status";
   "progress"; "log_start_time"; "log_end_time"; "total_size"; "danger_levels"].

(** The field of the task that a key of [list] holds. *)
Definition task_field (task : dbbrain.SecLogExportTaskInfo) (key : string)
  : option Scalar :=
  if bool_decide (key = "async_request_id") then SInt <$> dbbrain.AsyncRequestId task
  else if bool_decide (key = "start_time") then SString <$> dbbrain.StartTime task
  else if bool_decide (key = "end_time") then SString <$> dbbrain.EndTime task
  else if bool_decide (key = "create_time") then SString <$> dbbrain.CreateTime task
  else if bool_decide (key = "status") then SString <$> dbbrain.TStatus task
  else if bool_decide (key = "progress") then SInt <$> dbbrain.Progress task
  else if bool_decide (key = "log_start_time") then SString <$> dbbrain.LogStartTime task
  else if bool_decide (key = "log_end_time") then SString <$> dbbrain.LogEndTime task
  else if bool_decide (key = "total_size") then SInt <$> dbbrain.TotalSize task
  else if bool_decide (key = "danger_levels") then SInts <$> dbbrain.DangerLevels task
  else None.

(** * The pre-checks of the acceptance tests

    The helpers of [provider_test.go] read and write the process
    environment; [t.Fatalf] ends the helper, and what it wrote before
    stays. *)

Module acctest.

Abbreviation environ := (gmap string string).

(** [os.Getenv]: an unset variable reads as the empty string. *)
Definition Getenv (e : environ) (key : string) : string := default "" (e !! key).

(** [os.Setenv]. *)
Definition Setenv (key value : string) (e : environ) : environ := <[key := value]> e.

(** Names and defaults of the provider that the helpers use and that are
    not among the sources. *)
Record Names : Type := {
  PROVIDER_SECRET_ID : string;
  PROVIDER_SECRET_KEY : string;
  PROVIDER_REGION : string;
  defaultRegion : string;
  defaultRegionSes : string
}.

Definition ACCOUNT_TYPE_INTERNATIONAL : string := "INTERNATIONAL".
Definition ACCOUNT_TYPE_PREPAY : string := "PREPAY".
Definition ACCOUNT_TYPE_COMMON : string := "COMMON".
Definition ACCOUNT_TYPE_PRIVATE : string := "PRIVATE".
Definition ACCOUNT_TYPE_SUB_ACCOUNT : string := "SUB_ACCOUNT".
Definition ACCOUNT_TYPE_SMS : string := "SMS".
Definition ACCOUNT_TYPE_SES : string := "SES".
Definition INTERNATIONAL_PROVIDER_SECRET_ID : string := "TENCENTCLOUD_SECRET_ID_INTERNATIONAL".
Definition INTERNATIONAL_PROVIDER_SECRET_KEY : string := "TENCENTCLOUD_SECRET_KEY_INTERNATIONAL".
Definition PREPAY_PROVIDER_SECRET_ID : string := "TENCENTCLOUD_SECRET_ID_PREPAY".
Definition PREPAY_PROVIDER_SECRET_KEY : string := "TENCENTCLOUD_SECRET_KEY_PREPAY".
Definition PRIVATE_PROVIDER_SECRET_ID : string := "TENCENTCLOUD_SECRET_ID_PRIVATE".
Definition PRIVATE_PROVIDER_SECRET_KEY : string := "TENCENTCLOUD_SECRET_KEY_PRIVATE".
Definition COMMON_PROVIDER_SECRET_ID : string := "TENCENTCLOUD_SECRET_ID_COMMON".
Definition COMMON_PROVIDER_SECRET_KEY : string := "TENCENTCLOUD_SECRET_KEY_COMMON".
Definition SUB_ACCOUNT_PROVIDER_SECRET_ID : string := "TENCENTCLOUD_SECRET_ID_SUB_ACCOUNT".
Definition SUB_ACCOUNT_PROVIDER_SECRET_KEY : string := "TENCENTCLOUD_SECRET_KEY_SUB_ACCOUNT".
Definition SMS_PROVIDER_SECRET_ID : string := "TENCENTCLOUD_SECRET_ID_SMS".
Definition SMS_PROVIDER_SECRET_KEY : string := "TENCENTCLOUD_SECRET_KEY_SMS".

Inductive outcome : Type :=
| Passed
| Fatal (message : string).

Definition newline : string := String (Ascii.ascii_of_nat 10) EmptyString.

(** ["%v must be set for acceptance tests\n"]. *)
Definition must_be_set (name : string) : string :=
  name +:+ " must be set for acceptance tests" +:+ newline.

(** ["%v and %v must be set for acceptance tests\n"]. *)
Definition both_must_be_set (id key : string) : string :=
  id +:+ " and " +:+ key +:+ " must be set for acceptance tests" +:+ newline.

Section Helpers.
Context (N : Names).

(** [if v := os.Getenv(PROVIDER_REGION); v == "" { os.Setenv(...) }]. *)
Definition default_region (e : environ) : environ :=
  if bool_decide (Getenv e (PROVIDER_REGION N) = "")
  then Setenv (PROVIDER_REGION N) (defaultRegion N) e
  else e.

Definition testAccPreCheck (e : environ) : outcome * environ :=
  if bool_decide (Getenv e (PROVIDER_SECRET_ID N) = "") then
    (Fatal (must_be_set (PROVIDER_SECRET_ID N)), e)
  else if bool_decide (Getenv e (PROVIDER_SECRET_KEY N) = "") then
    (Fatal (must_be_set (PROVIDER_SECRET_KEY N)), e)
  else
    let e := default_region e in
    let e :=
      if bool_decide (Getenv e COMMON_PROVIDER_SECRET_ID ≠ "")
      then Setenv (PROVIDER_SECRET_ID N) (Getenv e COMMON_PROVIDER_SECRET_ID) e
      else e in
    let e :=
      if bool_decide (Getenv e COMMON_PROVIDER_SECRET_KEY ≠ "")
      then Setenv (PROVIDER_SECRET_KEY N) (Getenv e COMMON_PROVIDER_SECRET_KEY) e
      else e in
    (Passed, e).

(** One case of the switch on the account type. *)
Definition use_account (id key : string) (e : environ) : outcome * environ :=
  let secretId := Getenv e id in
  let secretKey := Getenv e key in
  if bool_decide (secretId = "") || bool_decide (secretKey = "") then
    (Fatal (both_must_be_set id key), e)
  else
    (Passed, Setenv (PROVIDER_SECRET_KEY N) secretKey
               (Setenv (PROVIDER_SECRET_ID N) secretId e)).

Definition testAccPreCheckCommon (accountType : string) (e : environ)
  : outcome * environ :=
  let e := default_region e in
  if bool_decide (accountType = ACCOUNT_TYPE_INTERNATIONAL) then
    use_account INTERNATIONAL_PROVIDER_SECRET_ID INTERNATIONAL_PROVIDER_SECRET_KEY e
  else if bool_decide (accountType = ACCOUNT_TYPE_PREPAY) then
    use_account PREPAY_PROVIDER_SECRET_ID PREPAY_PROVIDER_SECRET_KEY e
  else if bool_decide (accountType = ACCOUNT_TYPE_PRIVATE) then
    use_account PRIVATE_PROVIDER_SECRET_ID PRIVATE_PROVIDER_SECRET_KEY e
  else if bool_decide (accountType = ACCOUNT_TYPE_COMMON) then
    use_account COMMON_PROVIDER_SECRET_ID COMMON_PROVIDER_SECRET_KEY e
  else if bool_decide (accountType = ACCOUNT_TYPE_SUB_ACCOUNT) then
    use_account SUB_ACCOUNT_PROVIDER_SECRET_ID SUB_ACCOUNT_PROVIDER_SECRET_KEY e
  else if bool_decide (accountType = ACCOUNT_TYPE_SMS) then
    use_account SMS_PROVIDER_SECRET_ID SMS_PROVIDER_SECRET_KEY e
  else if bool_decide (Getenv e (PROVIDER_SECRET_ID N) = "") then
    (Fatal (must_be_set (PROVIDER_SECRET_ID N)), e)
  else if bool_decide (Getenv e (PROVIDER_SECRET_KEY N) = "") then
    (Fatal (must_be_set (PROVIDER_SECRET_KEY N)), e)
  else (Passed, e).

Definition testAccStepPreConfigSetTempAKSK (accountType : string) (e : environ)
  : outcome * environ :=
  testAccPreCheckCommon accountType e.

Definition testAccStepSetRegion (region : string) (e : environ) : environ :=
  Setenv (PROVIDER_REGION N) region e.

Definition testAccPreCheckBusiness (accountType : string) (e : environ)
  : outcome * environ :=
  if bool_decide (accountType = ACCOUNT_TYPE_SES) then
    if bool_decide (Getenv e (PROVIDER_SECRET_ID N) = "") then
      (Fatal (must_be_set (PROVIDER_SECRET_ID N)), e)
    else if bool_decide (Getenv e (PROVIDER_SECRET_KEY N) = "") then
      (Fatal (must_be_set (PROVIDER_SECRET_KEY N)), e)
    else (Passed, Setenv (PROVIDER_REGION N) (defaultRegionSes N) e)
  else testAccPreCheck e.

(** The pre-checks, by name. *)
Inductive precheck : Type :=
| PreCheck
| PreCheckCommon (accountType : string)
| StepPreConfigSetTempAKSK (accountType : string)
| PreCheckBusiness (accountType : string).

Definition run_precheck (p : precheck) : environ -> outcome * environ :=
  match p with
  | PreCheck => testAccPreCheck
  | PreCheckCommon accountType => testAccPreCheckCommon accountType
  | StepPreConfigSetTempAKSK accountType => testAccStepPreConfigSetTempAKSK accountType
  | PreCheckBusiness accountType => testAccPreCheckBusiness accountType
  end.

(** The three names of the provider are three variables. *)
Definition distinct_names : Prop :=
  PROVIDER_SECRET_ID N <> PROVIDER_SECRET_KEY N
  /\ PROVIDER_REGION N <> PROVIDER_SECRET_ID N
  /\ PROVIDER_REGION N <> PROVIDER_SECRET_KEY N.

(** Both credentials of the provider are set. *)
Definition has_credentials (e : environ) : Prop :=
  Getenv e (PROVIDER_SECRET_ID N) <> "" /\ Getenv e (PROVIDER_SECRET_KEY N) <> "".

End Helpers.

(** Names and defaults for the examples. *)
Definition names : Names :=
  {| PROVIDER_SECRET_ID := "TENCENTCLOUD_SECRET_ID";
     PROVIDER_SECRET_KEY := "TENCENTCLOUD_SECRET_KEY";
     PROVIDER_REGION := "TENCENTCLOUD_REGION";
     defaultRegion := "ap-guangzhou";
     defaultRegionSes := "ap-hongkong" |}.

End acctest.

(** ** The calls of Create that depend on the configuration *)

(** A tag assignment carries the configured tags, which are not empty, and
    deletes none; a change of the name carries the configured name. *)
Definition create_event (d : ResourceData) (e : Event) : Prop :=
  match e with
  | EvCall a q _ =>
      match a as a' return request a' -> Prop with
      | ModifyTags => fun q =>
          q.1.2 = GetTags d "tags" /\ GetTags d "tags" <> ∅ /\ q.2 = []
      | ModifyEipName => fun q => GetOkString d "name" = Some q.2
      | _ => fun _ => True
      end q
  | _ => True
  end.

(** ** The steps of a successful Create *)

(** What a Create does before the Read at its end. *)
Inductive Step : Type :=
| CreateCall   (* the create call of the vendor, under retry *)
| StoreId      (* d.SetId *)
| Lookup       (* the lookup of the object just created, by name *)
| Wait         (* the polls of the status *)
| AssignTags   (* tagService.ModifyTags *)
| Rename.      (* vpcService.ModifyEipName *)

#[global] Instance Step_eq_dec : EqDecision Step.
Proof. solve_decision. Defined.

(** The step of Create an event belongs to, for a Create that stores the
    identifier [id]. *)
Definition step_of (r : resource) (id : string) (e : Event) : option Step :=
  match e with
  | EvRead => None
  | EvSetId v => if bool_decide (v = id) then Some StoreId else None
  | EvCall a _ _ =>
      match r, a with
      | CfsSnapshot, CreateCfsSnapshot => Some CreateCall
      | CfsSnapshot, CfsSnapshotStateRefresh => Some Wait
      | CfsSnapshot, ModifyTags => Some AssignTags
      | MariadbSecurityGroups, AssociateSecurityGroups => Some CreateCall
      | TsfApplicationConfig, CreateConfig => Some CreateCall
      | TsfApplicationConfig, DescribeTsfApplicationConfigById => Some Lookup
      | Eip, AllocateAddresses => Some CreateCall
      | Eip, ModifyTags => Some AssignTags
      | Eip, DescribeEipById => Some Wait
      | Eip, ModifyEipName => Some Rename
      | VpnGateway, CreateVpnGateway => Some CreateCall
      | VpnGateway, DescribeVpnGateways => Some Wait
      | VpnGateway, ModifyTags => Some AssignTags
      | _, _ => None
      end
  end.

(** The steps of a Create that succeeds, in the order of the code, for the
    configuration of [d]: tags are assigned when some are configured, the
    eip is renamed when a name is. *)
Definition steps (r : resource) (d : ResourceData) : list Step :=
  let tags := if bool_decide (GetTags d "tags" ≠ ∅) then [AssignTags] else [] in
  match r with
  | CfsSnapshot => [CreateCall; StoreId; Wait] ++ tags
  | MariadbSecurityGroups => [CreateCall; StoreId]
  | TsfApplicationConfig => [CreateCall; Lookup; StoreId]
  | Eip =>
      [CreateCall; StoreId] ++ tags ++ [Wait]
      ++ match GetOkString d "name" with Some _ => [Rename] | None => [] end
  | VpnGateway => [CreateCall; StoreId; Wait] ++ tags
  end.

(** The log goes through the steps [todo], one after the other and each with
    at least one event (a step under retry logs one call per attempt, a wait
    one per poll), after the step [here]; it holds no other event, and the
    identifier it stores is [id]. *)
Fixpoint goes_through (r : resource) (id : string) (here : option Step)
         (todo : list Step) (t : list Event) : bool :=
  match t with
  | [] => bool_decide (todo = [])
  | e :: rest =>
      match step_of r id e with
      | None => false
      | Some s =>
          (bool_decide (here = Some s) && goes_through r id here todo rest)
          || match todo with
             | s' :: todo' => bool_decide (s' = s) && goes_through r id (Some s) todo' rest
             | [] => false
             end
      end
  end.

(** The run went through the steps of its Create, storing an identifier,
    and then was a Read of the resource data it was given with that
    identifier: that Read's log ends the log, its result and what it left
    are the run's. *)
Definition created_in_steps {W} (V : Vendor W) (E : Env) (r : resource)
           (d : ResourceData) (run : Run W unit) : Prop :=
  exists id w',
    let read := Read V E r (SetId id d) w' in
    res run = res read
    /\ rd run = rd read
    /\ world run = world read
    /\ exists pre : list Event,
         trace run = (pre ++ trace read)%list
         /\ goes_through r id None (steps r d) pre = true.

(** ** A no-op Update between two Reads *)

(** The run succeeded and found the object. *)
Definition found {W} (run : Run W unit) : Prop :=
  res run = Ok tt /\ existsb cleared (trace run) = false.

(** What one operation hands to the next: the identifier and the attribute
    values it has left behind. *)
Definition handed_on (d d' : ResourceData) : Prop :=
  Id d' = Id d /\ attributes d' = attributes d.

(** Two logs agree: a describe call of Read that was answered without error
    in both has the same answer in both. *)
Definition agree (r : resource) (t t' : list Event) : Prop :=
  forall (a : api) (q : request a) (x x' : response a),
    read_call r a = true ->
    In (EvCall a q (inr x)) t -> In (EvCall a q (inr x')) t' -> x = x'.

(** A call in the log carries an answer of the vendor. *)
Definition served {W} (V : Vendor W) (e : Event) : Prop :=
  match e with
  | EvCall a q x => exists w, (serve V a q w).1 = x
  | _ => True
  end.

(** The vendor answers a describe call of Read the same whenever it is
    asked. *)
Definition stable {W} (V : Vendor W) (r : resource) : Prop :=
  forall (a : api) (q : request a) (w w' : W),
    read_call r a = true -> (serve V a q w).1 = (serve V a q w').1.

(** * Part II: the handlers verified *)

(** ** Reads of the resource data after a write *)

Section ResourceDataFacts.
Implicit Types (d : ResourceData) (key k v : string).

Lemma HasChange_Partial b d k : HasChange (Partial b d) k = HasChange d k.
Proof. reflexivity. Qed.
Lemma HasChange_SetPartial key d k : HasChange (SetPartial key d) k = HasChange d k.
Proof. reflexivity. Qed.
Lemma HasChange_SetId v d k : HasChange (SetId v d) k = HasChange d k.
Proof. reflexivity. Qed.
Lemma HasChange_Set key x d k : HasChange (Set_ key x d) k = HasChange d k.
Proof. reflexivity. Qed.

Lemma Id_Partial b d : Id (Partial b d) = Id d.
Proof. reflexivity. Qed.
Lemma Id_SetPartial key d : Id (SetPartial key d) = Id d.
Proof. reflexivity. Qed.
Lemma Id_Set key x d : Id (Set_ key x d) = Id d.
Proof. reflexivity. Qed.
Lemma Id_SetId v d : Id (SetId v d) = v.
Proof. reflexivity. Qed.

Lemma Get_Partial b d k : Get (Partial b d) k = Get d k.
Proof. reflexivity. Qed.
Lemma Get_SetPartial key d k : Get (SetPartial key d) k = Get d k.
Proof. reflexivity. Qed.
Lemma Get_SetId v d k : Get (SetId v d) k = Get d k.
Proof. reflexivity. Qed.

Lemma rd_set_Partial b d : rd_set (Partial b d) = rd_set d.
Proof. reflexivity. Qed.
Lemma rd_set_SetPartial key d : rd_set (SetPartial key d) = rd_set d.
Proof. reflexivity. Qed.
Lemma rd_set_SetId v d : rd_set (SetId v d) = rd_set d.
Proof. reflexivity. Qed.
Lemma rd_set_Set key x d : rd_set (Set_ key x d) = <[key := x]> (rd_set d).
Proof. reflexivity. Qed.

Lemma rd_plan_Partial b d : rd_plan (Partial b d) = rd_plan d.
Proof. reflexivity. Qed.
Lemma rd_plan_SetPartial key d : rd_plan (SetPartial key d) = rd_plan d.
Proof. reflexivity. Qed.
Lemma rd_plan_SetId v d : rd_plan (SetId v d) = rd_plan d.
Proof. reflexivity. Qed.
Lemma rd_plan_Set key x d : rd_plan (Set_ key x d) = rd_plan d.
Proof. reflexivity. Qed.

End ResourceDataFacts.

Create Rewrite HintDb resource_data.

#[global] Hint Rewrite HasChange_Partial HasChange_SetPartial HasChange_SetId HasChange_Set
  Id_Partial Id_SetPartial Id_Set Id_SetId Get_Partial Get_SetPartial Get_SetId
  rd_set_Partial rd_set_SetPartial rd_set_SetId rd_set_Set
  rd_plan_Partial rd_plan_SetPartial rd_plan_SetId rd_plan_Set : resource_data.

(** ** Reasoning about runs *)

Section Runs.
Context {W : Type}.
Implicit Types (d : ResourceData) (w : W) (t : list Event).

Local Abbreviation M := (M W).


Lemma bind_unfold {A B} (m : M A) (k : A -> M B) d w :
  bind m k d w =
  match res (m d w) with
  | Ok a =>
      mkRun (res (after (m d w) a k)) (rd (after (m d w) a k))
            (world (after (m d w) a k)) (trace (m d w) ++ trace (after (m d w) a k))
  | Fail e => mkRun (Fail e) (rd (m d w)) (world (m d w)) (trace (m d w))
  | Panic => mkRun Panic (rd (m d w)) (world (m d w)) (trace (m d w))
  end.
Proof. reflexivity. Qed.

Lemma bind_Ok {A B} (m : M A) (k : A -> M B) d w b :
  res (bind m k d w) = Ok b ->
  exists a, res (m d w) = Ok a /\ res (after (m d w) a k) = Ok b.
Proof.
  rewrite bind_unfold. destruct (res (m d w)) as [a| |]; cbn; try discriminate.
  intros H. exists a. split; [reflexivity | exact H].
Qed.

Lemma bind_run {A B} (m : M A) (k : A -> M B) d w a :
  res (m d w) = Ok a ->
  bind m k d w =
  mkRun (res (after (m d w) a k)) (rd (after (m d w) a k))
        (world (after (m d w) a k)) (trace (m d w) ++ trace (after (m d w) a k)).
Proof. intros H. rewrite bind_unfold, H. reflexivity. Qed.

(** *** What a computation logs, what it keeps *)

Lemma emits_bind {A B} P (m : M A) (k : A -> M B) :
  emits P m -> (forall a, emits P (k a)) -> emits P (bind m k).
Proof.
  intros Hm Hk d w. rewrite bind_unfold.
  destruct (res (m d w)); cbn; [|apply Hm..].
  apply Forall_app. split; [apply Hm | apply Hk].
Qed.

Lemma keeps_bind {A B} I (m : M A) (k : A -> M B) :
  keeps I m -> (forall a, keeps I (k a)) -> keeps I (bind m k).
Proof.
  intros Hm Hk d w HI. rewrite bind_unfold.
  destruct (res (m d w)); cbn; [|apply Hm, HI..].
  apply Hk, Hm, HI.
Qed.

Lemma emits_silent {A} P (m : M A) : (forall d w, trace (m d w) = []) -> emits P m.
Proof. intros H d w. rewrite H. constructor. Qed.

Lemma emits_ret {A} P (a : A) : emits P (ret a : M A).
Proof. now apply emits_silent. Qed.
Lemma emits_fail {A} P e : emits P (fail e : M A).
Proof. now apply emits_silent. Qed.
Lemma emits_panic {A} P : emits P (panic : M A).
Proof. now apply emits_silent. Qed.
Lemma emits_get_d P : emits P (get_d : M ResourceData).
Proof. now apply emits_silent. Qed.
Lemma emits_upd P f : emits P (upd f : M unit).
Proof. now apply emits_silent. Qed.
Lemma emits_deref {A} P (p : option A) : emits P (deref p : M A).
Proof. destruct p; now apply emits_silent. Qed.
Lemma emits_emit (P : Event -> Prop) e : P e -> emits P (emit e : M unit).
Proof. intros H d w. cbn. repeat constructor. exact H. Qed.
Lemma emits_setId (P : Event -> Prop) v : P (EvSetId v) -> emits P (setId v : M unit).
Proof. intros H d w. cbn. repeat constructor. exact H. Qed.
Lemma emits_when P b (m : M unit) : emits P m -> emits P (when b m).
Proof. intros H. destruct b; [exact H | apply emits_ret]. Qed.

Lemma keeps_const {A} I (m : M A) : (forall d w, rd (m d w) = d) -> keeps I m.
Proof. intros H d w HI. now rewrite H. Qed.

Lemma keeps_ret {A} I (a : A) : keeps I (ret a : M A).
Proof. now apply keeps_const. Qed.
Lemma keeps_fail {A} I e : keeps I (fail e : M A).
Proof. now apply keeps_const. Qed.
Lemma keeps_panic {A} I : keeps I (panic : M A).
Proof. now apply keeps_const. Qed.
Lemma keeps_get_d I : keeps I (get_d : M ResourceData).
Proof. now apply keeps_const. Qed.
Lemma keeps_emit I e : keeps I (emit e : M unit).
Proof. now apply keeps_const. Qed.
Lemma keeps_deref {A} I (p : option A) : keeps I (deref p : M A).
Proof. destruct p; now apply keeps_const. Qed.
Lemma keeps_upd (I : ResourceData -> Prop) f :
  (forall d, I d -> I (f d)) -> keeps I (upd f : M unit).
Proof. intros H d w HI. cbn. now apply H. Qed.
Lemma keeps_setId (I : ResourceData -> Prop) v :
  (forall d, I d -> I (SetId v d)) -> keeps I (setId v : M unit).
Proof. intros H d w HI. cbn. now apply H. Qed.
Lemma keeps_when I b (m : M unit) : keeps I m -> keeps I (when b m).
Proof. intros H. destruct b; [exact H | apply keeps_ret]. Qed.

(** *** The attempts of a retry loop *)


(** A retry loop either has no budget at all, or is a series of attempts
    that asked for a retry followed by one last attempt, whose outcome is
    the loop's: [nil], a final error, or the last retryable error when the
    time is up. *)
Lemma Retry_loop_inv {A} (f : M (Attempt A)) n last d w :
  (n = O /\ Retry_loop n last f d w = mkRun (Fail last) d w [])
  \/ exists t dl wl,
       n <> O
       /\ attempts f d w t dl wl
       /\ Retry_loop n last f d w =
          mkRun (concludes (res (f dl wl))) (rd (f dl wl)) (world (f dl wl))
                (t ++ trace (f dl wl)).
Proof.
  revert last d w. induction n as [|n IH]; intros last d w.
  - left. split; reflexivity.
  - right. cbn [Retry_loop]. rewrite bind_unfold.
    destruct (res (f d w)) as [[a|e|e]| |] eqn:Hf; unfold after.
    2: destruct (IH e (rd (f d w)) (world (f d w)))
         as [[-> Hrun] | (t & dl & wl & _ & Hatt & Hrun)].
    3: { exists (trace (f d w) ++ t)%list, dl, wl. split; [discriminate|]. split.
         - eapply attempts_again; eassumption.
         - rewrite Hrun. cbn. now rewrite app_assoc. }
    all: exists [], d, w; split; [discriminate|]; split; [constructor|];
      rewrite Hf; cbn; rewrite ?app_nil_r; reflexivity.
Qed.

(** What the attempts that asked for a retry logged. *)
Lemma attempts_retried_emits {A} (P : Event -> Prop) (f : M (Attempt A)) d w t d' w' :
  (forall d w e, res (f d w) = Ok (RetryableError e) -> Forall P (trace (f d w))) ->
  attempts f d w t d' w' -> Forall P t.
Proof.
  intros Hf. induction 1; [constructor|].
  apply Forall_app. split; [eapply Hf; eassumption | assumption].
Qed.

Lemma attempts_emits {A} P (f : M (Attempt A)) d w t d' w' :
  emits P f -> attempts f d w t d' w' -> Forall P t.
Proof. intros Hf. apply attempts_retried_emits. intros. apply Hf. Qed.

Lemma existsb_Forall_false {A} (p : A -> bool) (l : list A) :
  Forall (fun x => p x = false) l -> existsb p l = false.
Proof. induction 1 as [|x l Hx _ IH]; cbn; [reflexivity | now rewrite Hx, IH]. Qed.

Lemma Retry_loop_S {A} (f : M (Attempt A)) n last d w :
  Retry_loop (S n) last f d w =
  match res (f d w) with
  | Ok (Done a) => stopped (f d w) (Ok a)
  | Ok (RetryableError e) =>
      seq_run (f d w) (Retry_loop n e f (rd (f d w)) (world (f d w)))
  | Ok (NonRetryableError e) => stopped (f d w) (Fail e)
  | Fail e => stopped (f d w) (Fail e)
  | Panic => stopped (f d w) Panic
  end.
Proof.
  cbn [Retry_loop]. rewrite bind_unfold. unfold after, stopped, seq_run.
  destruct (res (f d w)) as [[a|e|e]| |]; cbn; rewrite ?app_nil_r; reflexivity.
Qed.

Lemma attempts_keeps {A} I (f : M (Attempt A)) d w t d' w' :
  keeps I f -> attempts f d w t d' w' -> I d -> I d'.
Proof. intros Hf. induction 1; auto. Qed.

Lemma emits_Retry_loop {A} P (f : M (Attempt A)) n last :
  emits P f -> emits P (Retry_loop n last f).
Proof.
  intros Hf d w.
  destruct (Retry_loop_inv f n last d w) as [[_ ->] | (t & dl & wl & _ & Hatt & ->)]; cbn.
  - constructor.
  - apply Forall_app. split; [eapply attempts_emits; eassumption | apply Hf].
Qed.

Lemma emits_Retry {A} P (f : M (Attempt A)) n : emits P f -> emits P (Retry n f).
Proof. apply emits_Retry_loop. Qed.

Lemma keeps_Retry_loop {A} I (f : M (Attempt A)) n last :
  keeps I f -> keeps I (Retry_loop n last f).
Proof.
  intros Hf d w HI.
  destruct (Retry_loop_inv f n last d w) as [[_ ->] | (t & dl & wl & _ & Hatt & ->)]; cbn.
  - exact HI.
  - apply Hf. eapply attempts_keeps; eassumption.
Qed.

Lemma keeps_Retry {A} I (f : M (Attempt A)) n : keeps I f -> keeps I (Retry n f).
Proof. apply keeps_Retry_loop. Qed.

End Runs.

(** ** What the vendor calls log *)

Section Calls.
Context {W : Type} (V : Vendor W) (E : Env).
Implicit Types (d : ResourceData) (w : W).

Lemma emits_call (P : Event -> Prop) a q :
  (forall r, P (EvCall a q r)) -> emits P (call V a q).
Proof.
  intros H d w. unfold call. destruct (serve V a q w) as [r w']. cbn.
  repeat constructor. apply H.
Qed.

Lemma emits_callE (P : Event -> Prop) a q :
  (forall r, P (EvCall a q r)) -> emits P (callE V a q).
Proof.
  intros H. unfold callE. apply emits_bind; [now apply emits_call|].
  intros [e|x]; [apply emits_fail | apply emits_ret].
Qed.

Lemma emits_now P : emits P (now V).
Proof. now apply emits_silent. Qed.

Lemma keeps_call I a q : keeps I (call V a q).
Proof.
  apply keeps_const. intros d w. unfold call.
  now destruct (serve V a q w).
Qed.

Lemma keeps_callE I a q : keeps I (callE V a q).
Proof.
  unfold callE. apply keeps_bind; [apply keeps_call|].
  intros [e|x]; [apply keeps_fail | apply keeps_ret].
Qed.

Lemma keeps_now I : keeps I (now V).
Proof. now apply keeps_const. Qed.

End Calls.

Ltac head_of t := lazymatch t with ?f _ => head_of f | _ => t end.

(** One rule of [emits] or [keeps]; the side conditions on single events
    and writes are left to [tac]. *)
Ltac log_step tac :=
  lazymatch goal with
  | |- emits _ (bind _ _) => apply emits_bind; [|intros ?]
  | |- emits _ (ret _) => apply emits_ret
  | |- emits _ (fail _) => apply emits_fail
  | |- emits _ panic => apply emits_panic
  | |- emits _ get_d => apply emits_get_d
  | |- emits _ (upd _) => apply emits_upd
  | |- emits _ (deref _) => apply emits_deref
  | |- emits _ (now _) => apply emits_now
  | |- emits _ (emit _) => apply emits_emit; tac
  | |- emits _ (setId _) => apply emits_setId; tac
  | |- emits ?P (call ?V ?a ?q) => apply (emits_call V P a q); intros ?; tac
  | |- emits ?P (callE ?V ?a ?q) => apply (emits_callE V P a q); intros ?; tac
  | |- emits _ (when _ _) => apply emits_when
  | |- emits _ (Retry _ _) => apply emits_Retry
  | |- emits _ (match ?x with _ => _ end) => destruct x
  | |- emits _ ?m =>
      let h := head_of m in
      lazymatch h with
      | @Retry_loop => fail
      | @collectTasks => fail
      | _ => unfold h
      end
  | |- keeps _ (bind _ _) => apply keeps_bind; [|intros ?]
  | |- keeps _ (ret _) => apply keeps_ret
  | |- keeps _ (fail _) => apply keeps_fail
  | |- keeps _ panic => apply keeps_panic
  | |- keeps _ get_d => apply keeps_get_d
  | |- keeps _ (emit _) => apply keeps_emit
  | |- keeps _ (deref _) => apply keeps_deref
  | |- keeps _ (now _) => apply keeps_now
  | |- keeps _ (upd _) => apply keeps_upd; tac
  | |- keeps _ (setId _) => apply keeps_setId; tac
  | |- keeps ?I (call ?V ?a ?q) => apply (keeps_call V I a q)
  | |- keeps ?I (callE ?V ?a ?q) => apply (keeps_callE V I a q)
  | |- keeps _ (when _ _) => apply keeps_when
  | |- keeps _ (Retry _ _) => apply keeps_Retry
  | |- keeps _ (match ?x with _ => _ end) => destruct x
  | |- keeps _ ?m =>
      let h := head_of m in
      lazymatch h with
      | @Retry_loop => fail
      | @collectTasks => fail
      | _ => unfold h
      end
  end.

Ltac log_run tac := repeat (log_step tac).

(** ** Running a handler step by step *)

Section Steps.
Context {W : Type} (V : Vendor W) (E : Env).
Implicit Types (d : ResourceData) (w : W) (t : list Event).

Local Abbreviation M := (M W).


Lemma wp_bind {A B} (m : M A) (k : A -> M B) d w Q :
  wp m d w (fun r1 =>
    match res r1 with
    | Ok a => wp (k a) (rd r1) (world r1) (fun r2 => Q (seq_run r1 r2))
    | Fail e => Q (stopped r1 (Fail e))
    | Panic => Q (stopped r1 Panic)
    end) ->
  wp (bind m k) d w Q.
Proof.
  unfold wp. rewrite bind_unfold. destruct (res (m d w)); auto.
Qed.

Lemma wp_ret {A} (a : A) d w Q : Q (mkRun (Ok a) d w []) -> wp (ret a) d w Q.
Proof. auto. Qed.
Lemma wp_fail {A} e d w (Q : Run W A -> Prop) :
  Q (mkRun (Fail e) d w []) -> wp (fail e) d w Q.
Proof. auto. Qed.
Lemma wp_panic {A} d w (Q : Run W A -> Prop) :
  Q (mkRun Panic d w []) -> wp panic d w Q.
Proof. auto. Qed.
Lemma wp_get_d d w Q : Q (mkRun (Ok d) d w []) -> wp get_d d w Q.
Proof. auto. Qed.
Lemma wp_upd f d w Q : Q (mkRun (Ok tt) (f d) w []) -> wp (upd f) d w Q.
Proof. auto. Qed.
Lemma wp_emit e d w Q : Q (mkRun (Ok tt) d w [e]) -> wp (emit e) d w Q.
Proof. auto. Qed.
Lemma wp_setId v d w Q :
  Q (mkRun (Ok tt) (SetId v d) w [EvSetId v]) -> wp (setId v) d w Q.
Proof. auto. Qed.
Lemma wp_now d w Q : Q (mkRun (Ok (clock V w)) d w []) -> wp (now V) d w Q.
Proof. auto. Qed.
Lemma wp_deref {A} (p : option A) d w Q :
  match p with
  | Some a => Q (mkRun (Ok a) d w [])
  | None => Q (mkRun Panic d w [])
  end -> wp (deref p) d w Q.
Proof. destruct p; auto. Qed.

Lemma wp_call a q d w Q :
  (forall r w', serve V a q w = (r, w') -> Q (mkRun (Ok r) d w' [EvCall a q r])) ->
  wp (call V a q) d w Q.
Proof.
  intros H. unfold wp, call. destruct (serve V a q w) as [r w'] eqn:Hs.
  now apply H.
Qed.

Lemma wp_callE a q d w Q :
  (forall r w', serve V a q w = (r, w') ->
     match r with
     | inl e => Q (mkRun (Fail e) d w' [EvCall a q r])
     | inr x => Q (mkRun (Ok x) d w' [EvCall a q r])
     end) ->
  wp (callE V a q) d w Q.
Proof.
  intros H. unfold callE. apply wp_bind, wp_call. intros r w' Hs.
  specialize (H r w' Hs). destruct r; cbn; unfold wp, seq_run, stopped; cbn; exact H.
Qed.

Lemma wp_Retry_loop {A} (f : M (Attempt A)) n last d w Q :
  (n = O -> Q (mkRun (Fail last) d w [])) ->
  (forall t dl wl, n <> O -> attempts f d w t dl wl ->
     wp f dl wl (fun r => Q (mkRun (concludes (res r)) (rd r) (world r) (t ++ trace r)))) ->
  wp (Retry_loop n last f) d w Q.
Proof.
  intros H0 H1. unfold wp.
  destruct (Retry_loop_inv f n last d w) as [[Hn ->] | (t & dl & wl & Hn & Hatt & ->)].
  - auto.
  - apply (H1 t dl wl Hn Hatt).
Qed.

(** The same, keeping that some budget was there. *)
Lemma wp_Retry_budget {A} (f : M (Attempt A)) n d w Q :
  (n = O -> Q (mkRun (Fail timeoutError) d w [])) ->
  (forall t dl wl, n <> O -> attempts f d w t dl wl ->
     wp f dl wl (fun r => Q (mkRun (concludes (res r)) (rd r) (world r) (t ++ trace r)))) ->
  wp (Retry n f) d w Q.
Proof. apply wp_Retry_loop. Qed.

Lemma wp_Retry {A} (f : M (Attempt A)) n d w Q :
  (n = O -> Q (mkRun (Fail timeoutError) d w [])) ->
  (forall t dl wl, attempts f d w t dl wl ->
     wp f dl wl (fun r => Q (mkRun (concludes (res r)) (rd r) (world r) (t ++ trace r)))) ->
  wp (Retry n f) d w Q.
Proof. intros H0 H1. apply wp_Retry_budget; [exact H0 | intros t dl wl _; apply H1]. Qed.

Lemma wp_when b (m : M unit) d w Q :
  (b = true -> wp m d w Q) -> (b = false -> Q (mkRun (Ok tt) d w [])) ->
  wp (when b m) d w Q.
Proof. unfold when. destruct b; intros H1 H2; [apply H1 | apply H2]; reflexivity. Qed.

End Steps.

Ltac wp_simpl := cbn [res rd world trace seq_run stopped concludes app] in *.

(** One step of a run. *)
Ltac wp_step :=
  lazymatch goal with
  | |- wp (bind _ _) _ _ _ => apply wp_bind
  | |- wp (ret _) _ _ _ => apply wp_ret
  | |- wp (fail _) _ _ _ => apply wp_fail
  | |- wp panic _ _ _ => apply wp_panic
  | |- wp get_d _ _ _ => apply wp_get_d
  | |- wp (upd _) _ _ _ => apply wp_upd
  | |- wp (emit _) _ _ _ => apply wp_emit
  | |- wp (setId _) _ _ _ => apply wp_setId
  | |- wp (now _) _ _ _ => apply wp_now
  | |- wp (deref ?p) _ _ _ => apply wp_deref; destruct p eqn:?
  | |- wp (call ?V ?a ?q) _ _ _ =>
      let r := fresh "reply" in let w' := fresh "w" in let H := fresh "Hserve" in
      apply (wp_call V a q); intros r w' H
  | |- wp (callE ?V ?a ?q) _ _ _ =>
      let r := fresh "reply" in let w' := fresh "w" in let H := fresh "Hserve" in
      apply (wp_callE V a q); intros r w' H; destruct r
  | |- wp (when ?b _) _ _ _ =>
      let H := fresh "Hwhen" in apply wp_when; intros H
  | |- wp (Retry _ _) _ _ _ =>
      let t := fresh "t" in let dl := fresh "dl" in let wl := fresh "wl" in
      let H := fresh "Hatt" in
      apply wp_Retry; [intros ?Hbudget | intros t dl wl H]
  | |- wp (match ?x with _ => _ end) _ _ _ => destruct x eqn:?
  | |- wp (let '(_, _) := ?x in _) _ _ _ => destruct x eqn:?
  | |- wp (check_immutable _ _) _ _ _ => progress cbn [check_immutable]
  | |- wp ?m _ _ _ =>
      let h := head_of m in
      lazymatch h with
      | @Retry_loop => fail
      | @collectTasks => fail
      | _ => unfold h
      end
  | |- context [retryError ?E ?e ?c] =>
      unfold retryError; destruct (retryable E e c) eqn:?
  end; wp_simpl.

Ltac wp_run := repeat wp_step.

(** ** Composite identifiers of the mariadb security groups *)

Section CompositeId.
Context {W : Type} (V : Vendor W) (E : Env).

Lemma mariadb_Read_Ok_id d w :
  wp (Read V E MariadbSecurityGroups) d w (fun r => res r = Ok tt -> Id (rd r) = Id d).
Proof.
  cbn [Read]. unfold resourceTencentCloudMariadbSecurityGroupsRead.
  wp_run; try discriminate; reflexivity.
Qed.

Lemma mariadb_Create_Ok_id d w :
  wp (Create V E MariadbSecurityGroups) d w
     (fun r => res r = Ok tt -> Id (rd r) = composite_id d).
Proof.
  cbn [Create]. unfold resourceTencentCloudMariadbSecurityGroupsCreate.
  wp_run; intros; try discriminate; reflexivity.
Qed.

(** C7: a Create of the mariadb security groups that succeeds has stored the
    identifier [instanceId#securityGroupId#product]; Read, Update and Delete
    on an identifier that does not split into exactly three parts at [#]
    fail with "id is broken" and have issued no vendor call. *)
Theorem mariadb_composite_id_checked d w :
  (res (Create V E MariadbSecurityGroups d w) = Ok tt ->
   Id (rd (Create V E MariadbSecurityGroups d w)) = composite_id d)
  /\ (length (Split (Id d) FILED_SP_char) <> 3%nat ->
      rejects_broken_id (Read V E MariadbSecurityGroups) d w
      /\ rejects_broken_id (Update V E MariadbSecurityGroups) d w
      /\ rejects_broken_id (Delete V E MariadbSecurityGroups) d w).
Proof.
  split; [apply mariadb_Create_Ok_id|].
  intros Hlen.
  assert (Hbroken : forall m : M W unit,
             (m = Read V E MariadbSecurityGroups \/ m = Update V E MariadbSecurityGroups
              \/ m = Delete V E MariadbSecurityGroups) ->
             rejects_broken_id m d w).
  { intros m Hm. change (wp m d w (fun r =>
      res r = Fail (Errorf ("id is broken," +:+ Id d)) /\ calls (trace r) = [])).
    destruct Hm as [-> | [-> | ->]]; cbn [Read Update Delete].
    all: repeat first
           [ solve [split; reflexivity]
           | solve [subst; cbn in Hlen; congruence]
           | wp_step ]. }
  repeat split; apply Hbroken; auto.
Qed.

End CompositeId.

Lemma mariadb_composite_id_checked_witness :
  let d := Demo.planned "" (<["instance_id" := VString "tdsql-4pzs5b67"]>
                           (<["security_group_id" := VString "sg-7kpsbxdb"]>
                           (<["product" := VString "mariadb"]> ∅))) in
  Id (rd (Create Demo.vendor Demo.env MariadbSecurityGroups d 0%nat))
  = "tdsql-4pzs5b67#sg-7kpsbxdb#mariadb"
  /\ rejects_broken_id (Read Demo.vendor Demo.env MariadbSecurityGroups)
                       (Demo.planned "tdsql-4pzs5b67" ∅) 0%nat.
Proof.
  split.
  - refine (eq_trans
              (proj1 (mariadb_composite_id_checked Demo.vendor Demo.env _ 0%nat) _) _);
      vm_compute; reflexivity.
  - apply (proj2 (mariadb_composite_id_checked Demo.vendor Demo.env
                    (Demo.planned "tdsql-4pzs5b67" ∅) 0%nat)).
    vm_compute. discriminate.
Defined.

(** ** The identifiers of the dbbrain export tasks *)

Section Dbbrain.
Context {W : Type} (V : Vendor W) (E : Env).
Implicit Types (d : ResourceData) (w : W).

Lemma attempts_first_final {A} (f : M W (Attempt A)) d w t dl wl :
  (forall e, res (f d w) <> Ok (RetryableError e)) ->
  attempts f d w t dl wl -> t = [] /\ dl = d /\ wl = w.
Proof.
  intros Hf Hatt. destruct Hatt as [|d w e t d' w' Hres _]; [auto|].
  exfalso. exact (Hf e Hres).
Qed.

Lemma collectTasks_run sag tasks ids taskList d w :
  let r := collectTasks E sag tasks ids taskList d w in
  rd r = d /\ world r = w /\ trace r = []
  /\ (res r = Panic <-> Exists (fun t => dbbrain.AsyncRequestId t = None) tasks)
  /\ (res r <> Panic -> exists x, res r = Ok x).
Proof.
  revert ids taskList. induction tasks as [|task rest IH]; intros ids taskList; cbn.
  - repeat split; try discriminate; eauto. intros H; inversion H.
  - rewrite bind_unfold. destruct (dbbrain.AsyncRequestId task) as [n|] eqn:Hid; cbn.
    + unfold after; cbn.
      destruct (IH (ids ++ [sag +:+ FILED_SP +:+ UInt64ToStr E n])%list
                   (taskList ++ [taskMap_of task])%list) as (Hd & Hw & Ht & Hp & Ho).
      repeat split; try assumption.
      * intros H. right. now apply Hp.
      * intros H. apply Hp. inversion H; subst; [congruence | assumption].
    + repeat split; try reflexivity; try congruence.
      intros _. now left.
Qed.

(** C9: when the query of the export tasks is answered with a list of tasks,
    the Read of the data source panics on a nil pointer exactly when some
    task comes without [AsyncRequestId]: that field is dereferenced without
    a guard, every other field is only copied under [!= nil]. *)
Theorem dbbrain_read_defined_iff_ids d w w' tasks :
  (0 < readRetryTimeout E)%nat ->
  serve V DescribeDbbrainSecurityAuditLogExportTasksByFilter (dbbrainParamMap d) w
  = (inr (Some tasks), w') ->
  res (dataSourceTencentCloudDbbrainSecurityAuditLogExportTasksRead V E d w) = Panic
  <-> Exists (fun t => dbbrain.AsyncRequestId t = None) tasks.
Proof.
  intros Hn Hs.
  change (wp (dataSourceTencentCloudDbbrainSecurityAuditLogExportTasksRead V E) d w
             (fun r => res r = Panic
                       <-> Exists (fun t => dbbrain.AsyncRequestId t = None) tasks)).
  unfold dataSourceTencentCloudDbbrainSecurityAuditLogExportTasksRead.
  wp_step. wp_step. wp_step. apply wp_Retry; [lia|]. intros t dl wl Hatt.
  apply attempts_first_final in Hatt as (-> & -> & ->).
  2:{ intros e. rewrite bind_unfold. unfold call. rewrite Hs. cbn. discriminate. }
  wp_step. wp_step. rewrite Hs in Hserve. injection Hserve as <- <-.
  wp_step. wp_step. wp_step.
  unfold wp at 1.
  destruct (collectTasks_run (default "" (GetOkString d "sec_audit_group_id"))
              tasks [] [] d w') as (Hd & Hw & Ht & Hp & Ho).
  destruct (res (collectTasks E _ tasks [] [] d w')) as [[ids taskList]|e|] eqn:Hres.
  - wp_run; (split; [discriminate | intros Hex; apply Hp in Hex; discriminate]).
  - destruct Ho as [x Hx]; discriminate.
  - split; [intros _; now apply Hp | reflexivity].
Qed.
End Dbbrain.

Lemma dbbrain_read_defined_iff_ids_witness :
  res (dataSourceTencentCloudDbbrainSecurityAuditLogExportTasksRead
         Demo.vendor Demo.env (Demo.planned "" ∅) 0%nat) = Panic
  <-> Exists (fun t => dbbrain.AsyncRequestId t = None) [Demo.task].
Proof.
  apply (dbbrain_read_defined_iff_ids Demo.vendor Demo.env (Demo.planned "" ∅) 0%nat 1%nat).
  - vm_compute. lia.
  - reflexivity.
Defined.

(** ** Read of an object that is gone *)

Section ReadAbsent.
Context {W : Type} (V : Vendor W) (E : Env).
Implicit Types (d : ResourceData) (w : W).

Ltac absent_reply H :=
  match goal with
  | Hs : serve _ _ _ _ = _ |- _ => rewrite Hs in H; cbn in H; try discriminate H
  end.

(** C1, as the code has it: when the remote object is absent, Read clears
    the identifier; it then returns [nil] for the cfs snapshot, the tsf
    application config, the eip and the vpn gateway, and returns a "does not
    exist" error for the mariadb security groups. *)
Theorem read_absent_clears_id r d w :
  remote_absent V E r d w ->
  if decide (r = MariadbSecurityGroups)
  then cleared_with_error (Read V E r d w)
  else cleared_without_error (Read V E r d w).
Proof.
  intros H. destruct r; cbn [decide_rel resource_eq_dec]; cbn in H |- *.
  - change (wp (resourceTencentCloudCfsSnapshotRead V E) d w cleared_without_error).
    unfold resourceTencentCloudCfsSnapshotRead. wp_run; absent_reply H.
    split; reflexivity.
  - change (wp (resourceTencentCloudMariadbSecurityGroupsRead V) d w cleared_with_error).
    unfold resourceTencentCloudMariadbSecurityGroupsRead.
    wp_run; try contradiction; absent_reply H.
    split; [reflexivity | eexists; reflexivity].
  - change (wp (resourceTencentCloudTsfApplicationConfigRead V) d w cleared_without_error).
    unfold resourceTencentCloudTsfApplicationConfigRead. wp_run; absent_reply H.
    split; reflexivity.
  - destruct H as [Hn H].
    change (wp (resourceTencentCloudEipRead V E) d w cleared_without_error).
    unfold resourceTencentCloudEipRead.
    wp_step. wp_step. wp_step. wp_step. wp_step.
    apply wp_Retry; [lia|]. intros t dl wl Hatt.
    apply attempts_first_final in Hatt as (-> & -> & ->).
    2:{ intros e. rewrite bind_unfold. unfold call.
        destruct (serve V DescribeEipById (Id d) w) as [reply w'].
        cbn in H. subst reply. cbn. discriminate. }
    wp_run; absent_reply H.
    split; reflexivity.
  - change (wp (resourceTencentCloudVpnGatewayRead V E) d w cleared_without_error).
    unfold resourceTencentCloudVpnGatewayRead. wp_run; absent_reply H.
    split; reflexivity.
Qed.

End ReadAbsent.

Lemma read_absent_clears_id_witness :
  cleared_without_error
    (Read Demo.vendor_gone Demo.env Eip (Demo.planned "eip-nyvf60va" ∅) 0%nat)
  /\ cleared_with_error
       (Read Demo.vendor_gone Demo.env MariadbSecurityGroups
             (Demo.planned "tdsql-4pzs5b67#sg-7kpsbxdb#mariadb" ∅) 0%nat).
Proof.
  split.
  - apply (read_absent_clears_id Demo.vendor_gone Demo.env Eip
             (Demo.planned "eip-nyvf60va" ∅) 0%nat).
    split; [vm_compute; lia | reflexivity].
  - apply (read_absent_clears_id Demo.vendor_gone Demo.env MariadbSecurityGroups
             (Demo.planned "tdsql-4pzs5b67#sg-7kpsbxdb#mariadb" ∅) 0%nat).
    reflexivity.
Defined.

(** The mariadb security groups are gone remotely: Read clears the
    identifier and returns an error, not [nil]. *)
Lemma read_absent_mariadb_returns_error :
  let d := Demo.planned "tdsql-4pzs5b67#sg-7kpsbxdb#mariadb" ∅ in
  remote_absent Demo.vendor_gone Demo.env MariadbSecurityGroups d 0%nat
  /\ ~ cleared_without_error (Read Demo.vendor_gone Demo.env MariadbSecurityGroups d 0%nat).
Proof.
  split; [reflexivity|]. intros [H _]. vm_compute in H. discriminate H.
Qed.

(** ** Update of an immutable attribute *)

Section UpdateImmutable.
Context {W : Type} (V : Vendor W) (E : Env).
Implicit Types (d : ResourceData) (w : W).

Ltac changed_key Hk H :=
  autorewrite with resource_data in *;
  cbn in Hk; repeat (destruct Hk as [<- | Hk]; [congruence|]); contradiction.

Ltac fails_fast Hk H :=
  repeat first [ solve [changed_key Hk H]
               | solve [split; [exact I | reflexivity]]
               | wp_step ].

(** An Update that finds a change of an attribute it checks first fails and
    has called nothing. *)
Lemma update_checked_first_fails_fast r d w key :
  In key (checked_first r) -> HasChange d key = true ->
  failed_without_call (Update V E r d w).
Proof.
  intros Hk H. destruct r; cbn [checked_first immutable] in Hk.
  - contradiction.
  - change (wp (resourceTencentCloudMariadbSecurityGroupsUpdate V E) d w failed_without_call).
    unfold resourceTencentCloudMariadbSecurityGroupsUpdate. fails_fast Hk H.
  - change (wp (resourceTencentCloudTsfApplicationConfigUpdate V) d w failed_without_call).
    unfold resourceTencentCloudTsfApplicationConfigUpdate, tsf_immutableArgs in *.
    cbn [check_immutable]. fails_fast Hk H.
  - change (wp (resourceTencentCloudEipUpdate V E) d w failed_without_call).
    unfold resourceTencentCloudEipUpdate. cbn [check_immutable]. fails_fast Hk H.
  - change (wp (resourceTencentCloudVpnGatewayUpdate V E) d w failed_without_call).
    unfold resourceTencentCloudVpnGatewayUpdate. cbn [check_immutable]. fails_fast Hk H.
Qed.

End UpdateImmutable.

Lemma update_checked_first_fails_fast_witness :
  failed_without_call
    (Update Demo.vendor Demo.env TsfApplicationConfig
       (Demo.changing "dcfg-y4e3zngv" (<["config_value" := VString "a"]> ∅)
                      (<["config_value" := VString "b"]> ∅)) 0%nat).
Proof.
  apply (update_checked_first_fails_fast Demo.vendor Demo.env TsfApplicationConfig
           _ 0%nat "config_value").
  - vm_compute. tauto.
  - vm_compute. reflexivity.
Defined.

(** C2 at the vpn gateway: [cdc_id] is immutable and changes together with
    [name]; Update renames the gateway remotely and only then returns the
    error for [cdc_id]. *)
Theorem vpn_update_modifies_before_rejecting_cdc_id :
  let d := Demo.changing "vpngw-8ccsnclt"
             (<["name" := VString "a"]> ∅)
             (<["cdc_id" := VString "cdc-1"]> (<["name" := VString "b"]> ∅)) in
  let run := Update Demo.vendor Demo.env VpnGateway d 0%nat in
  In "cdc_id" (immutable VpnGateway)
  /\ HasChange d "cdc_id" = true
  /\ res run = Fail (Errorf "cdc_id and max_connection do not support change now.")
  /\ calls (trace run)
     = [EvCall ModifyVpnGatewayAttribute
               {| vpc.MVpnGatewayId := Some "vpngw-8ccsnclt";
                  vpc.MVpnGatewayName := Some "b";
                  vpc.MInstanceChargeType := None |}
               (inr tt)]
  /\ ~ failed_without_call run.
Proof.
  cbv zeta. split; [cbn; tauto|]. split; [vm_compute; reflexivity|].
  split; [vm_compute; reflexivity|]. split; [vm_compute; reflexivity|].
  intros [_ H]. vm_compute in H. discriminate H.
Qed.

(** ** Facts about the attempts of a run *)

(** For every series of attempts in the context, what the attempts that
    asked for a retry logged: from what the retried function logs in any
    run, or else from its runs that ask for a retry. *)
Ltac retried_logs P :=
  repeat match goal with
  | Hatt : attempts ?f ?d ?w ?t ?dl ?wl |- _ =>
      lazymatch goal with
      | _ : Forall P t |- _ => fail
      | _ => idtac
      end;
      assert (Forall P t)
        by first
             [ refine (attempts_emits P f d w t dl wl _ Hatt);
               solve [log_run ltac:(reflexivity)]
             | refine (attempts_retried_emits P f d w t dl wl _ Hatt);
               let d' := fresh in let w' := fresh in let e' := fresh in
               intros d' w' e';
               change (wp f d' w'
                         (fun r => res r = Ok (RetryableError e') -> Forall P (trace r)));
               wp_run; intros; try discriminate; repeat constructor ]
  end.

Ltac no_event p H :=
  repeat first [rewrite existsb_app in H | progress cbn [existsb] in H];
  repeat match goal with
  | F : Forall (fun e => p e = false) ?t |- _ =>
      rewrite (existsb_Forall_false p t F) in H
  end;
  cbn in H.

(** The retried functions do not write to the resource data. *)
Ltac same_data :=
  repeat match goal with
  | Hatt : attempts ?f ?d ?w ?t ?dl ?wl |- _ =>
      is_var dl;
      assert (dl = d)
        by (refine (attempts_keeps (fun x => x = d) f d w t dl wl _ Hatt eq_refl);
            solve [log_run ltac:(idtac)]);
      subst dl
  end.

Ltac find_event :=
  repeat first [rewrite Exists_app | rewrite Exists_cons]; cbn; naive_solver.

(** ** Delete of a vpn gateway *)

Section VpnDelete.
Context {W : Type} (V : Vendor W) (E : Env).
Implicit Types (d : ResourceData) (w : W).

Lemma vpnDeleteCcnCheck_attached g d w :
  vpc.Type_ g = Some GATE_WAY_TYPE_CCN ->
  (exists nid, vpc.NetworkInstanceId g = Some nid /\ nid <> "") ->
  exists e, vpnDeleteCcnCheck g d w = mkRun (Ok (NonRetryableError e)) d w [].
Proof.
  intros Hty (nid & Hnid & Hne). unfold vpnDeleteCcnCheck.
  rewrite Hty, Hnid. cbn. rewrite bool_decide_true by reflexivity. cbn.
  rewrite bool_decide_true by assumption. eexists. reflexivity.
Qed.

Lemma vpnDeleteGatewayCheck_refuses g d w :
  prepaid_unexpired E (clock V w) g \/ ccn_attached g ->
  exists e, vpnDeleteGatewayCheck V E g d w = mkRun (Ok (NonRetryableError e)) d w [].
Proof.
  unfold vpnDeleteGatewayCheck.
  intros [(Hct & ex & t & Hex & Hne & Hparse & Hlt) | (Hty & Hnid & Hwf)].
  - rewrite Hex, Hct. cbn. rewrite bool_decide_true by reflexivity.
    rewrite bool_decide_true by assumption. rewrite Hparse. cbn.
    rewrite bool_decide_true by lia. eexists. reflexivity.
  - destruct (vpnDeleteCcnCheck_attached g d w Hty Hnid) as [e0 He0].
    destruct (vpc.ExpiredTime g) as [ex|]; [|eauto].
    destruct Hwf as [|Hwf]; [discriminate|].
    destruct (vpc.InstanceChargeType g) as [ct|]; [|congruence]. cbn.
    destruct (bool_decide (ct = VPN_CHARGE_TYPE_PREPAID));
      [|rewrite He0; eexists; reflexivity].
    destruct (bool_decide (ex <> "0000-00-00 00:00:00"));
      [|rewrite He0; eexists; reflexivity].
    destruct (time_Parse E ex) as [t|]; [|eexists; reflexivity]. cbn.
    destruct (bool_decide (0 < t - clock V w)); [eexists; reflexivity|].
    rewrite He0; eexists; reflexivity.
Qed.

Lemma vpnDeleteFirstCheck_run id d w reply w' :
  serve V DescribeVpnGateways [id] w = (reply, w') ->
  vpnDeleteFirstCheck V E id d w =
  seq_run (mkRun (Ok reply) d w' [EvCall DescribeVpnGateways [id] reply])
    match reply with
    | inl e => mkRun (Ok (retryError E e [])) d w' []
    | inr [] => mkRun (Ok (Done tt)) d w' []
    | inr (g :: _) => vpnDeleteGatewayCheck V E g d w'
    end.
Proof.
  intros Hs. unfold vpnDeleteFirstCheck. rewrite bind_unfold. unfold call at 1 2 3 4 5.
  rewrite Hs. cbn. unfold after, call, seq_run. rewrite Hs. cbn.
  destruct reply as [e|[|g gs]]; reflexivity.
Qed.

Lemma first_check_refuses id g gs d w w' :
  answered V E DescribeVpnGateways [id] w (g :: gs) w' ->
  prepaid_unexpired E (clock V w') g \/ ccn_attached g ->
  forall n last,
    let r := Retry_loop n last (vpnDeleteFirstCheck V E id) d w in
    is_Fail (res r) /\ never_called DeleteVpnGateway (trace r).
Proof.
  intros Hans Hblocked.
  remember (g :: gs) as x eqn:Hx.
  induction Hans as [w x w' Hs | w e w1 x w' Hs Hretry _ IH]; intros n last; subst x;
    (destruct n as [|n]; [split; [exact I | constructor]|]);
    cbv zeta; rewrite Retry_loop_S, (vpnDeleteFirstCheck_run _ _ _ _ _ Hs).
  - destruct (vpnDeleteGatewayCheck_refuses g d w' Hblocked) as [e ->]. cbn.
    split; [exact I | repeat constructor].
  - cbn. unfold retryError. rewrite Hretry. cbn.
    destruct (IH eq_refl Hblocked n e) as [Hfail Hno].
    split; [exact Hfail|]. constructor; [reflexivity | exact Hno].
Qed.

Lemma vpn_delete_refuses_blocked d w g gs w' :
  answered V E DescribeVpnGateways [Id d] w (g :: gs) w' ->
  prepaid_unexpired E (clock V w') g \/ ccn_attached g ->
  refused_to_delete (Delete V E VpnGateway d w).
Proof.
  intros Hans Hblocked. cbn [Delete].
  change (wp (resourceTencentCloudVpnGatewayDelete V E) d w refused_to_delete).
  unfold resourceTencentCloudVpnGatewayDelete. wp_step. wp_step. wp_step.
  unfold wp at 1, Retry.
  destruct (first_check_refuses (Id d) g gs d w w' Hans Hblocked
              (readRetryTimeout E) timeoutError) as [Hfail Hno].
  destruct (res (Retry_loop _ _ _ d w)); try contradiction.
  split; [exact I | exact Hno].
Qed.

Lemma vpn_delete_refuses_tunnel d w :
  wp (Delete V E VpnGateway) d w (fun run =>
    existsb tunnel_found (trace run) = true -> refused_to_delete run).
Proof.
  cbn [Delete]. wp_run.
  all: retried_logs (fun e => tunnel_found e = false).
  all: intros Hex; no_event tunnel_found Hex; try discriminate Hex.
  all: retried_logs (fun e => called DeleteVpnGateway e = false).
  all: split; [exact I|]; unfold never_called; cbn; rewrite ?Forall_app;
       repeat split; try assumption; repeat constructor.
Qed.

(** C10: Delete of a vpn gateway does not issue [DeleteVpnGateway] and
    returns an error when the gateway it is shown is prepaid and not yet
    expired, when that gateway is of CCN type and attached to a network
    instance, and when the query of its tunnels finds one. *)
Theorem vpn_delete_guarded d w :
  (forall g gs w',
      answered V E DescribeVpnGateways [Id d] w (g :: gs) w' ->
      prepaid_unexpired E (clock V w') g \/ ccn_attached g ->
      refused_to_delete (Delete V E VpnGateway d w))
  /\ (existsb tunnel_found (trace (Delete V E VpnGateway d w)) = true ->
      refused_to_delete (Delete V E VpnGateway d w)).
Proof.
  split.
  - intros g gs w'. apply vpn_delete_refuses_blocked.
  - apply vpn_delete_refuses_tunnel.
Qed.

End VpnDelete.

Lemma vpn_delete_guarded_witness :
  let d := Demo.planned "vpngw-8ccsnclt" ∅ in
  refused_to_delete (Delete Demo.vendor_prepaid Demo.env VpnGateway d 0%nat)
  /\ refused_to_delete (Delete Demo.vendor_ccn Demo.env VpnGateway d 0%nat)
  /\ refused_to_delete (Delete Demo.vendor_tunnel Demo.env VpnGateway d 0%nat).
Proof.
  cbv zeta. repeat split.
  - apply (proj1 (vpn_delete_guarded Demo.vendor_prepaid Demo.env
                    (Demo.planned "vpngw-8ccsnclt" ∅) 0%nat)
             Demo.gateway_prepaid [] 1%nat).
    + apply answered_now. reflexivity.
    + left. split; [reflexivity|].
      exists "2030-01-01 00:00:00", 1000.
      split; [reflexivity|]. split; [discriminate|]. split; [reflexivity|].
      vm_compute. reflexivity.
  - apply (proj1 (vpn_delete_guarded Demo.vendor_ccn Demo.env
                    (Demo.planned "vpngw-8ccsnclt" ∅) 0%nat)
             Demo.gateway_ccn [] 1%nat).
    + apply answered_now. reflexivity.
    + right. split; [reflexivity|]. split; [|left; reflexivity].
      exists "ccn-afp6kltc". split; [reflexivity | discriminate].
  - apply (proj2 (vpn_delete_guarded Demo.vendor_tunnel Demo.env
                    (Demo.planned "vpngw-8ccsnclt" ∅) 0%nat)).
    vm_compute. reflexivity.
Defined.

(** ** Delete and the absence of the remote object *)

Ltac bools :=
  repeat (case_bool_decide; try congruence);
  cbn [andb orb negb]; rewrite ?orb_true_r, ?orb_true_l; try reflexivity.

Ltac has_event :=
  rewrite ?existsb_app; cbn [existsb called succeeded]; bools.

Ltac last_event :=
  repeat first [rewrite last_snoc | rewrite last_app | rewrite last_cons]; cbn [last].

Section DeleteAbsent.
Context {W : Type} (V : Vendor W) (E : Env).
Implicit Types (d : ResourceData) (w : W).

Ltac delete_done :=
  unfold deleted_as_coded, delete_issued, confirmed_absent, never_called;
  cbn [polls_after_delete delete_api describe_api res trace seq_run stopped];
  split;
  [ intros Hok; first [discriminate Hok | has_event]
  | first [ intros Hok;
            first [ discriminate Hok
                  | eexists; split; [last_event; reflexivity | cbn; bools] ]
          | repeat constructor ] ].

(** C5, as the code has it: a Delete that returns [nil] has issued the
    delete call with success; for the cfs snapshot, the eip and the vpn
    gateway the last thing it did was to see the object gone; for the
    mariadb security groups and the tsf application config it never
    describes the object. *)
Theorem delete_polls_or_returns r d w :
  deleted_as_coded E r (Delete V E r d w).
Proof.
  change (wp (Delete V E r) d w (deleted_as_coded E r)).
  destruct r; cbn [Delete]; wp_run; delete_done.
Qed.

End DeleteAbsent.

Lemma delete_polls_or_returns_witness :
  confirmed_absent Demo.env Eip
    (Delete Demo.vendor_gone Demo.env Eip (Demo.planned "eip-nyvf60va" ∅) 0%nat).
Proof.
  apply (proj2 (delete_polls_or_returns Demo.vendor_gone Demo.env Eip
                  (Demo.planned "eip-nyvf60va" ∅) 0%nat)).
  reflexivity.
Defined.

(** The delete call of the mariadb security groups succeeds while the
    vendor still shows them: Delete returns [nil] without having looked. *)
Lemma delete_mariadb_returns_while_visible :
  let d := Demo.planned "tdsql-4pzs5b67#sg-7kpsbxdb#mariadb" ∅ in
  let run := Delete Demo.vendor_lagging Demo.env MariadbSecurityGroups d 0%nat in
  res run = Ok tt
  /\ ~ confirmed_absent Demo.env MariadbSecurityGroups run
  /\ (serve Demo.vendor_lagging DescribeMariadbSecurityGroup
            ("tdsql-4pzs5b67", "sg-7kpsbxdb", "mariadb") (world run)).1
     = inr (Some {| mariadb.GSecurityGroupId := Some "sg-7kpsbxdb" |}).
Proof.
  cbv zeta. split; [reflexivity|]. split; [|reflexivity].
  intros (e & Hlast & Hobs). vm_compute in Hlast. injection Hlast as <-.
  vm_compute in Hobs. discriminate Hobs.
Qed.

(** ** Create and the tags *)

Section CreateTags.
Context {W : Type} (V : Vendor W) (E : Env).
Implicit Types (d : ResourceData) (w : W).

Ltac tags_done :=
  retried_logs (fun e => tag_failed e = false);
  intros Hex; no_event tag_failed Hex; try discriminate Hex;
  unfold failed_at_tags_with_id; cbn [res rd trace seq_run stopped];
  (split; [do 2 eexists; split; [last_event; reflexivity | reflexivity]|]);
  same_data; find_event.

(** C6: when the tag assignment of a Create fails, Create returns that
    error, and the identifier stored in the resource data is still the one
    the create call handed out. *)
Theorem create_tag_failure_keeps_id r d w :
  existsb tag_failed (trace (Create V E r d w)) = true ->
  failed_at_tags_with_id (Create V E r d w).
Proof.
  change (wp (Create V E r) d w (fun run =>
            existsb tag_failed (trace run) = true -> failed_at_tags_with_id run)).
  destruct r; cbn [Create]; wp_run; tags_done.
Qed.

End CreateTags.

Lemma create_tag_failure_keeps_id_witness :
  let d := Demo.planned "" (<["tags" := VMap {[ "createdBy" := "terraform" ]}]>
                           (<["file_system_id" := VString "cfs-iobiaxtj"]> ∅)) in
  failed_at_tags_with_id (Create Demo.vendor_tags_fail Demo.env CfsSnapshot d 0%nat)
  /\ Id (rd (Create Demo.vendor_tags_fail Demo.env CfsSnapshot d 0%nat)) = "res-1".
Proof.
  cbv zeta. split.
  - apply (create_tag_failure_keeps_id Demo.vendor_tags_fail Demo.env CfsSnapshot).
    vm_compute. reflexivity.
  - vm_compute. reflexivity.
Defined.

(** ** What Read writes *)

Ltac in_list := cbn; repeat first [left; reflexivity | right].

Section ReadShown.
Context {W : Type} (V : Vendor W) (E : Env).
Implicit Types (d : ResourceData) (w : W).

(** The attributes written for what Read was shown, against the lists of
    the resource. *)
Lemma writes_listed o :
  incl (always_read (remote_of o)) (map fst (writes o))
  /\ incl (map fst (writes o)) (read_attributes (remote_of o))
  /\ (forall key, In key (never_read (remote_of o)) ->
        In key (schema (remote_of o)) /\ ~ In key (map fst (writes o))).
Proof.
  destruct o as [s t|i sg p|c|a t bgp|g t];
    cbn [remote_of writes always_read read_attributes never_read schema];
    unfold guarded; repeat case_bool_decide; try destruct bgp;
    cbn [app map fst];
    (split;
     [ intros k Hk; cbn in Hk; repeat (destruct Hk as [<- | Hk]; [in_list|]); contradiction
     | split;
       [ intros k Hk; cbn in Hk; repeat (destruct Hk as [<- | Hk]; [in_list|]); contradiction
       | intros key Hk; cbn in Hk;
         repeat (destruct Hk as [<- | Hk]; [split; [in_list | cbn; intuition discriminate]|]);
         contradiction ] ]).
Qed.

(** The object Read was shown, from the replies in the log of the goal. *)
Ltac shown_object :=
  lazymatch goal with
  | |- read_what_shown _ CfsSnapshot _ ?run =>
      match run with
      | context [EvCall DescribeCfsSnapshotById _ (inr (Some ?s))] =>
          match run with
          | context [EvCall DescribeResourceTags _ (inr ?t)] => exists (SeenCfs s t)
          end
      end
  | |- read_what_shown _ MariadbSecurityGroups _ _ =>
      match goal with
      | H : Split _ _ = [?i; ?s; ?p] |- _ => exists (SeenMariadb i s p)
      end
  | |- read_what_shown _ TsfApplicationConfig _ ?run =>
      match run with
      | context [EvCall DescribeTsfApplicationConfigById _ (inr (Some ?c))] =>
          exists (SeenTsf c)
      end
  | |- read_what_shown _ Eip _ ?run =>
      match run with
      | context [EvCall DescribeEipById _ (inr (Some ?a))] =>
          match run with
          | context [EvCall DescribeResourceTags _ (inr ?t)] =>
              match run with
              | context [EvCall DescribeVpcBandwidthPackageByEip _ (inr ?b)] =>
                  exists (SeenEip a t b)
              end
          end
      end
  | |- read_what_shown _ VpnGateway _ ?run =>
      match run with
      | context [EvCall DescribeVpngwById _ (inr (Some ?g))] =>
          match run with
          | context [EvCall DescribeResourceTags _ (inr ?t)] => exists (SeenVpn g t)
          end
      end
  end.

Ltac in_log :=
  repeat first [rewrite in_app_iff | progress cbn [In]]; intuition (auto; congruence).

(** A Read that succeeds and finds the object: what it has written, and
    that it has kept the identifier. *)
Lemma Read_found r d w :
  res (Read V E r d w) = Ok tt ->
  existsb cleared (trace (Read V E r d w)) = false ->
  read_what_shown E r d (Read V E r d w) /\ Id (rd (Read V E r d w)) = Id d.
Proof.
  change (wp (Read V E r) d w (fun run =>
    res run = Ok tt -> existsb cleared (trace run) = false ->
    read_what_shown E r d run /\ Id (rd run) = Id d)).
  destruct r; cbn [Read]; wp_run.
  all: same_data.
  all: intros Hok Hfound; try discriminate Hok.
  all: try (exfalso;
            repeat first [rewrite existsb_app in Hfound
                         | progress cbn [existsb] in Hfound];
            cbn in Hfound; rewrite ?orb_true_r in Hfound; discriminate Hfound).
  all: clear Hok Hfound.
  all: split; [|cbn [rd]; autorewrite with resource_data; reflexivity].
  all: shown_object.
  all: cbn [res rd world trace seq_run stopped app].
  all: split; [reflexivity|].
  all: split; [cbn [shown]; repeat split; try eexists; first [assumption | congruence | in_log]|].
  all: split; [|match goal with
                 | |- incl _ (map fst (writes ?o)) /\ _ => exact (writes_listed o)
                 end].
  all: autorewrite with resource_data; unfold store, writes, guarded.
  all: repeat match goal with
              | H : bool_decide _ = _ |- _ => rewrite H
              | H : vpc.InternetMaxBandwidthOut _ = Some _ |- _ => rewrite H
              end.
  all: reflexivity.
Qed.

(** C4, as the code has it: a Read that succeeds and finds the object has
    written exactly what the vendor showed it for the identifier, attribute
    by attribute and value by value: those guarded by [!= nil] when the
    field is there and only then, the others always; for the mariadb
    security groups the three parts of the identifier. Some attributes of
    the schemas of the tsf application config, the eip and the vpn gateway
    are never among them. *)
Theorem read_writes_what_it_reads r d w :
  res (Read V E r d w) = Ok tt ->
  existsb cleared (trace (Read V E r d w)) = false ->
  read_what_shown E r d (Read V E r d w).
Proof. intros Hok Hfound. exact (proj1 (Read_found r d w Hok Hfound)). Qed.

End ReadShown.

Lemma read_writes_what_it_reads_witness :
  let d := Demo.planned "dcfg-y4e3zngv" ∅ in
  let e := Demo.planned "eip-ek0cdz1g" ∅ in
  read_what_shown Demo.env TsfApplicationConfig d
    (Read Demo.vendor Demo.env TsfApplicationConfig d 0%nat)
  /\ read_what_shown Demo.env Eip e (Read Demo.vendor Demo.env Eip e 0%nat).
Proof.
  cbv zeta. split; apply read_writes_what_it_reads; reflexivity.
Defined.

(** The configuration of the example in the documentation of the tsf
    application config: after Create and Read, [program_id_list] has no
    value, and neither it nor [encode_with_base64] has been written. *)
Lemma tsf_create_read_leaves_attributes_unset :
  let d := Demo.planned ""
             (<["config_name" := VString "test-2"]>
             (<["config_version" := VString "1.0"]>
             (<["config_value" := VString "name: name"]>
             (<["application_id" := VString "application-ym9mxmza"]>
             (<["config_version_desc" := VString "test2"]>
             (<["encode_with_base64" := VBool false]> ∅)))))) in
  let created := Create Demo.vendor Demo.env TsfApplicationConfig d 0%nat in
  let read := Read Demo.vendor Demo.env TsfApplicationConfig (rd created) (world created) in
  res created = Ok tt /\ res read = Ok tt
  /\ ~ populated TsfApplicationConfig read
  /\ attributes (rd read) !! "program_id_list" = None
  /\ rd_set (rd read) !! "encode_with_base64" = None.
Proof.
  cbv zeta. split; [vm_compute; reflexivity|]. split; [vm_compute; reflexivity|].
  split; [|split; vm_compute; reflexivity].
  intros H. specialize (H "program_id_list" ltac:(in_list)).
  vm_compute in H. destruct H as [x Hx]. discriminate Hx.
Qed.

(** * Further properties of the handlers *)

(** ** The pieces of an identifier *)

Section Pieces.
Implicit Types (s a b c : string) (sep : ascii).

(** Splitting gives at least one piece. *)
Lemma Split_nonempty s sep : Split s sep <> [].
Proof.
  induction s as [|x rest IH]; cbn; [discriminate|].
  destruct (Ascii.eqb x sep); [discriminate|].
  destruct (Split rest sep); [contradiction | discriminate].
Qed.

(** The pieces are one more than the separators. *)
Lemma Split_length s sep : length (Split s sep) = S (count_char sep s).
Proof.
  induction s as [|x rest IH]; cbn; [reflexivity|].
  destruct (Ascii.eqb x sep); cbn; [now rewrite IH|].
  pose proof (Split_nonempty rest sep).
  destruct (Split rest sep); [contradiction|]. cbn in IH |- *. exact IH.
Qed.

(** A string without the separator is its only piece. *)
Lemma Split_whole s sep : count_char sep s = O -> Split s sep = [s].
Proof.
  induction s as [|x rest IH]; cbn; [reflexivity|].
  destruct (Ascii.eqb x sep); cbn; [discriminate|].
  intros H. now rewrite (IH H).
Qed.

Lemma append_cons x a b : String x a +:+ b = String x (a +:+ b).
Proof. reflexivity. Qed.

(** The piece before the first separator. *)
Lemma Split_first a rest sep :
  count_char sep a = O ->
  Split (a +:+ String sep rest) sep = a :: Split rest sep.
Proof.
  induction a as [|x a IH].
  - intros _. change ("" +:+ String sep rest) with (String sep rest).
    cbn. now rewrite Ascii.eqb_refl.
  - rewrite append_cons. cbn. destruct (Ascii.eqb x sep); cbn; [discriminate|].
    intros H. now rewrite (IH H).
Qed.

Lemma count_char_app a b sep :
  count_char sep (a +:+ b) = (count_char sep a + count_char sep b)%nat.
Proof.
  induction a as [|x a IH]; [reflexivity|].
  rewrite append_cons. cbn. rewrite IH. lia.
Qed.

(** Three parts without [#], joined by [#], split into themselves. *)
Lemma Split_composite a b c :
  count_char FILED_SP_char a = O -> count_char FILED_SP_char b = O ->
  count_char FILED_SP_char c = O ->
  Split (a +:+ FILED_SP +:+ b +:+ FILED_SP +:+ c) FILED_SP_char = [a; b; c].
Proof.
  intros Ha Hb Hc.
  change (FILED_SP +:+ b +:+ FILED_SP +:+ c)
    with (String FILED_SP_char (b +:+ String FILED_SP_char c)).
  rewrite (Split_first a _ _ Ha), (Split_first b _ _ Hb), (Split_whole c _ Hc).
  reflexivity.
Qed.
End Pieces.

(** What the attempts in the context that asked for a retry logged, from
    what the retried function logs in any run; [tac] settles the single
    events. *)
Ltac attempts_log P tac :=
  repeat match goal with
  | Hatt : attempts ?f ?d ?w ?t ?dl ?wl |- _ =>
      lazymatch goal with
      | _ : Forall P t |- _ => fail
      | _ => idtac
      end;
      assert (Forall P t)
        by (refine (attempts_emits P f d w t dl wl _ Hatt); solve [log_run tac])
  end.

Ltac all_events :=
  rewrite ?Forall_app; repeat split; try assumption; repeat constructor.

(** ** Create of the mariadb security groups *)

Section MariadbParts.
Context {W : Type} (V : Vendor W) (E : Env).
Implicit Types (d : ResourceData) (w : W).

(** X1: when none of the configured [instance_id], [security_group_id] and
    [product] contains [#], the Read at the end of Create splits the
    identifier back into them: every describe call asks for exactly the
    configured parts, and a Create that succeeds leaves the joined identifier
    and has written the three attributes with the configured values. *)
Theorem mariadb_create_reads_back d w :
  count_char FILED_SP_char (configured_parts d).1.1 = O ->
  count_char FILED_SP_char (configured_parts d).1.2 = O ->
  count_char FILED_SP_char (configured_parts d).2 = O ->
  reads_back d (Create V E MariadbSecurityGroups d w).
Proof.
  intros Ha Hb Hc. cbn in Ha, Hb, Hc.
  change (wp (Create V E MariadbSecurityGroups) d w (reads_back d)).
  cbn [Create]. wp_run.
  all: same_data.
  all: repeat match goal with
       | H : Split _ _ = _ |- _ =>
           autorewrite with resource_data in H;
           rewrite (Split_composite _ _ _ Ha Hb Hc) in H;
           try discriminate H; injection H as; subst
       end.
  all: attempts_log (describes_only (configured_parts d)) ltac:(exact I).
  all: unfold reads_back; cbn [res rd trace seq_run stopped].
  all: split; [all_events | intros Hok; try discriminate Hok].
  all: autorewrite with resource_data; repeat split; simplify_map_eq; reflexivity.
Qed.

(** X2: when the configured parts contain [#], so that the joined identifier
    has not exactly two separators, Create of the mariadb security groups
    never succeeds and never describes the association; once the associate
    call has succeeded, the Read at its end fails with "id is broken". *)
Theorem mariadb_create_broken_parts d w :
  count_char FILED_SP_char (composite_id d) <> 2%nat ->
  rejected_after_associate d (Create V E MariadbSecurityGroups d w).
Proof.
  intros Hn.
  assert (Hlen : length (Split (composite_id d) FILED_SP_char) <> 3%nat)
    by (rewrite Split_length; lia).
  change (wp (Create V E MariadbSecurityGroups) d w (rejected_after_associate d)).
  cbn [Create]. wp_run.
  all: same_data.
  all: repeat match goal with
       | H : Split _ _ = _ |- _ =>
           autorewrite with resource_data in H; fold (composite_id d) in H
       end.
  all: try (exfalso; subst;
            match goal with H : Split _ _ = _ |- _ => rewrite H in Hlen end;
            cbn in Hlen; congruence).
  all: attempts_log (fun e => called DescribeMariadbSecurityGroup e = false) ltac:(reflexivity).
  all: unfold rejected_after_associate, never_called; cbn [res rd trace seq_run stopped].
  all: split; [exact I|]; split; [all_events|].
  all: intros Hex; autorewrite with resource_data; try reflexivity.
  all: retried_logs (fun e => called AssociateSecurityGroups e && succeeded e = false).
  all: no_event (fun e => called AssociateSecurityGroups e && succeeded e) Hex.
  all: try discriminate Hex.
  all: match goal with
       | F : Forall _ ?t |- _ =>
           rewrite (existsb_Forall_false
                      (fun e => called AssociateSecurityGroups e && succeeded e) t F) in Hex
       end; discriminate Hex.
Qed.
End MariadbParts.

Lemma mariadb_create_reads_back_witness :
  let d := Demo.planned "" (<["instance_id" := VString "tdsql-4pzs5b67"]>
                           (<["security_group_id" := VString "sg-7kpsbxdb"]>
                           (<["product" := VString "mariadb"]> ∅))) in
  reads_back d (Create Demo.vendor Demo.env MariadbSecurityGroups d 0%nat).
Proof.
  cbv zeta. apply mariadb_create_reads_back; reflexivity.
Defined.

Lemma mariadb_create_broken_parts_witness :
  let d := Demo.planned "" (<["instance_id" := VString "tdsql#4pzs5b67"]>
                           (<["security_group_id" := VString "sg-7kpsbxdb"]>
                           (<["product" := VString "mariadb"]> ∅))) in
  rejected_after_associate d (Create Demo.vendor Demo.env MariadbSecurityGroups d 0%nat)
  /\ res (Create Demo.vendor Demo.env MariadbSecurityGroups d 0%nat)
     = Fail (Errorf "id is broken,tdsql#4pzs5b67#sg-7kpsbxdb#mariadb").
Proof.
  cbv zeta. split.
  - apply mariadb_create_broken_parts. vm_compute. lia.
  - vm_compute. reflexivity.
Defined.

(** ** How a run begins *)

Section Begins.
Context {W : Type} (V : Vendor W).
Implicit Types (d : ResourceData) (w : W).

Lemma begins_bind {A B} P (m : M W A) (k : A -> M W B) d w :
  begins P (m d w) -> begins P (bind m k d w).
Proof.
  unfold begins. rewrite bind_unfold.
  destruct (res (m d w)); cbn; try tauto.
  destruct (trace (m d w)); [tauto | cbn; tauto].
Qed.

Lemma begins_Retry {A} P n (f : M W (Attempt A)) d w :
  (0 < n)%nat -> begins P (f d w) -> begins P (Retry n f d w).
Proof.
  intros Hn Hf. destruct n as [|n]; [lia|].
  unfold Retry. cbn [Retry_loop]. now apply begins_bind.
Qed.

Lemma begins_call (P : Event -> Prop) a q d w :
  P (EvCall a q (serve V a q w).1) -> begins P (call V a q d w).
Proof. unfold begins, call. destruct (serve V a q w). cbn. tauto. Qed.

End Begins.

(** ** Create of a vpn gateway *)

Section VpnCreate.
Context {W : Type} (V : Vendor W) (E : Env).
Implicit Types (d : ResourceData) (w : W).

(** X3: Create of a vpn gateway checks the [vpc_id] before anything else. A
    [vpc_id] given for a CCN gateway, or missing for any other type, makes
    it fail without a call, with the resource data untouched; otherwise,
    with room for one attempt, the run begins with the [CreateVpnGateway]
    call for the configured type and network (the empty network for CCN). *)
Theorem vpn_create_checks_vpc_id d w :
  (0 < readRetryTimeout E)%nat ->
  if vpc_id_misused d then rejected_at_once d w (Create V E VpnGateway d w)
  else begins (creates_gateway_for d) (Create V E VpnGateway d w).
Proof.
  intros Hn. cbn [Create]. unfold resourceTencentCloudVpnGatewayCreate.
  change (bind get_d ?k d w) with (seq_run (get_d d w) (k d d w)).
  unfold vpc_id_misused, ccn_typed, vpnGatewayCreateRequest.
  destruct (GetOkString d "type") as [ty|] eqn:Hty;
    repeat case_bool_decide; destruct (GetOk d "vpc_id") eqn:Hvpc;
    try congruence; try (repeat split; fail).
  all: unfold begins; cbn [seq_run trace get_d app].
  all: apply begins_bind, begins_Retry; [exact Hn|].
  all: apply begins_bind, begins_call; cbn.
  all: unfold ccn_typed; rewrite ?Hty; repeat case_bool_decide; try congruence;
    split; reflexivity.
Qed.

End VpnCreate.

Lemma vpn_create_checks_vpc_id_witness :
  let ccn := Demo.planned "" (<["type" := VString "CCN"]>
                             (<["vpc_id" := VString "vpc-dk8zmwuf"]> ∅)) in
  let ipsec := Demo.planned "" (<["type" := VString "IPSEC"]>
                               (<["vpc_id" := VString "vpc-dk8zmwuf"]> ∅)) in
  rejected_at_once ccn 0%nat (Create Demo.vendor Demo.env VpnGateway ccn 0%nat)
  /\ begins (creates_gateway_for ipsec) (Create Demo.vendor Demo.env VpnGateway ipsec 0%nat).
Proof.
  cbv zeta. split.
  - refine (vpn_create_checks_vpc_id Demo.vendor Demo.env
              (Demo.planned "" (<["type" := VString "CCN"]>
                               (<["vpc_id" := VString "vpc-dk8zmwuf"]> ∅))) 0%nat _).
    vm_compute. lia.
  - refine (vpn_create_checks_vpc_id Demo.vendor Demo.env
              (Demo.planned "" (<["type" := VString "IPSEC"]>
                               (<["vpc_id" := VString "vpc-dk8zmwuf"]> ∅))) 0%nat _).
    vm_compute. lia.
Defined.


(** ** Update of a vpn gateway *)

Section VpnUpdate.
Context {W : Type} (V : Vendor W) (E : Env).
Implicit Types (d : ResourceData) (w : W).

(** X4: an Update of a vpn gateway that changes [prepaid_renew_flag] while
    the charge type is not PREPAID fails with "Invalid renew flag change"
    before any vendor call; the resource data is left in partial mode and
    otherwise untouched. *)
Theorem vpn_update_renew_flag_needs_prepaid d w :
  HasChange d "prepaid_period" = false -> HasChange d "type" = false ->
  HasChange d "prepaid_renew_flag" = true ->
  as_string (Get d "charge_type") <> VPN_CHARGE_TYPE_PREPAID ->
  res (Update V E VpnGateway d w)
  = Fail (Errorf "Invalid renew flag change. Only support pre-paid vpn.")
  /\ trace (Update V E VpnGateway d w) = []
  /\ rd (Update V E VpnGateway d w) = Partial true d.
Proof.
  intros Hp Ht Hr Hc.
  change (wp (Update V E VpnGateway) d w (fun run =>
    res run = Fail (Errorf "Invalid renew flag change. Only support pre-paid vpn.")
    /\ trace run = [] /\ rd run = Partial true d)).
  cbn [Update]. unfold resourceTencentCloudVpnGatewayUpdate.
  do 2 wp_step. rewrite Hr. cbn [check_immutable].
  repeat first [ progress autorewrite with resource_data
               | rewrite Hp | rewrite Ht
               | case_bool_decide; [|congruence]
               | solve [repeat split]
               | wp_step ].
Qed.

(** X5: an Update of a vpn gateway that changes the charge type from
    POSTPAID_BY_HOUR to PREPAID never succeeds and never reaches the calls
    that modify the gateway, its bandwidth or its tags, nor the Read: the
    only call it may have issued is [SetVpnGatewaysRenewFlag], for a renew
    flag changed along with the charge type. *)
Theorem vpn_update_to_prepaid_rejected d w :
  as_string (GetChange d "charge_type").1 = VPN_CHARGE_TYPE_POSTPAID_BY_HOUR ->
  as_string (GetChange d "charge_type").2 = VPN_CHARGE_TYPE_PREPAID ->
  rejected_after_only SetVpnGatewaysRenewFlag (Update V E VpnGateway d w).
Proof.
  intros Hold Hnew. cbn in Hold, Hnew.
  assert (Hc : HasChange d "charge_type" = true).
  { unfold HasChange. case_bool_decide as Heq; [|reflexivity].
    rewrite Heq, Hnew in Hold. discriminate Hold. }
  change (wp (Update V E VpnGateway) d w (rejected_after_only SetVpnGatewaysRenewFlag)).
  cbn [Update]. unfold resourceTencentCloudVpnGatewayUpdate, GetChange.
  do 2 wp_step. rewrite Hc, Hold, Hnew, orb_true_r.
  match goal with
  | |- context [if ?c then fail _ else _] =>
      lazymatch c with negb _ && _ => change c with true end
  end.
  cbv iota.
  repeat first [ match goal with H : true = false |- _ => discriminate H end
               | wp_step ].
  all: same_data.
  all: attempts_log (fun e => called SetVpnGatewaysRenewFlag e = true) ltac:(reflexivity).
  all: unfold rejected_after_only; cbn [res rd trace seq_run stopped app].
  all: autorewrite with resource_data.
  all: repeat split; try all_events.
Qed.

End VpnUpdate.

Lemma vpn_update_renew_flag_needs_prepaid_witness :
  let d := Demo.changing "vpngw-8ccsnclt"
             (<["prepaid_renew_flag" := VString "NOTIFY_AND_MANUAL_RENEW"]>
              (<["charge_type" := VString "POSTPAID_BY_HOUR"]> ∅))
             (<["prepaid_renew_flag" := VString "NOTIFY_AND_AUTO_RENEW"]>
              (<["charge_type" := VString "POSTPAID_BY_HOUR"]> ∅)) in
  res (Update Demo.vendor Demo.env VpnGateway d 0%nat)
  = Fail (Errorf "Invalid renew flag change. Only support pre-paid vpn.")
  /\ trace (Update Demo.vendor Demo.env VpnGateway d 0%nat) = []
  /\ rd (Update Demo.vendor Demo.env VpnGateway d 0%nat) = Partial true d.
Proof.
  cbv zeta. apply vpn_update_renew_flag_needs_prepaid; vm_compute; congruence.
Defined.

Lemma vpn_update_to_prepaid_rejected_witness :
  let d := Demo.changing "vpngw-8ccsnclt"
             (<["prepaid_renew_flag" := VString "NOTIFY_AND_MANUAL_RENEW"]>
              (<["charge_type" := VString "POSTPAID_BY_HOUR"]> ∅))
             (<["prepaid_renew_flag" := VString "NOTIFY_AND_AUTO_RENEW"]>
              (<["charge_type" := VString "PREPAID"]> ∅)) in
  rejected_after_only SetVpnGatewaysRenewFlag (Update Demo.vendor Demo.env VpnGateway d 0%nat)
  /\ calls (trace (Update Demo.vendor Demo.env VpnGateway d 0%nat)) <> [].
Proof.
  cbv zeta. split.
  - apply vpn_update_to_prepaid_rejected; reflexivity.
  - vm_compute. discriminate.
Defined.

(** ** The calls of Read and of Update *)

(** Splits a property of all events of a log into the properties of its
    parts. *)
Ltac each_event :=
  repeat match goal with
         | |- Forall _ [] => constructor
         | |- Forall _ (_ :: _) => constructor
         | |- Forall _ (_ ++ _) => apply Forall_app; split
         | |- Forall _ _ => assumption
         end.

(** A modifying call of Update comes with the test of its cause. *)
Ltac caused := left; cbn [update_cause]; first [reflexivity | assumption].

(** The Read of Update comes after the tests of the immutable attributes. *)
Ltac none_changed :=
  repeat match goal with
         | H : _ || _ = false |- _ => apply orb_false_elim in H; destruct H
         end;
  cbn [unchanged immutable forallb tsf_immutableArgs];
  repeat (apply andb_true_intro; split); try reflexivity;
  apply negb_true_iff; assumption.

Section ReadCalls.
Context {W : Type} (V : Vendor W) (E : Env).
Implicit Types (d : ResourceData) (w : W).

(** A computation that logs only events with [P] can be taken as a whole. *)
Lemma wp_emits {A} (P : Event -> Prop) (m : M W A) d w (Q : Run W A -> Prop) :
  emits P m -> (forall run, Forall P (trace run) -> Q run) -> wp m d w Q.
Proof. intros Hm HQ. apply HQ, Hm. Qed.

Lemma Read_emits r : emits (read_event r) (Read V E r).
Proof. destruct r; cbn [Read]; log_run ltac:(reflexivity). Qed.

(** A Read leaves the identifier or clears it. *)
Lemma Read_keeps_id r id :
  keeps (fun d => Id d = id \/ Id d = "") (Read V E r).
Proof.
  destruct r; cbn [Read]; log_run ltac:(intros; autorewrite with resource_data; auto).
Qed.

Lemma wp_read_id r d w (Q : Run W unit -> Prop) :
  (forall run, Id (rd run) = Id d \/ Id (rd run) = "" ->
               Forall (read_event r) (trace run) -> Q run) ->
  wp (Read V E r) d w Q.
Proof.
  intros HQ. apply HQ.
  - apply (Read_keeps_id r (Id d) d w). now left.
  - apply Read_emits.
Qed.

(** X6: whatever the vendor answers, a Read issues no call but the describe
    calls of its resource, writes no identifier but the empty one, and so
    leaves the identifier it was given or none. *)
Theorem read_only_describes r d w :
  Forall (read_event r) (trace (Read V E r d w))
  /\ (Id (rd (Read V E r d w)) = Id d \/ Id (rd (Read V E r d w)) = "").
Proof.
  split; [apply Read_emits | apply (Read_keeps_id r (Id d) d w); now left].
Qed.

End ReadCalls.

(** Runs a handler up to the Read at its end, which is taken as a whole. *)
Ltac to_the_read r :=
  repeat first
    [ lazymatch goal with
      | |- wp ?m _ _ _ =>
          let h := head_of m in
          lazymatch h with
          | @resourceTencentCloudCfsSnapshotRead => idtac
          | @resourceTencentCloudMariadbSecurityGroupsRead => idtac
          | @resourceTencentCloudTsfApplicationConfigRead => idtac
          | @resourceTencentCloudEipRead => idtac
          | @resourceTencentCloudVpnGatewayRead => idtac
          end;
          match goal with
          | V : Vendor _, E : Env |- _ => apply (wp_read_id V E r)
          end;
          intros ?run ?Hid ?Hread; wp_simpl
      end
    | wp_step ].

Section UpdateCalls.
Context {W : Type} (V : Vendor W) (E : Env).
Implicit Types (d : ResourceData) (w : W).

Ltac update_calls r d :=
  to_the_read r;
  same_data;
  attempts_log (update_event r d) ltac:(caused);
  each_event;
  first [ caused
        | match goal with
          | H : Forall (read_event r) _ |- _ =>
              refine (List.Forall_impl _ _ H); intros ? ?; right;
              split; [none_changed | assumption]
          end ].

(** X7: whatever the vendor answers, an Update issues a modifying call only
    for a planned change of the attribute the call writes (the mariadb
    security groups are modified whatever the plan), and it reaches the Read
    and its describe calls only when no immutable attribute is to change. *)
Theorem update_calls_follow_plan r d w :
  Forall (update_event r d) (trace (Update V E r d w)).
Proof.
  change (wp (Update V E r) d w (fun run => Forall (update_event r d) (trace run))).
  destruct r; cbn [Update].
  - update_calls CfsSnapshot d.
  - update_calls MariadbSecurityGroups d.
  - unfold resourceTencentCloudTsfApplicationConfigUpdate, tsf_immutableArgs.
    cbn [check_immutable]. update_calls TsfApplicationConfig d.
  - update_calls Eip d.
  - update_calls VpnGateway d.
Qed.

End UpdateCalls.

(** ** An Update that has nothing to change *)

Section UpdateNoChange.
Context {W : Type} (V : Vendor W) (E : Env).
Implicit Types (d : ResourceData) (w : W).

(** A step that logs nothing and leaves the remote side alone. *)
Lemma bind_quiet {A B} (m : M W A) (k : A -> M W B) d w a d' :
  m d w = mkRun (Ok a) d' w [] -> bind m k d w = k a d' w.
Proof.
  intros H. unfold bind. rewrite H. cbn.
  destruct (k a d' w) as [x y z t]. reflexivity.
Qed.

Lemma unchanged_cons d k keys :
  unchanged d (k :: keys) = true -> HasChange d k = false /\ unchanged d keys = true.
Proof.
  cbn. intros H. apply andb_prop in H as [H1 H2].
  apply negb_true_iff in H1. auto.
Qed.

Lemma check_immutable_unchanged msg keys d w :
  unchanged d keys = true -> check_immutable msg keys d w = mkRun (Ok tt) d w [].
Proof.
  induction keys as [|k keys IH]; [reflexivity|].
  intros H. apply unchanged_cons in H as [Hk H].
  cbn [check_immutable]. erewrite bind_quiet by reflexivity.
  rewrite Hk. now apply IH.
Qed.

Ltac use_tests :=
  repeat match goal with
         | H : HasChange _ _ = false |- _ => rewrite H
         end.

Ltac quiet_steps :=
  repeat first
    [ erewrite bind_quiet by reflexivity
    | erewrite bind_quiet
        by (apply check_immutable_unchanged; cbn [unchanged forallb];
            autorewrite with resource_data; use_tests; reflexivity)
    | progress cbn [when]
    | progress use_tests ].

(** X8: an Update of a cfs snapshot, a tsf application config, an eip or a
    vpn gateway whose plan changes no attribute of the schema is the Read of
    the resource: the same calls, the same result, the same writes (the eip
    and the vpn gateway after leaving the partial mode). *)
Theorem update_without_change_is_read r d w :
  r <> MariadbSecurityGroups ->
  unchanged d (schema r) = true ->
  Update V E r d w = Read V E r (handed_to_read r d) w.
Proof.
  intros Hr H. destruct r; [|contradiction|..]; clear Hr; cbn [schema] in H.
  all: repeat match type of H with
              | unchanged _ (_ :: _) = true =>
                  let Hk := fresh "Hk" in apply unchanged_cons in H as [Hk H]
              end; clear H.
  all: cbn [Update handed_to_read].
  - unfold resourceTencentCloudCfsSnapshotUpdate. quiet_steps. reflexivity.
  - unfold resourceTencentCloudTsfApplicationConfigUpdate, tsf_immutableArgs.
    quiet_steps. reflexivity.
  - unfold resourceTencentCloudEipUpdate. quiet_steps. reflexivity.
  - unfold resourceTencentCloudVpnGatewayUpdate. quiet_steps. reflexivity.
Qed.

(** X9: the Update of the mariadb security groups has no such shortcut: with
    a well-formed identifier, a plan that changes nothing and room for one
    attempt, it begins with a [ModifyDBInstanceSecurityGroups] call for the
    parts of the identifier. *)
Theorem mariadb_update_without_change_modifies d w instanceId securityGroupId product :
  Split (Id d) FILED_SP_char = [instanceId; securityGroupId; product] ->
  unchanged d (schema MariadbSecurityGroups) = true ->
  (0 < writeRetryTimeout E)%nat ->
  begins (modifies_parts (instanceId, securityGroupId, product))
         (Update V E MariadbSecurityGroups d w).
Proof.
  intros Hid H Hn. cbn [schema] in H.
  repeat match type of H with
         | unchanged _ (_ :: _) = true =>
             let Hk := fresh "Hk" in apply unchanged_cons in H as [Hk H]
         end; clear H.
  cbn [Update]. unfold resourceTencentCloudMariadbSecurityGroupsUpdate.
  erewrite bind_quiet by reflexivity. rewrite Hid. use_tests.
  apply begins_bind, begins_Retry; [exact Hn|].
  apply begins_bind, begins_call. reflexivity.
Qed.

End UpdateNoChange.

Lemma update_without_change_is_read_witness :
  let d := Demo.changing "eip-ek0cdz1g" (<["name" := VString "gateway_eip"]> ∅)
                         (<["name" := VString "gateway_eip"]> ∅) in
  Update Demo.vendor Demo.env Eip d 0%nat
  = Read Demo.vendor Demo.env Eip (Partial false d) 0%nat.
Proof.
  cbv zeta.
  refine (update_without_change_is_read Demo.vendor Demo.env Eip
            (Demo.changing "eip-ek0cdz1g" (<["name" := VString "gateway_eip"]> ∅)
                           (<["name" := VString "gateway_eip"]> ∅)) 0%nat _ _).
  - discriminate.
  - vm_compute. reflexivity.
Defined.

Lemma mariadb_update_without_change_modifies_witness :
  let d := Demo.planned "tdsql-4pzs5b67#sg-7kpsbxdb#mariadb" ∅ in
  begins (modifies_parts ("tdsql-4pzs5b67", "sg-7kpsbxdb", "mariadb"))
         (Update Demo.vendor Demo.env MariadbSecurityGroups d 0%nat).
Proof.
  cbv zeta. apply mariadb_update_without_change_modifies.
  - reflexivity.
  - vm_compute. reflexivity.
  - vm_compute. lia.
Defined.

(** ** A no-op Update between two Reads *)

Section RoundTrip.
Context {W : Type} (V : Vendor W) (E : Env).
Implicit Types (d : ResourceData) (w : W) (m : gmap string Value).

(** *** Writing twice *)

Lemma store_snoc kvs kv m :
  store (kvs ++ [kv]) m = <[kv.1 := kv.2]> (store kvs m).
Proof. unfold store. now rewrite foldl_app. Qed.

Lemma lookup_store kvs m k :
  store kvs m !! k = from_option Some (m !! k) (store kvs ∅ !! k).
Proof.
  induction kvs as [|kv kvs IH] using rev_ind.
  - cbn. now rewrite lookup_empty.
  - rewrite !store_snoc. destruct (decide (kv.1 = k)) as [<-|Hne].
    + now rewrite !lookup_insert_eq.
    + now rewrite !lookup_insert_ne.
Qed.

Lemma store_twice kvs m : store kvs (store kvs m) = store kvs m.
Proof.
  apply map_eq. intros k.
  rewrite (lookup_store kvs (store kvs m)), (lookup_store kvs m).
  destruct (store kvs ∅ !! k); reflexivity.
Qed.

(** The written level shadows the planned one. *)
Lemma store_union kvs m m' : store kvs m ∪ m' = store kvs (m ∪ m').
Proof.
  induction kvs as [|kv kvs IH] using rev_ind; [reflexivity|].
  rewrite !store_snoc, <- IH. symmetry. apply insert_union_l.
Qed.

(** *** The answers in a log *)

Lemma emits_call_served a q : emits (served V) (call V a q).
Proof.
  intros d w. unfold call. destruct (serve V a q w) as [x w'] eqn:Hs. cbn.
  repeat constructor. exists w. now rewrite Hs.
Qed.

Lemma emits_callE_served a q : emits (served V) (callE V a q).
Proof.
  unfold callE. apply emits_bind; [apply emits_call_served|].
  intros [e|x]; [apply emits_fail | apply emits_ret].
Qed.

Lemma Read_served r : emits (served V) (Read V E r).
Proof.
  destruct r; cbn [Read];
    repeat first [ apply emits_call_served | apply emits_callE_served
                 | log_step ltac:(exact I) ].
Qed.

Lemma check_immutable_emits (P : Event -> Prop) msg keys :
  emits P (check_immutable (W := W) msg keys).
Proof.
  induction keys as [|k keys IH]; cbn [check_immutable]; [apply emits_ret|].
  apply emits_bind; [apply emits_get_d|]. intros x.
  destruct (HasChange x k); [apply emits_fail | exact IH].
Qed.

Lemma Update_served r : emits (served V) (Update V E r).
Proof.
  destruct r; cbn [Update];
    repeat first [ apply emits_call_served | apply emits_callE_served
                 | apply Read_served | apply check_immutable_emits
                 | lazymatch goal with
                   | |- emits _ (let '(_, _) := ?x in _) => destruct x
                   | |- emits _ (if ?b then _ else _) => destruct b
                   end
                 | log_step ltac:(exact I) ].
Qed.

(** A vendor that answers the describe calls the same whenever it is asked
    makes the logs of its runs agree. *)
Lemma stable_agree r t t' :
  stable V r -> Forall (served V) t -> Forall (served V) t' -> agree r t t'.
Proof.
  intros Hst Ht Ht' a q x x' Ha Hx Hx'.
  apply (proj1 (List.Forall_forall _ _) Ht) in Hx as [w Hw].
  apply (proj1 (List.Forall_forall _ _) Ht') in Hx' as [w' Hw'].
  pose proof (Hst a q w w' Ha) as Heq. rewrite Hw, Hw' in Heq.
  now injection Heq.
Qed.

Lemma agree_app_r r (t pre t' : list Event) :
  agree r t (pre ++ t')%list -> agree r t t'.
Proof.
  intros H a q x x' Ha Hx Hx'. apply (H a q x x' Ha Hx).
  apply in_or_app. now right.
Qed.

(** With agreeing logs, two Reads with the same identifier were shown the
    same object. *)
Lemma shown_once r d d' o o' t t' :
  agree r t t' -> remote_of o = r -> remote_of o' = r -> Id d' = Id d ->
  shown E d o t -> shown E d' o' t' -> o' = o.
Proof.
  intros Hag Ho Ho' Hid Hs Hs'.
  destruct o, o'; cbn in Ho, Ho'; subst r; try discriminate Ho'; clear Ho';
    cbn [shown] in Hs, Hs'; rewrite Hid in Hs'.
  - destruct Hs as [H1 H2], Hs' as [H1' H2'].
    pose proof (fun Hc => Hag _ _ _ _ Hc H1 H1') as Ha; specialize (Ha eq_refl).
    pose proof (fun Hc => Hag _ _ _ _ Hc H2 H2') as Hb; specialize (Hb eq_refl).
    congruence.
  - destruct Hs as [H1 _], Hs' as [H1' _]. congruence.
  - pose proof (fun Hc => Hag _ _ _ _ Hc Hs Hs') as Ha; specialize (Ha eq_refl).
    congruence.
  - destruct Hs as (H1 & H2 & H3), Hs' as (H1' & H2' & H3').
    pose proof (fun Hc => Hag _ _ _ _ Hc H1 H1') as Ha; specialize (Ha eq_refl).
    pose proof (fun Hc => Hag _ _ _ _ Hc H2 H2') as Hb; specialize (Hb eq_refl).
    pose proof (fun Hc => Hag _ _ _ _ Hc H3 H3') as Hc; specialize (Hc eq_refl).
    congruence.
  - destruct Hs as (H1 & _ & H2), Hs' as (H1' & _ & H2').
    pose proof (fun Hc => Hag _ _ _ _ Hc H1 H1') as Ha; specialize (Ha eq_refl).
    pose proof (fun Hc => Hag _ _ _ _ Hc H2 H2') as Hb; specialize (Hb eq_refl).
    congruence.
Qed.

(** *** The attribute values after a Read *)

Lemma Read_keeps_plan r d w : rd_plan (rd (Read V E r d w)) = rd_plan d.
Proof.
  assert (H : keeps (fun x => rd_plan x = rd_plan d) (Read V E r)).
  { destruct r; cbn [Read]; log_run ltac:(intros ? ?; assumption). }
  now apply H.
Qed.

Lemma Read_attributes r d w :
  found (Read V E r d w) ->
  exists o,
    remote_of o = r
    /\ shown E d o (trace (Read V E r d w))
    /\ attributes (rd (Read V E r d w)) = store (writes o) (attributes d)
    /\ Id (rd (Read V E r d w)) = Id d.
Proof.
  intros [Hok Hfound].
  destruct (Read_found V E r d w Hok Hfound) as [(o & Ho & Hs & Hset & _) Hid].
  exists o. repeat split; try assumption.
  unfold attributes. now rewrite Hset, Read_keeps_plan, store_union.
Qed.

(** A second Read of the same object, from the attribute values the first
    has left, leaves them as they are. *)
Lemma Read_again r d w d' w' :
  found (Read V E r d w) -> found (Read V E r d' w') ->
  handed_on (rd (Read V E r d w)) d' ->
  agree r (trace (Read V E r d w)) (trace (Read V E r d' w')) ->
  handed_on (rd (Read V E r d w)) (rd (Read V E r d' w')).
Proof.
  intros H1 H2 [Hid Hatt] Hag.
  destruct (Read_attributes r d w H1) as (o & Ho & Hs & Ha & Hk).
  destruct (Read_attributes r d' w' H2) as (o' & Ho' & Hs' & Ha' & Hk').
  assert (o' = o) as ->.
  { apply (shown_once r d d' o o' _ _ Hag Ho Ho'); [congruence | assumption..]. }
  split; [congruence|].
  rewrite Ha', Hatt, Ha. apply store_twice.
Qed.

(** *** An Update that changes nothing ends in a Read of what it was given *)

Ltac skip_tests :=
  repeat first
    [ erewrite bind_quiet by reflexivity
    | erewrite bind_quiet
        by (apply check_immutable_unchanged; cbn [unchanged forallb];
            autorewrite with resource_data;
            repeat match goal with
                   | H : HasChange _ _ = false |- _ => rewrite H
                   end; reflexivity)
    | progress cbn [when]
    | match goal with
      | H : HasChange _ _ = false |- _ => rewrite H
      end ].

Lemma Update_unchanged r d w :
  unchanged d (schema r) = true ->
  res (Update V E r d w) = Ok tt ->
  exists d' w' (pre : list Event),
    handed_on d d'
    /\ res (Read V E r d' w') = Ok tt
    /\ rd (Update V E r d w) = rd (Read V E r d' w')
    /\ trace (Update V E r d w) = (pre ++ trace (Read V E r d' w'))%list.
Proof.
  intros H Hok. destruct (decide (r = MariadbSecurityGroups)) as [->|Hr].
  - revert Hok. cbn [schema] in H.
    repeat match type of H with
           | unchanged _ (_ :: _) = true =>
               let Hk := fresh "Hk" in apply unchanged_cons in H as [Hk H]
           end; clear H.
    cbn [Update Read]. unfold resourceTencentCloudMariadbSecurityGroupsUpdate.
    erewrite bind_quiet by reflexivity.
    destruct (Split (Id d) FILED_SP_char) as [|i [|s [|p [|]]]]; try discriminate.
    rewrite Hk, Hk0, Hk1.
    match goal with
    | |- context [bind ?m ?k d w] =>
        set (retry := m);
        assert (Hkeep : keeps (fun x => handed_on d x) retry)
          by (subst retry; log_run ltac:(idtac));
        specialize (Hkeep d w (conj eq_refl eq_refl))
    end.
    rewrite bind_unfold. destruct (res (retry d w)); try discriminate.
    unfold after. cbn [res rd trace]. intros Hok.
    exists (rd (retry d w)), (world (retry d w)), (trace (retry d w)).
    repeat split; solve [assumption | apply Hkeep | reflexivity].
  - exists (handed_to_read r d), w, [].
    assert (Heq : Update V E r d w = Read V E r (handed_to_read r d) w).
    { destruct r; [|contradiction|..]; clear Hr Hok; cbn [schema] in H.
      all: repeat match type of H with
                  | unchanged _ (_ :: _) = true =>
                      let Hk := fresh "Hk" in apply unchanged_cons in H as [Hk H]
                  end; clear H.
      all: cbn [Update Read handed_to_read].
      - unfold resourceTencentCloudCfsSnapshotUpdate. skip_tests. reflexivity.
      - unfold resourceTencentCloudTsfApplicationConfigUpdate, tsf_immutableArgs.
        skip_tests. reflexivity.
      - unfold resourceTencentCloudEipUpdate. skip_tests. reflexivity.
      - unfold resourceTencentCloudVpnGatewayUpdate. skip_tests. reflexivity. }
    rewrite <- Heq. repeat split; try assumption; destruct r; reflexivity.
Qed.

(** C8: Read, an Update whose plan changes no attribute, Read again: when
    the three succeed and find the object, and the vendor answers the
    describe calls of the Update and of the second Read as it answered those
    of the first Read, the attribute values after the Update and after the
    second Read are those after the first Read.  Each operation starts from
    the identifier and the attribute values the one before has left; the
    first Read may be the one at the end of a Create. *)
Theorem noop_update_round_trip r d w d1 w1 d2 w2 :
  found (Read V E r d w) ->
  handed_on (rd (Read V E r d w)) d1 ->
  unchanged d1 (schema r) = true ->
  found (Update V E r d1 w1) ->
  handed_on (rd (Update V E r d1 w1)) d2 ->
  found (Read V E r d2 w2) ->
  agree r (trace (Read V E r d w)) (trace (Update V E r d1 w1)) ->
  agree r (trace (Read V E r d w)) (trace (Read V E r d2 w2)) ->
  attributes (rd (Update V E r d1 w1)) = attributes (rd (Read V E r d w))
  /\ attributes (rd (Read V E r d2 w2)) = attributes (rd (Read V E r d w)).
Proof.
  intros Hfirst [Hid1 Hatt1] Hun [Hok Hfound] [Hid2 Hatt2] Hsecond Hag1 Hag2.
  destruct (Update_unchanged r d1 w1 Hun Hok) as (d' & w' & pre & [Hid' Hatt'] & Hok' & Hrd & Ht).
  rewrite Ht in Hfound, Hag1. apply agree_app_r in Hag1.
  rewrite existsb_app in Hfound. apply orb_false_elim in Hfound as [_ Hfound].
  assert (Hup : handed_on (rd (Read V E r d w)) (rd (Read V E r d' w'))).
  { apply Read_again; [assumption | now split | split; congruence | assumption]. }
  rewrite Hrd in *. destruct Hup as [Hid Hatt].
  split; [exact Hatt|].
  apply (Read_again r d w d2 w2); [assumption.. | split; congruence | assumption].
Qed.

End RoundTrip.

Lemma noop_update_round_trip_witness :
  let plan : gmap string Value := <["name" := VString "gateway_eip"]> ∅ in
  let d := Demo.changing "eip-ek0cdz1g" plan plan in
  let first := Read Demo.vendor Demo.env Eip d 0%nat in
  let update := Update Demo.vendor Demo.env Eip (rd first) (world first) in
  let second := Read Demo.vendor Demo.env Eip (rd update) (world update) in
  attributes (rd update) = attributes (rd first)
  /\ attributes (rd second) = attributes (rd first).
Proof.
  cbv zeta.
  assert (Hst : stable Demo.vendor Eip) by (intros a q w w' _; reflexivity).
  apply noop_update_round_trip.
  - split; reflexivity.
  - split; reflexivity.
  - reflexivity.
  - split; reflexivity.
  - split; reflexivity.
  - split; reflexivity.
  - apply (stable_agree Demo.vendor); [exact Hst | apply Read_served | apply Update_served].
  - apply (stable_agree Demo.vendor); [exact Hst | apply Read_served | apply Read_served].
Defined.


(** ** The order of the steps of Create *)

Section CreateOrder.
Context {W : Type} (V : Vendor W) (E : Env).
Implicit Types (d : ResourceData) (w : W) (t : list Event).

Lemma create_log_mono r k k' t :
  (k <= k')%nat -> create_log r k' t -> create_log r k t.
Proof.
  destruct t as [|e t]; [trivial|]. cbn.
  destruct e; try tauto; destruct (create_step r _); try tauto;
    intros Hk [Hj H]; (split; [lia | exact H]).
Qed.

(** The events of one step, as the attempts of a retry log them. *)
Lemma create_log_step r k j t u :
  Forall (fun e => create_step r e = Some j) t ->
  (k <= j)%nat -> create_log r j u -> create_log r k (t ++ u).
Proof.
  intros Ht Hk Hu. revert k Hk.
  induction Ht as [|e t He Ht IH]; intros k Hk; cbn [app].
  - now apply (create_log_mono r k j).
  - cbn. destruct e; try discriminate He.
    + rewrite He. split; [exact Hk|]. apply IH. lia.
    + rewrite He. split; [exact Hk|]. apply IH. lia.
Qed.

(** The log of a Read: its mark, then its events. *)
Lemma read_log r d w :
  exists rest, trace (Read V E r d w) = EvRead :: rest /\ Forall (read_event r) rest.
Proof.
  pose proof (Read_emits V E r d w) as H.
  assert (Hhd : exists rest, trace (Read V E r d w) = EvRead :: rest).
  { destruct r; cbn [Read];
      [ unfold resourceTencentCloudCfsSnapshotRead
      | unfold resourceTencentCloudMariadbSecurityGroupsRead
      | unfold resourceTencentCloudTsfApplicationConfigRead
      | unfold resourceTencentCloudEipRead
      | unfold resourceTencentCloudVpnGatewayRead ];
      rewrite bind_unfold; cbn; eauto. }
  destruct Hhd as [rest Hrest]. exists rest. split; [exact Hrest|].
  rewrite Hrest in H. now inversion H.
Qed.

Lemma wp_read r d w (Q : Run W unit -> Prop) :
  (forall run rest, trace run = EvRead :: rest -> Forall (read_event r) rest -> Q run) ->
  wp (Read V E r) d w Q.
Proof.
  intros HQ. destruct (read_log r d w) as (rest & Ht & Hrest).
  exact (HQ _ rest Ht Hrest).
Qed.

Ltac to_the_read_mark r :=
  repeat first
    [ lazymatch goal with
      | |- wp ?m _ _ _ =>
          let h := head_of m in
          lazymatch h with
          | @resourceTencentCloudCfsSnapshotRead => idtac
          | @resourceTencentCloudMariadbSecurityGroupsRead => idtac
          | @resourceTencentCloudTsfApplicationConfigRead => idtac
          | @resourceTencentCloudEipRead => idtac
          | @resourceTencentCloudVpnGatewayRead => idtac
          end;
          apply (wp_read r); intros ?run ?rest ?Hlog ?Hread; wp_simpl
      end
    | wp_step ].

(** The step of the attempts that asked for a retry. *)
Ltac step_of_attempts r :=
  repeat match goal with
  | Hatt : attempts ?f ?d ?w ?t ?dl ?wl |- _ =>
      lazymatch goal with
      | _ : Forall _ t |- _ => fail
      | _ => idtac
      end;
      let known j :=
        assert (Forall (fun e => create_step r e = Some j) t)
          by (refine (attempts_emits _ f d w t dl wl _ Hatt);
              solve [log_run ltac:(reflexivity)]) in
      first [ known 1%nat | known 3%nat | known 4%nat | known 5%nat ]
  end.

Ltac log_in_order r :=
  repeat match goal with
  | |- True => exact I
  | |- Forall _ _ => assumption
  | |- (_ <= _)%nat /\ _ => split; [lia|]
  | |- create_log _ _ [] => exact I
  | |- create_log _ _ (_ :: _) => progress cbn [create_log create_step]
  | H : Forall (fun e => create_step r e = Some ?j) ?t |- create_log _ _ (?t ++ _) =>
      apply (create_log_step r _ j t _ H); [lia|]
  | H : Forall (fun e => create_step r e = Some ?j) ?t |- create_log _ _ ?t =>
      rewrite <- (app_nil_r t); apply (create_log_step r _ j t _ H); [lia|]
  end.

Ltac create_in_order r :=
  to_the_read_mark r;
  step_of_attempts r;
  repeat match goal with
         | H : trace _ = EvRead :: _ |- _ => rewrite H; clear H
         end;
  rewrite <- ?app_assoc; cbn [app];
  log_in_order r.

(** X10: whatever the vendor answers, the steps of a Create never go back:
    the create call and its retries, the identifier, then for the cfs
    snapshot and the vpn gateway the wait and after it the tags, for the eip
    the tags, after them the wait and the name, for the tsf application
    config the lookup by name before the identifier; the Read comes last and
    nothing of Create follows it. *)
Theorem create_steps_in_order r d w :
  create_log r 0 (trace (Create V E r d w)).
Proof.
  change (wp (Create V E r) d w (fun run => create_log r 0 (trace run))).
  destruct r; cbn [Create].
  - create_in_order CfsSnapshot.
  - create_in_order MariadbSecurityGroups.
  - create_in_order TsfApplicationConfig.
  - create_in_order Eip.
  - create_in_order VpnGateway.
Qed.

End CreateOrder.

(** ** The steps of a Create that succeeds *)

Section CreateSteps.
Context {W : Type} (V : Vendor W) (E : Env).
Implicit Types (d : ResourceData) (w : W) (t u : list Event) (s : Step).

Lemma goes_through_stay r id s todo t u :
  Forall (fun e => step_of r id e = Some s) t ->
  goes_through r id (Some s) todo u = true ->
  goes_through r id (Some s) todo (t ++ u)%list = true.
Proof.
  intros Ht Hu. induction Ht as [|e t He _ IH]; [exact Hu|].
  cbn [app goes_through]. rewrite He, IH.
  now rewrite bool_decide_true by reflexivity.
Qed.

Lemma goes_through_enter r id here s todo e u :
  step_of r id e = Some s ->
  goes_through r id (Some s) todo u = true ->
  goes_through r id here (s :: todo) (e :: u) = true.
Proof.
  intros He Hu. cbn [goes_through]. rewrite He, Hu.
  rewrite (bool_decide_true (s = s)) by reflexivity. apply orb_true_r.
Qed.

Lemma step_of_SetId r id : step_of r id (EvSetId id) = Some StoreId.
Proof. cbn. now rewrite bool_decide_true by reflexivity. Qed.

(** The log up to the Read, step by step. *)
Local Abbreviation through r id here todo R L :=
  (exists pre : list Event,
     L = (pre ++ R)%list /\ goes_through r id here todo pre = true).

Lemma through_done r id here (R : list Event) : through r id here [] R R.
Proof. exists []. split; reflexivity. Qed.

Lemma through_enter r id here s todo e (R L : list Event) :
  step_of r id e = Some s ->
  through r id (Some s) todo R L -> through r id here (s :: todo) R (e :: L).
Proof.
  intros He (pre & -> & Hpre). exists (e :: pre). split; [reflexivity|].
  now apply goes_through_enter.
Qed.

(** The attempts of a step that asked for a retry, and its last one. *)
Lemma through_block r id here s todo t e (R L : list Event) :
  Forall (fun e => forall id', step_of r id' e = Some s) t ->
  step_of r id e = Some s ->
  through r id (Some s) todo R L ->
  through r id here (s :: todo) R ((t ++ [e]) ++ L)%list.
Proof.
  intros Ht He (pre & -> & Hpre). exists ((t ++ [e]) ++ pre)%list.
  split; [now rewrite app_assoc|].
  assert (Hall : Forall (fun e => step_of r id e = Some s) (t ++ [e])%list).
  { apply Forall_app. split; [|repeat constructor; exact He].
    revert Ht. apply List.Forall_impl. auto. }
  destruct (t ++ [e])%list as [|e0 l] eqn:Hl; [now destruct t|].
  inversion Hall as [|? ? He0 Hl']; subst. cbn [app].
  apply goes_through_enter; [exact He0|]. now apply goes_through_stay.
Qed.

(** The step of the attempts of a retry that asked for another one. *)
Ltac steps_of_attempts r :=
  repeat match goal with
  | Hatt : attempts ?f ?d ?w ?t ?dl ?wl |- _ =>
      lazymatch goal with
      | _ : Forall _ t |- _ => fail
      | _ => idtac
      end;
      let known s :=
        assert (Forall (fun e => forall id', step_of r id' e = Some s) t)
          by (refine (attempts_emits _ f d w t dl wl _ Hatt);
              solve [log_run ltac:(reflexivity)]) in
      first [ known CreateCall | known Wait | known Rename ]
  end.

(** Run the Create up to the Read at its end, and leave that Read as it
    is. *)
Ltac up_to_the_read :=
  repeat first
    [ lazymatch goal with
      | |- wp ?m _ _ _ =>
          let h := head_of m in
          lazymatch h with
          | @resourceTencentCloudCfsSnapshotRead => idtac
          | @resourceTencentCloudMariadbSecurityGroupsRead => idtac
          | @resourceTencentCloudTsfApplicationConfigRead => idtac
          | @resourceTencentCloudEipRead => idtac
          | @resourceTencentCloudVpnGatewayRead => idtac
          end;
          unfold wp at 1; cbv beta; wp_simpl
      end
    | wp_step ].

Ltac took_steps r :=
  intros _; eexists _, _;
  split; [reflexivity|]; split; [reflexivity|]; split; [reflexivity|];
  cbn [steps app];
  repeat match goal with
         | H : context [GetTags (SetId ?v ?d) ?k] |- _ =>
             change (GetTags (SetId v d) k) with (GetTags d k) in H
         | H : context [GetOkString (SetId ?v ?d) ?k] |- _ =>
             change (GetOkString (SetId v d) k) with (GetOkString d k) in H
         end;
  repeat match goal with
         | H : bool_decide (GetTags _ _ ≠ ∅) = _ |- _ => rewrite H
         | H : GetOkString _ "name" = _ |- _ => rewrite H
         end;
  cbn [app];
  repeat first
    [ apply through_done
    | apply through_block; [assumption | reflexivity |]
    | apply (through_block r _ _ _ _ []); [constructor | reflexivity |]
    | apply through_enter; [first [reflexivity | apply step_of_SetId]|] ].


End CreateSteps.



(** ** Create of a tsf application config *)

Section TsfCreate.
Context {W : Type} (V : Vendor W) (E : Env).
Implicit Types (d : ResourceData) (w : W).

(** X11: Create of a tsf application config takes its identifier from the
    lookup by name. When [CreateConfig] answers that nothing was created,
    Create fails without a lookup and leaves the resource data alone; a
    Create that succeeds with an identifier has looked up the configured
    [config_name] and holds the identifier of the config it was shown. *)
Theorem tsf_create_identifier d w :
  (existsb create_refused (trace (Create V E TsfApplicationConfig d w)) = true ->
   failed_before_lookup d (Create V E TsfApplicationConfig d w))
  /\ (res (Create V E TsfApplicationConfig d w) = Ok tt ->
      Id (rd (Create V E TsfApplicationConfig d w)) <> "" ->
      Exists (looked_up (default "" (GetOkString d "config_name"))
                        (Id (rd (Create V E TsfApplicationConfig d w))))
             (trace (Create V E TsfApplicationConfig d w))).
Proof.
  change (wp (Create V E TsfApplicationConfig) d w (fun run =>
    (existsb create_refused (trace run) = true -> failed_before_lookup d run)
    /\ (res run = Ok tt -> Id (rd run) <> "" ->
        Exists (looked_up (default "" (GetOkString d "config_name")) (Id (rd run)))
               (trace run)))).
  cbn [Create].
  repeat first
    [ lazymatch goal with
      | |- wp (resourceTencentCloudTsfApplicationConfigRead _) _ _ _ =>
          apply (wp_read_id V E TsfApplicationConfig); intros ?run ?Hid ?Hread; wp_simpl
      end
    | wp_step ].
  all: same_data.
  all: retried_logs (fun e => create_refused e = false).
  all: attempts_log (fun e => called DescribeTsfApplicationConfigById e = false)
         ltac:(reflexivity).
  all: wp_simpl.
  all: split; [intros Hex | intros Hok Hne; try discriminate Hok].
  all: try (exfalso;
            match type of Hex with
            | existsb _ ?l = true =>
                assert (Hno : Forall (fun e => create_refused e = false) l);
                [|rewrite (existsb_Forall_false _ _ Hno) in Hex; discriminate Hex]
            end;
            each_event; try reflexivity;
            match goal with
            | H : Forall (read_event _) ?l |- Forall _ ?l =>
                refine (List.Forall_impl _ _ H); intros [| |[]]; cbn; congruence
            end).
  - destruct Hid as [Hid | Hid]; [|contradiction].
    autorewrite with resource_data in Hid. rewrite Hid.
    apply List.Exists_exists.
    match goal with
    | |- context [EvCall DescribeTsfApplicationConfigById ?q ?x] =>
        exists (EvCall DescribeTsfApplicationConfigById q x)
    end.
    split; [rewrite !in_app_iff; cbn; tauto|].
    split; [reflexivity|]. eexists. split; [reflexivity | eassumption].
  - unfold failed_before_lookup. cbn [res rd trace seq_run stopped app].
    split; [exact I|]. split; [|reflexivity].
    unfold never_called. rewrite app_nil_r. each_event. reflexivity.
Qed.
End TsfCreate.

Lemma tsf_create_identifier_witness :
  let d := Demo.planned "" (<["config_name" := VString "test-2"]> ∅) in
  failed_before_lookup d (Create Cases.vendor_refusing Demo.env TsfApplicationConfig d 0%nat)
  /\ Exists (looked_up "test-2" "res-1")
            (trace (Create Demo.vendor Demo.env TsfApplicationConfig d 0%nat)).
Proof.
  cbv zeta. split.
  - apply (proj1 (tsf_create_identifier Cases.vendor_refusing Demo.env
                    (Demo.planned "" (<["config_name" := VString "test-2"]> ∅)) 0%nat)).
    vm_compute. reflexivity.
  - refine (proj2 (tsf_create_identifier Demo.vendor Demo.env
                     (Demo.planned "" (<["config_name" := VString "test-2"]> ∅)) 0%nat) _ _).
    + vm_compute. reflexivity.
    + vm_compute. discriminate.
Defined.

(** ** Handlers that cannot panic *)

Section Safe.
Context {W : Type} (V : Vendor W) (E : Env).
Implicit Types (d : ResourceData) (w : W).

Lemma safe_bind {A B} (m : M W A) (k : A -> M W B) :
  safe m -> (forall a, safe (k a)) -> safe (bind m k).
Proof.
  intros Hm Hk d w. rewrite bind_unfold.
  destruct (res (m d w)) eqn:Hres; cbn; [apply Hk | discriminate |].
  now destruct (Hm d w).
Qed.

Lemma safe_ret {A} (a : A) : safe (ret a : M W A).
Proof. intros d w. discriminate. Qed.
Lemma safe_fail {A} e : safe (fail e : M W A).
Proof. intros d w. discriminate. Qed.
Lemma safe_get_d : safe (get_d : M W ResourceData).
Proof. intros d w. discriminate. Qed.
Lemma safe_upd f : safe (upd f : M W unit).
Proof. intros d w. discriminate. Qed.
Lemma safe_emit e : safe (emit e : M W unit).
Proof. intros d w. discriminate. Qed.
Lemma safe_setId v : safe (setId v : M W unit).
Proof. intros d w. discriminate. Qed.
Lemma safe_call a q : safe (call V a q).
Proof. intros d w. unfold call. destruct (serve V a q w). discriminate. Qed.
Lemma safe_callE a q : safe (callE V a q).
Proof.
  unfold callE. apply safe_bind; [apply safe_call|].
  intros [e|x]; [apply safe_fail | apply safe_ret].
Qed.
Lemma safe_when b (m : M W unit) : safe m -> safe (when b m).
Proof. intros H. destruct b; [exact H | apply safe_ret]. Qed.

Lemma safe_Retry_loop {A} n last (f : M W (Attempt A)) :
  safe f -> safe (Retry_loop n last f).
Proof.
  intros Hf. revert last. induction n as [|n IH]; intros last; cbn [Retry_loop].
  - apply safe_fail.
  - apply safe_bind; [exact Hf|].
    intros [a|e|e]; [apply safe_ret | apply IH | apply safe_fail].
Qed.

Lemma safe_Retry {A} n (f : M W (Attempt A)) : safe f -> safe (Retry n f).
Proof. apply safe_Retry_loop. Qed.

Lemma safe_check_immutable msg keys : safe (check_immutable msg keys : M W unit).
Proof.
  induction keys as [|k keys IH]; cbn [check_immutable]; [apply safe_ret|].
  apply safe_bind; [apply safe_get_d|]. intros d.
  destruct (HasChange d k); [apply safe_fail | exact IH].
Qed.

End Safe.

Ltac safe_step :=
  lazymatch goal with
  | |- safe (bind _ _) => apply safe_bind; [|intros ?]
  | |- safe (ret _) => apply safe_ret
  | |- safe (fail _) => apply safe_fail
  | |- safe get_d => apply safe_get_d
  | |- safe (upd _) => apply safe_upd
  | |- safe (emit _) => apply safe_emit
  | |- safe (setId _) => apply safe_setId
  | |- safe (call ?V ?a ?q) => apply (safe_call V a q)
  | |- safe (callE ?V ?a ?q) => apply (safe_callE V a q)
  | |- safe (when _ _) => apply safe_when
  | |- safe (Retry _ _) => apply safe_Retry
  | |- safe (check_immutable _ _) => apply safe_check_immutable
  | |- safe (match ?x with _ => _ end) => destruct x
  | |- safe ?m =>
      let h := head_of m in
      lazymatch h with
      | @Retry_loop => fail
      | @deref => fail
      | @panic => fail
      | _ => unfold h
      end
  end.

Section NoPanic.
Context {W : Type} (V : Vendor W) (E : Env).
Implicit Types (d : ResourceData) (w : W).

Lemma handlers_without_dereference_are_safe op r :
  dereferences op r = false -> safe (handler V E op r).
Proof.
  destruct op, r; cbn [dereferences]; try discriminate; intros _;
    cbn [handler Create Read Update Delete]; repeat safe_step.
Qed.

End NoPanic.

(** X12: a handler can panic exactly when it dereferences an unchecked
    pointer of a vendor reply. Whatever the vendor answers, no handler of
    the mariadb security groups panics, nor Read, Update and Delete of the
    tsf application config and of the eip, nor Read and Update of the cfs
    snapshot; each of the other handlers panics on a vendor that leaves out
    what it may. *)
Theorem handler_panics_iff_dereferences op r :
  dereferences op r = true
  <-> exists (V : Vendor nat) (E : Env) d w, res (handler V E op r d w) = Panic.
Proof.
  split.
  - intros H. exists Cases.vendor_nil, Demo.env,
      (Demo.planned "res-1" (<["vpc_id" := VString "vpc-dk8zmwuf"]> ∅)), 0%nat.
    destruct op, r; try discriminate H; vm_compute; reflexivity.
  - intros (V & E & d & w & Hp).
    destruct (dereferences op r) eqn:H; [reflexivity|].
    now destruct (handlers_without_dereference_are_safe V E op r H d w).
Qed.

(** ** The order of the calls of Delete *)

Section DeleteOrder.
Context {W : Type} (V : Vendor W) (E : Env).
Implicit Types (d : ResourceData) (w : W) (t : list Event).

(** Events that leave Delete where it stands. *)
Lemma delete_log_stay r id k t u :
  Forall (fun e => delete_next r id k e = Some k) t ->
  delete_log r id k u -> delete_log r id k (t ++ u).
Proof.
  intros Ht Hu. induction Ht as [|e t He Ht IH]; [exact Hu|].
  cbn [app delete_log]. rewrite He. exact IH.
Qed.

(** The place of a call: its tests hold by what the run has found. *)
Ltac placed :=
  cbn [delete_log delete_next fst snd];
  rewrite ?bool_decide_true by (reflexivity || assumption);
  rewrite ?orb_true_r; cbn [andb orb].

(** The attempts that asked for a retry left Delete where it stood. *)
Ltac stayed r id k Hatt :=
  lazymatch type of Hatt with
  | attempts ?f ?d ?w ?t ?dl ?wl =>
      first
        [ refine (attempts_emits _ f d w t dl wl _ Hatt);
          solve [log_run ltac:(placed; reflexivity)]
        | refine (attempts_retried_emits _ f d w t dl wl _ Hatt);
          let d' := fresh in let w' := fresh in let e' := fresh in
          intros d' w' e';
          change (wp f d' w'
                    (fun r0 => res r0 = Ok (RetryableError e') ->
                               Forall (fun e => delete_next r id k e = Some k)
                                      (trace r0)));
          wp_run; intros; try discriminate; each_event; placed; reflexivity ]
  end.

Ltac log_of_delete r id :=
  repeat match goal with
  | |- True => exact I
  | |- delete_log _ _ _ [] => exact I
  | H : Forall (fun e => delete_next r id ?k e = Some ?k) ?t
    |- delete_log _ _ ?k (?t ++ _) =>
      apply (delete_log_stay r id k t _ H)
  | H : Forall (fun e => delete_next r id ?k e = Some ?k) ?t
    |- delete_log _ _ ?k ?t =>
      rewrite <- (app_nil_r t); apply (delete_log_stay r id k t _ H)
  | Hatt : attempts _ _ _ ?t _ _ |- delete_log _ _ ?k (?t ++ _) =>
      apply (delete_log_stay r id k t); [stayed r id k Hatt|]
  | Hatt : attempts _ _ _ ?t _ _ |- delete_log _ _ ?k ?t =>
      rewrite <- (app_nil_r t); apply (delete_log_stay r id k t); [stayed r id k Hatt|]
  | |- delete_log _ _ _ (_ :: _) => progress placed
  end.

Ltac delete_in_order r id :=
  wp_run; same_data;
  rewrite <- ?app_assoc; cbn [app];
  log_of_delete r id.

(** X13: whatever the vendor answers, the calls of a Delete come in the
    order of the code and aim at the resource of the identifier. The cfs
    snapshot is described only after its delete call has succeeded; the eip
    is deleted only after an unattach call has succeeded and described only
    after a delete call has succeeded; the vpn gateway is deleted only after
    the query of its tunnels came back empty, and nothing follows a query
    that found a tunnel; the mariadb security groups and the tsf application
    config see their delete call and nothing else. *)
Theorem delete_calls_in_order r d w :
  delete_log r (Id d) 0 (trace (Delete V E r d w)).
Proof.
  change (wp (Delete V E r) d w (fun run => delete_log r (Id d) 0 (trace run))).
  destruct r; cbn [Delete].
  - delete_in_order CfsSnapshot (Id d).
  - delete_in_order MariadbSecurityGroups (Id d).
  - delete_in_order TsfApplicationConfig (Id d).
  - delete_in_order Eip (Id d).
  - unfold resourceTencentCloudVpnGatewayDelete. do 2 wp_step.
    apply wp_bind.
    apply (wp_emits (fun e => delete_next VpnGateway (Id d) 0 e = Some 0%nat)).
    { apply emits_Retry. log_run ltac:(placed; reflexivity). }
    intros run Hrun. destruct (res run); wp_simpl.
    all: delete_in_order VpnGateway (Id d).
Qed.
End DeleteOrder.

(** ** What the dbbrain data source writes *)

Section DbbrainWrites.
Context {W : Type} (V : Vendor W) (E : Env).
Implicit Types (d : ResourceData) (w : W).

Lemma collectTasks_all sag tasks ids taskList d w :
  Forall (fun t => dbbrain.AsyncRequestId t <> None) tasks ->
  collectTasks E sag tasks ids taskList d w
  = mkRun (Ok ((ids ++ map (task_id E sag) tasks)%list,
               (taskList ++ map taskMap_of tasks)%list)) d w [].
Proof.
  intros H. revert ids taskList.
  induction H as [|task rest Hid _ IH]; intros ids taskList; cbn [collectTasks map].
  - now rewrite !app_nil_r.
  - destruct (dbbrain.AsyncRequestId task) as [n|] eqn:Hn; [|congruence].
    assert (Hid' : task_id E sag task = sag +:+ FILED_SP +:+ UInt64ToStr E n)
      by (unfold task_id; now rewrite Hn).
    rewrite bind_unfold. cbn. unfold after. cbn. rewrite IH, Hid'.
    now rewrite <- !app_assoc.
Qed.

Lemma GetOkString_Set key x d k : k <> key -> GetOkString (Set_ key x d) k = GetOkString d k.
Proof.
  intros Hk. unfold GetOkString, GetOk, Get. cbn.
  now rewrite lookup_insert_ne by congruence.
Qed.

Lemma GetOkString_SetId v d k : GetOkString (SetId v d) k = GetOkString d k.
Proof. reflexivity. Qed.

(** X14: when the query of the export tasks is answered at once with tasks
    that all carry an [AsyncRequestId], the Read of the data source leaves
    the hash of the identifiers [sec_audit_group_id#AsyncRequestId], in the
    order of the reply, as identifier and the tasks in that order as [list];
    with a [result_output_file] its last step is to write that list to the
    file and its result is that of the write, without one it succeeds and
    writes no file. *)
Theorem dbbrain_read_exports d w w' tasks :
  (0 < readRetryTimeout E)%nat ->
  serve V DescribeDbbrainSecurityAuditLogExportTasksByFilter (dbbrainParamMap d) w
  = (inr (Some tasks), w') ->
  Forall (fun t => dbbrain.AsyncRequestId t <> None) tasks ->
  exported E d tasks
    (dataSourceTencentCloudDbbrainSecurityAuditLogExportTasksRead V E d w).
Proof.
  intros Hn Hs Hids.
  change (wp (dataSourceTencentCloudDbbrainSecurityAuditLogExportTasksRead V E) d w
             (exported E d tasks)).
  unfold dataSourceTencentCloudDbbrainSecurityAuditLogExportTasksRead.
  wp_step. wp_step. wp_step. apply wp_Retry; [lia|]. intros t dl wl Hatt.
  apply attempts_first_final in Hatt as (-> & -> & ->).
  2:{ intros e. rewrite bind_unfold. unfold call. rewrite Hs. cbn. discriminate. }
  wp_step. wp_step. rewrite Hs in Hserve. injection Hserve as <- <-.
  wp_step. wp_step. wp_step.
  unfold wp at 1. rewrite (collectTasks_all _ tasks [] [] d w' Hids). cbn [app].
  wp_simpl. do 7 wp_step.
  rewrite GetOkString_Set, GetOkString_SetId by discriminate.
  unfold exported.
  destruct (GetOkString d "result_output_file") as [output|] eqn:Hout; wp_run.
  all: autorewrite with resource_data.
  all: split; [reflexivity|]; split; [now simplify_map_eq|].
  all: first [ eexists; split; reflexivity
             | split; [reflexivity | repeat constructor] ].
Qed.

End DbbrainWrites.

Lemma dbbrain_read_exports_witness :
  let d := Demo.planned "" (<["sec_audit_group_id" := VString "sag-01z37l4g"]>
                           (<["result_output_file" := VString "tasks.json"]> ∅)) in
  exported Demo.env d [Demo.task]
    (dataSourceTencentCloudDbbrainSecurityAuditLogExportTasksRead Demo.vendor Demo.env d 0%nat).
Proof.
  cbv zeta.
  apply (dbbrain_read_exports Demo.vendor Demo.env _ 0%nat 1%nat).
  - vm_compute. lia.
  - reflexivity.
  - repeat constructor. discriminate.
Defined.



Section TaskMap.
Implicit Types (m : gmap string Scalar) (key k : string).

Lemma lookup_put_str key p m k :
  put_str key p m !! k
  = from_option Some (m !! k) (if bool_decide (k = key) then SString <$> p else None).
Proof.
  unfold put_str. destruct p; case_bool_decide; simplify_map_eq; reflexivity.
Qed.

Lemma lookup_put_int key p m k :
  put_int key p m !! k
  = from_option Some (m !! k) (if bool_decide (k = key) then SInt <$> p else None).
Proof.
  unfold put_int. destruct p; case_bool_decide; simplify_map_eq; reflexivity.
Qed.

Lemma lookup_put_ints key p m k :
  put_ints key p m !! k
  = from_option Some (m !! k) (if bool_decide (k = key) then SInts <$> p else None).
Proof.
  unfold put_ints. destruct p; case_bool_decide; simplify_map_eq; reflexivity.
Qed.

(** X15: the map of a task in [list] holds, under each of its ten keys, the
    field of the task of that name when the vendor gave it, and nothing
    when it did not; it holds no other key. *)
Theorem taskMap_of_holds_fields task key :
  taskMap_of task !! key = task_field task key.
Proof.
  unfold taskMap_of, task_field.
  rewrite lookup_put_ints, !lookup_put_int, !lookup_put_str, !lookup_put_int.
  rewrite !lookup_put_str, !lookup_put_int, lookup_empty.
  repeat match goal with
         | |- context [bool_decide (key = ?k)] =>
             destruct (decide (key = k)) as [->|?];
             [ vm_compute;
               repeat match goal with
                      | |- context [match ?p with Some _ => _ | None => _ end] =>
                          destruct p
                      end; reflexivity
             | rewrite !(bool_decide_false (key = k)) by assumption ]
         end.
  reflexivity.
Qed.

End TaskMap.

(** * The pre-checks of the acceptance tests *)

Section PreChecks.
Import acctest.
Context (N : Names).
Implicit Types (e : environ) (p : precheck).

Lemma Getenv_Setenv key value e : Getenv (Setenv key value e) key = value.
Proof. unfold Getenv, Setenv. now rewrite lookup_insert_eq. Qed.

Lemma Getenv_Setenv_ne key key' value e :
  key <> key' -> Getenv (Setenv key value e) key' = Getenv e key'.
Proof. intros H. unfold Getenv, Setenv. now rewrite lookup_insert_ne. Qed.

Lemma default_region_keeps e key :
  PROVIDER_REGION N <> key -> Getenv (default_region N e) key = Getenv e key.
Proof.
  intros H. unfold default_region. case_bool_decide; [|reflexivity].
  now apply Getenv_Setenv_ne.
Qed.

Lemma use_account_credentials id key e e' :
  PROVIDER_SECRET_ID N <> PROVIDER_SECRET_KEY N ->
  use_account N id key e = (Passed, e') -> has_credentials N e'.
Proof.
  intros Hne. unfold use_account.
  destruct (bool_decide (Getenv e id = "")) eqn:Hid; [discriminate|].
  destruct (bool_decide (Getenv e key = "")) eqn:Hkey; [discriminate|].
  cbn. intros [= <-].
  apply bool_decide_eq_false in Hid, Hkey.
  split.
  - now rewrite Getenv_Setenv_ne, Getenv_Setenv by congruence.
  - now rewrite Getenv_Setenv.
Qed.

(** X16: when the names of the two credentials and of the region are three
    different variables, every pre-check of the acceptance tests that
    passes, for whatever account type, leaves both credentials of the
    provider set in the environment. *)
Theorem passed_precheck_has_credentials p e e' :
  distinct_names N ->
  run_precheck N p e = (Passed, e') ->
  has_credentials N e'.
Proof.
  intros (Hik & Hri & Hrk).
  assert (Hpre : forall e e', testAccPreCheck N e = (Passed, e') -> has_credentials N e').
  { clear e e'. intros e e'. unfold testAccPreCheck.
    destruct (bool_decide (Getenv e (PROVIDER_SECRET_ID N) = "")) eqn:Hid; [discriminate|].
    destruct (bool_decide (Getenv e (PROVIDER_SECRET_KEY N) = "")) eqn:Hkey; [discriminate|].
    apply bool_decide_eq_false in Hid, Hkey.
    cbv zeta. intros [= <-].
    pose proof (default_region_keeps e _ Hri) as Hi.
    pose proof (default_region_keeps e _ Hrk) as Hk.
    set (e1 := default_region N e) in *.
    split; repeat case_bool_decide;
      rewrite ?Getenv_Setenv, ?Getenv_Setenv_ne, ?Getenv_Setenv by congruence;
      congruence. }
  assert (Hcommon : forall a e e',
             testAccPreCheckCommon N a e = (Passed, e') -> has_credentials N e').
  { clear e e'. intros a e e'. unfold testAccPreCheckCommon. cbv zeta.
    repeat (case_bool_decide; [now apply use_account_credentials|]).
    pose proof (default_region_keeps e _ Hri) as Hi.
    pose proof (default_region_keeps e _ Hrk) as Hk.
    repeat case_bool_decide; try discriminate. intros [= <-].
    split; congruence. }
  destruct p as [|a|a|a]; cbn [run_precheck];
    unfold testAccStepPreConfigSetTempAKSK; eauto.
  unfold testAccPreCheckBusiness. case_bool_decide; [|apply Hpre].
  repeat case_bool_decide; try discriminate. intros [= <-].
  split; rewrite Getenv_Setenv_ne by congruence; assumption.
Qed.

End PreChecks.

Lemma passed_precheck_has_credentials_witness :
  let e : acctest.environ :=
    <["TENCENTCLOUD_SECRET_ID_PREPAY" := "AKIDprepay"]>
      (<["TENCENTCLOUD_SECRET_KEY_PREPAY" := "prepay-key"]> ∅) in
  acctest.has_credentials acctest.names
    (acctest.run_precheck acctest.names (acctest.PreCheckCommon "PREPAY") e).2.
Proof.
  cbv zeta.
  apply (passed_precheck_has_credentials acctest.names (acctest.PreCheckCommon "PREPAY")
           (<["TENCENTCLOUD_SECRET_ID_PREPAY" := "AKIDprepay"]>
              (<["TENCENTCLOUD_SECRET_KEY_PREPAY" := "prepay-key"]> ∅))).
  - repeat split; discriminate.
  - reflexivity.
Defined.

(** ** The calls of Create that depend on the configuration *)

Section CreateCalls.
Context {W : Type} (V : Vendor W) (E : Env).
Implicit Types (d : ResourceData) (w : W).

Lemma read_event_create_event r d e : read_event r e -> create_event d e.
Proof.
  destruct e as [| |a q x]; [exact (fun _ => I)..|].
  destruct r, a; cbn; intros H; try exact I; discriminate H.
Qed.

Ltac configured :=
  cbn [create_event fst snd];
  first [ exact I
        | repeat split;
          first [ reflexivity
                | match goal with
                  | H : bool_decide _ = true |- _ =>
                      exact (proj1 (bool_decide_eq_true _) H)
                  | H : GetOkString _ _ = Some _ |- _ => exact H
                  end ] ].

Ltac create_calls r d :=
  to_the_read r;
  same_data;
  attempts_log (create_event d) ltac:(configured);
  each_event;
  first [ configured
        | match goal with
          | H : Forall (read_event r) _ |- _ =>
              refine (List.Forall_impl _ _ H); intros ?;
              apply read_event_create_event
          end ].

(** X17: whatever the vendor answers, a Create assigns tags only when tags
    are configured, and then the configured tags, deleting none; the Create
    of an eip changes the name only when a name is configured, and to that
    name. *)
Theorem create_calls_follow_config r d w :
  Forall (create_event d) (trace (Create V E r d w)).
Proof.
  change (wp (Create V E r) d w (fun run => Forall (create_event d) (trace run))).
  destruct r; cbn [Create].
  - create_calls CfsSnapshot d.
  - create_calls MariadbSecurityGroups d.
  - create_calls TsfApplicationConfig d.
  - create_calls Eip d.
  - create_calls VpnGateway d.
Qed.

End CreateCalls.

(** ** What Delete and Update leave of the resource data *)

Section Leaves.
Context {W : Type} (V : Vendor W) (E : Env).
Implicit Types (d : ResourceData) (w : W).

Lemma keeps_check_immutable (I : ResourceData -> Prop) msg keys :
  keeps I (check_immutable msg keys : M W unit).
Proof.
  induction keys as [|k keys IH]; cbn [check_immutable]; [apply keeps_ret|].
  apply keeps_bind; [apply keeps_get_d|]. intros d.
  destruct (HasChange d k); [apply keeps_fail | exact IH].
Qed.

(** X18: whatever the vendor answers, a Delete leaves the resource data as
    it was given, identifier included: removing the identifier is left to
    the caller; an Update leaves the identifier it was given or, when its
    Read finds the object gone, none. *)
Theorem delete_and_update_keep_identifier r d w :
  rd (Delete V E r d w) = d
  /\ (Id (rd (Update V E r d w)) = Id d \/ Id (rd (Update V E r d w)) = "").
Proof.
  split.
  - assert (H : keeps (fun x => x = d) (Delete V E r)).
    { destruct r; cbn [Delete]; log_run ltac:(intros; subst; reflexivity). }
    exact (H d w eq_refl).
  - assert (H : keeps (fun x => Id x = Id d \/ Id x = "") (Update V E r)).
    { destruct r; cbn [Update];
        repeat first [ apply keeps_check_immutable
                     | log_step ltac:(intros; autorewrite with resource_data; auto) ]. }
    apply (H d w). now left.
Qed.

End Leaves.
